(** * Archive synchronisation pipeline: walker, reconciliation engine and
      upload acceptance service

    A shallow embedding of [cmd/archive_upload_mass_upload/mass_upload.go]
    (the FTP walker [ftpWalk] and the reconciliation loop [readChannel]) and
    of [cmd/archive_upload_server/server.go] (the gRPC handler [FileUpload]),
    together with the properties of the pipeline that the design document
    states about them.

    Go strings are byte strings and are modelled by [string]; a [[]byte] is a
    [list byte]; a Go [int] is a [Z] wrapped to 64 bits; the bucket is a
    finite map from object names to objects. *)

From Stdlib Require Import ZArith Lia List Ascii String Bool.
From Stdlib.Strings Require Import Byte.
From stdpp Require Import base option list strings gmap.
Import ListNotations.

Local Open Scope string_scope.
Local Open Scope Z_scope.

(** ** Package [strings] *)

Module strings.

(** [strings.HasPrefix(s, prefix)]. *)
Fixpoint HasPrefix (s prefix : string) : bool :=
  match prefix with
  | EmptyString => true
  | String c prefix' =>
      match s with
      | EmptyString => false
      | String d s' => if Ascii.eqb c d then HasPrefix s' prefix' else false
      end
  end.

(** [strings.Contains(s, substr)]. *)
Fixpoint Contains (s substr : string) : bool :=
  if HasPrefix s substr then true
  else match s with
       | EmptyString => false
       | String _ s' => Contains s' substr
       end.

Fixpoint rev_acc (s acc : string) : string :=
  match s with
  | EmptyString => acc
  | String c s' => rev_acc s' (String c acc)
  end.

Definition rev (s : string) : string := rev_acc s EmptyString.

(** [strings.HasSuffix(s, suffix)]:
    [len(s) >= len(suffix) && s[len(s)-len(suffix):] == suffix]. *)
Definition HasSuffix (s suffix : string) : bool :=
  (String.length suffix <=? String.length s)%nat &&
  String.eqb
    (String.substring (String.length s - String.length suffix)
                      (String.length suffix) s)
    suffix.

Fixpoint mem (c : ascii) (cutset : string) : bool :=
  match cutset with
  | EmptyString => false
  | String d cutset' => if Ascii.eqb c d then true else mem c cutset'
  end.

(** [strings.TrimLeft(s, cutset)]: [s] without its leading bytes that
    belong to [cutset]. *)
Fixpoint TrimLeft (s cutset : string) : string :=
  match s with
  | EmptyString => EmptyString
  | String c s' => if mem c cutset then TrimLeft s' cutset else s
  end.

(** [strings.TrimRight(s, cutset)]. *)
Definition TrimRight (s cutset : string) : string :=
  rev (TrimLeft (rev s) cutset).

(** The one-byte pieces of a string. *)
Fixpoint explode (s : string) : list string :=
  match s with
  | EmptyString => []
  | String c s' => String c EmptyString :: explode s'
  end.

(** The pieces of [s] between the occurrences of a separator that is not
    empty; [cur] is the piece being read and [skip] the number of bytes of
    a separator still to pass. *)
Fixpoint split_from (sep s cur : string) (skip : nat) : list string :=
  match s with
  | EmptyString => [cur]
  | String c s' =>
      match skip with
      | S k => split_from sep s' cur k
      | O =>
          if HasPrefix s sep
          then cur :: split_from sep s' EmptyString (String.length sep - 1)
          else split_from sep s' (append cur (String c EmptyString)) 0
      end
  end.

(** [strings.Split(s, sep)]; with an empty separator the string is cut
    after each byte (after each UTF-8 sequence in Go: the same for ASCII). *)
Definition Split (s sep : string) : list string :=
  match sep with
  | EmptyString => explode s
  | _ => split_from sep s EmptyString 0
  end.

(** [strings.Join(elems, sep)]. *)
Fixpoint Join (elems : list string) (sep : string) : string :=
  match elems with
  | [] => EmptyString
  | [e] => e
  | e :: elems' => append e (append sep (Join elems' sep))
  end.

End strings.

(** ** Packages [crypto/md5] and [encoding/hex] *)

Module md5.

Definition w32 (x : Z) : Z := x mod 2 ^ 32.

Definition rotl32 (x s : Z) : Z :=
  w32 (Z.lor (Z.shiftl x s) (Z.shiftr x (32 - s))).

Definition not32 (x : Z) : Z := Z.lxor x 0xffffffff.

(** The table of the 64 additive constants
    [floor(2^32 * abs(sin(i + 1)))]. *)
Definition table : list Z :=
  [ 0xd76aa478; 0xe8c7b756; 0x242070db; 0xc1bdceee;
    0xf57c0faf; 0x4787c62a; 0xa8304613; 0xfd469501;
    0x698098d8; 0x8b44f7af; 0xffff5bb1; 0x895cd7be;
    0x6b901122; 0xfd987193; 0xa679438e; 0x49b40821;
    0xf61e2562; 0xc040b340; 0x265e5a51; 0xe9b6c7aa;
    0xd62f105d; 0x02441453; 0xd8a1e681; 0xe7d3fbc8;
    0x21e1cde6; 0xc33707d6; 0xf4d50d87; 0x455a14ed;
    0xa9e3e905; 0xfcefa3f8; 0x676f02d9; 0x8d2a4c8a;
    0xfffa3942; 0x8771f681; 0x6d9d6122; 0xfde5380c;
    0xa4beea44; 0x4bdecfa9; 0xf6bb4b60; 0xbebfbc70;
    0x289b7ec6; 0xeaa127fa; 0xd4ef3085; 0x04881d05;
    0xd9d4d039; 0xe6db99e5; 0x1fa27cf8; 0xc4ac5665;
    0xf4292244; 0x432aff97; 0xab9423a7; 0xfc93a039;
    0x655b59c3; 0x8f0ccc92; 0xffeff47d; 0x85845dd1;
    0x6fa87e4f; 0xfe2ce6e0; 0xa3014314; 0x4e0811a1;
    0xf7537e82; 0xbd3af235; 0x2ad7d2bb; 0xeb86d391 ].

(** Per-round left-rotation amounts. *)
Definition shifts : list Z :=
  [ 7; 12; 17; 22; 7; 12; 17; 22; 7; 12; 17; 22; 7; 12; 17; 22;
    5; 9; 14; 20; 5; 9; 14; 20; 5; 9; 14; 20; 5; 9; 14; 20;
    4; 11; 16; 23; 4; 11; 16; 23; 4; 11; 16; 23; 4; 11; 16; 23;
    6; 10; 15; 21; 6; 10; 15; 21; 6; 10; 15; 21; 6; 10; 15; 21 ].

Record digest_state := { sa : Z; sb : Z; sc : Z; sd : Z }.

Definition init : digest_state :=
  {| sa := 0x67452301; sb := 0xefcdab89; sc := 0x98badcfe; sd := 0x10325476 |}.

(** Little-endian 32-bit word made of four bytes. *)
Definition word_of (b0 b1 b2 b3 : Z) : Z :=
  b0 + 256 * b1 + 65536 * b2 + 16777216 * b3.

Fixpoint words (bs : list Z) : list Z :=
  match bs with
  | b0 :: b1 :: b2 :: b3 :: bs' => word_of b0 b1 b2 b3 :: words bs'
  | _ => []
  end.

(** One of the 64 operations of a block. *)
Definition operation (m : list Z) (st : digest_state) (i : nat) : digest_state :=
  let '(Build_digest_state a b c d) := st in
  let iz := Z.of_nat i in
  let '(f, g) :=
    if iz <? 16 then (Z.lor (Z.land b c) (Z.land (not32 b) d), iz)
    else if iz <? 32 then (Z.lor (Z.land d b) (Z.land (not32 d) c), (5 * iz + 1) mod 16)
    else if iz <? 48 then (Z.lxor (Z.lxor b c) d, (3 * iz + 5) mod 16)
    else (Z.lxor c (Z.lor b (not32 d)), (7 * iz) mod 16) in
  let f' := w32 (f + a + nth i table 0 + nth (Z.to_nat g) m 0) in
  {| sa := d; sd := c; sc := b; sb := w32 (b + rotl32 f' (nth i shifts 0)) |}.

Definition block (st : digest_state) (bs : list Z) : digest_state :=
  let r := fold_left (operation (words bs)) (seq 0 64) st in
  {| sa := w32 (sa st + sa r); sb := w32 (sb st + sb r);
     sc := w32 (sc st + sc r); sd := w32 (sd st + sd r) |}.

Fixpoint blocks (n : nat) (st : digest_state) (bs : list Z) : digest_state :=
  match n with
  | O => st
  | S n' => blocks n' (block st (firstn 64 bs)) (skipn 64 bs)
  end.

Definition le_bytes (n : nat) (x : Z) : list Z :=
  map (fun k => Z.shiftr x (8 * Z.of_nat k) mod 256) (seq 0 n).

(** The message followed by the bit [1], zeros up to 56 modulo 64, and the
    bit length on eight bytes. *)
Definition pad (msg : list Z) : list Z :=
  let len := Z.of_nat (length msg) in
  let zeros := Z.to_nat ((55 - len) mod 64) in
  msg ++ 0x80 :: repeat 0 zeros ++ le_bytes 8 ((8 * len) mod 2 ^ 64).

(** [md5.Sum(data)]: the 16 bytes of the checksum. *)
Definition Sum (data : list byte) : list byte :=
  let p := pad (map (fun b => Z.of_N (Byte.to_N b)) data) in
  let r := blocks (length p / 64) init p in
  map (fun z => default x00 (Byte.of_N (Z.to_N z)))
      (le_bytes 4 (sa r) ++ le_bytes 4 (sb r) ++ le_bytes 4 (sc r) ++ le_bytes 4 (sd r)).

End md5.

Module hex.

Definition hextable : string := "0123456789abcdef".

Definition digit (n : N) : ascii :=
  default "0"%char (String.get (N.to_nat n) hextable).

(** [hex.EncodeToString(src)]: two lower-case hexadecimal digits per byte. *)
Fixpoint EncodeToString (src : list byte) : string :=
  match src with
  | [] => EmptyString
  | b :: src' =>
      String (digit (Byte.to_N b / 16))
             (String (digit (Byte.to_N b mod 16)) (EncodeToString src'))
  end.

End hex.

Definition bytes_of (s : string) : list byte := list_byte_of_string s.

(** A Go [error] is modelled by its message; [nil] is [None]. *)
Abbreviation error := string (only parsing).

(** The fingerprint both programs compute: [hex.EncodeToString] of
    [md5.Sum], which is also what [fmt.Sprintf("%x", md5.Sum(buf))] prints. *)
Definition md5hex (b : list byte) : string := hex.EncodeToString (md5.Sum b).

(** ** The object store (package [cloud.google.com/go/storage])

    The transport to the store is an external collaborator.  Its model keeps
    the objects of the one bucket both programs use, the failures the
    transport injects in the operations on each object, and a journal of the
    mutating operations that were attempted. *)

Module storage.

(** Errors of the store: the sentinel [storage.ErrObjectNotExist] and any
    other failure, with its message. *)
Inductive err :=
| ErrObjectNotExist
| ErrOther (msg : string).

(** [err.Error()]. *)
Definition Error (e : err) : string :=
  match e with
  | ErrObjectNotExist => "storage: object doesn't exist"
  | ErrOther msg => msg
  end.

Record object := { content : list byte; metadata : gmap string string }.

(** [ObjectAttrs], restricted to the fields the programs read. *)
Record ObjectAttrs := { MD5 : list byte; Metadata : gmap string string }.

(** Failures injected in the operations on one object: reading its
    attributes, writing into a writer, closing the writer, updating the
    attributes. *)
Record faults := {
  attrs_err : option string;
  write_err : option string;
  close_err : option string;
  update_err : option string }.

Definition no_faults : faults :=
  {| attrs_err := None; write_err := None; close_err := None; update_err := None |}.

(** Journal entries, one per operation on an object, with its result: a
    query of the attributes, a writer that was closed (with the bytes it had
    received), an update of the metadata. *)
Inductive op :=
| OpAttrs (name : string) (res : option err)
| OpWrite (name : string) (b : list byte) (res : option err)
| OpUpdate (name : string) (md : gmap string string) (res : option err).

Record Client := {
  objects : gmap string object;
  failing : string -> faults;
  journal : list op }.

Definition record (c : Client) (o : op) : Client :=
  {| objects := objects c; failing := failing c; journal := journal c ++ [o] |}.

Definition fault (f : option string) : option err :=
  match f with
  | Some msg => Some (ErrOther msg)
  | None => None
  end.

(** [ObjectHandle.Attrs]: the MD5 the store reports for an object is that
    of its content. *)
Definition Attrs (c : Client) (name : string) : (ObjectAttrs + err) * Client :=
  let res :=
    match fault (attrs_err (failing c name)) with
    | Some e => inr e
    | None =>
        match objects c !! name with
        | Some o => inl {| MD5 := md5.Sum (content o); Metadata := metadata o |}
        | None => inr ErrObjectNotExist
        end
    end in
  (res, record c (OpAttrs name (match res with inl _ => None | inr e => Some e end))).

(** [ObjectHandle.NewWriter]: nothing reaches the store before [Close]. *)
Record Writer := { wname : string; wbuf : list byte; werr : option err }.

Definition NewWriter (name : string) : Writer :=
  {| wname := name; wbuf := []; werr := None |}.

(** [io.Copy(wc, bytes.NewReader(b))]: the error of the writes, if any. *)
Definition Copy (c : Client) (w : Writer) (b : list byte) : option err * Writer :=
  match fault (write_err (failing c (wname w))) with
  | Some e => (Some e, {| wname := wname w; wbuf := wbuf w; werr := Some e |})
  | None => (None, {| wname := wname w; wbuf := wbuf w ++ b; werr := None |})
  end.

(** [Writer.Close]: the object is created, replacing any object of that
    name, only when [Close] succeeds. *)
Definition Close (c : Client) (w : Writer) : option err * Client :=
  let res :=
    match werr w with
    | Some e => Some e
    | None => fault (close_err (failing c (wname w)))
    end in
  (res,
   {| objects :=
        match res with
        | Some _ => objects c
        | None => <[wname w := {| content := wbuf w; metadata := ∅ |}]> (objects c)
        end;
      failing := failing c;
      journal := journal c ++ [OpWrite (wname w) (wbuf w) res] |}).

(** [ObjectHandle.Update] with [ObjectAttrsToUpdate{Metadata: md}]: the
    object must exist; the given keys are set. *)
Definition Update (c : Client) (name : string) (md : gmap string string)
  : option err * Client :=
  let res :=
    match fault (update_err (failing c name)) with
    | Some e => Some e
    | None =>
        match objects c !! name with
        | Some _ => None
        | None => Some ErrObjectNotExist
        end
    end in
  (res,
   {| objects :=
        match res, objects c !! name with
        | None, Some o =>
            <[name := {| content := content o; metadata := md ∪ metadata o |}]> (objects c)
        | _, _ => objects c
        end;
      failing := failing c;
      journal := journal c ++ [OpUpdate name md res] |}).

End storage.

(** ** Generated protocol types (package [pb]) *)

Module pb.

(** Modelled from the spec: the generated enumeration
    [pb.FileRequest_Project], whose declaration is not among the sources;
    the design document lists its four tags. *)
Inductive FileRequest_Project :=
| FileRequest_UNKNOWN
| FileRequest_ROUTEVIEWS
| FileRequest_RIPE_RIS
| FileRequest_RPKI_RARC.

Definition Project_String (p : FileRequest_Project) : string :=
  match p with
  | FileRequest_UNKNOWN => "UNKNOWN"
  | FileRequest_ROUTEVIEWS => "ROUTEVIEWS"
  | FileRequest_RIPE_RIS => "RIPE_RIS"
  | FileRequest_RPKI_RARC => "RPKI_RARC"
  end.

Definition Project_eqb (p q : FileRequest_Project) : bool :=
  match p, q with
  | FileRequest_UNKNOWN, FileRequest_UNKNOWN
  | FileRequest_ROUTEVIEWS, FileRequest_ROUTEVIEWS
  | FileRequest_RIPE_RIS, FileRequest_RIPE_RIS
  | FileRequest_RPKI_RARC, FileRequest_RPKI_RARC => true
  | _, _ => false
  end.

(** Modelled from the spec: the generated message [pb.FileRequest]
    (the design document's UploadRequest). *)
Record FileRequest := {
  Filename : string;
  Content : list byte;
  Md5Sum : string;
  Project : FileRequest_Project }.

(** Modelled from the spec: the generated enumeration
    [pb.FileResponse_Status]. *)
Inductive FileResponse_Status := FileResponse_SUCCESS | FileResponse_FAIL.

(** Modelled from the spec: the generated message [pb.FileResponse]; a
    fresh [&pb.FileResponse{}] has no status set. *)
Record FileResponse := { Status : option FileResponse_Status }.

End pb.

(** ** Package [path] *)

Module path.

(** The elements of a path between its separators, without the empty
    ones. [cur] accumulates the current element. *)
Fixpoint elements (s cur : string) : list string :=
  match s with
  | EmptyString => if String.eqb cur "" then [] else [cur]
  | String c s' =>
      if Ascii.eqb c "/"%char
      then (if String.eqb cur "" then elements s' "" else cur :: elements s' "")
      else elements s' (cur +:+ String c EmptyString)
  end.

(** The elements that remain once [.] is dropped and [..] has removed the
    element before it; [out] is the result so far, last element first. *)
Fixpoint resolve (rooted : bool) (els out : list string) : list string :=
  match els with
  | [] => List.rev out
  | e :: els' =>
      if String.eqb e "." then resolve rooted els' out
      else if String.eqb e ".." then
        match out with
        | [] => if rooted then resolve rooted els' [] else resolve rooted els' [e]
        | o :: out' =>
            if String.eqb o ".." then resolve rooted els' (e :: out)
            else resolve rooted els' out'
        end
      else resolve rooted els' (e :: out)
  end.

Fixpoint join (els : list string) : string :=
  match els with
  | [] => ""
  | [e] => e
  | e :: els' => e +:+ "/" +:+ join els'
  end.

(** [path.Clean(p)]. *)
Definition Clean (p : string) : string :=
  let rooted := strings.HasPrefix p "/" in
  let els := resolve rooted (elements p "") [] in
  if rooted then "/" +:+ join els
  else match els with
       | [] => "."
       | _ => join els
       end.

(** [path.Join(a, b)]: empty elements are ignored and the result is
    cleaned. *)
Definition Join (a b : string) : string :=
  if String.eqb a "" then (if String.eqb b "" then "" else Clean b)
  else if String.eqb b "" then Clean a
  else Clean (a +:+ "/" +:+ b).

End path.

(** ** The remote namespace (package [github.com/jlaffaye/ftp])

    The FTP client is an external collaborator: a connection answers
    directory listings and retrievals, and fails when the transport fails.
    The walker is the library's: a depth-first traversal driven by [Next],
    which descends into the directory it last returned unless [SkipDir] was
    called on it. *)

Module ftp.

Inductive EntryType := EntryTypeFile | EntryTypeFolder | EntryTypeLink.

Definition EntryType_eqb (a b : EntryType) : bool :=
  match a, b with
  | EntryTypeFile, EntryTypeFile
  | EntryTypeFolder, EntryTypeFolder
  | EntryTypeLink, EntryTypeLink => true
  | _, _ => false
  end.

(** [Entry], restricted to the fields the walk reads. *)
Record Entry := { Name : string; Type' : EntryType }.

(** A connection: what [List] answers for a path, and what [Retr] followed
    by [ioutil.ReadAll] on the response yields for a path: either [Retr]
    fails, or the stream opens and reading it yields some bytes and,
    possibly, the error that ended the reading early. *)
Record ServerConn := {
  List : string -> list Entry + error;
  Retr : string -> (list byte * option error) + error }.

Record item := { ipath : string; entry : Entry; err : option error }.

Record Walker := {
  serverConn : ServerConn;
  root : string;
  cur : option item;
  stack : list item;
  descend : bool }.

(** [ServerConn.Walk]. *)
Definition Walk (c : ServerConn) (root : string) : Walker :=
  {| serverConn := c;
     root := if strings.HasSuffix root "/" then root else root +:+ "/";
     cur := None;
     stack := [];
     descend := true |}.

Definition listed (dir : string) (entries : list Entry) : list item :=
  map (fun e => {| ipath := path.Join dir (Name e); entry := e; err := None |})
      (List.filter (fun e => negb (String.eqb (Name e) "." || String.eqb (Name e) ".."))
                   entries).

(** [Walker.Next]: lists the current directory unless [SkipDir] was called,
    then moves to the entry on top of the stack. *)
Definition Next (w : Walker) : bool * Walker :=
  let c :=
    match cur w with
    | Some it => it
    | None => {| ipath := root w;
                 entry := {| Name := ""; Type' := EntryTypeFolder |};
                 err := None |}
    end in
  let step (stk : list item) : bool * Walker :=
    match List.rev stk with
    | [] => (false, {| serverConn := serverConn w; root := root w; cur := Some c;
                       stack := stk; descend := descend w |})
    | top :: below =>
        (true, {| serverConn := serverConn w; root := root w; cur := Some top;
                  stack := List.rev below; descend := true |})
    end in
  if descend w && EntryType_eqb (Type' (entry c)) EntryTypeFolder then
    match List (serverConn w) (ipath c) with
    | inr e =>
        (false, {| serverConn := serverConn w; root := root w;
                   cur := Some {| ipath := ipath c; entry := entry c; err := Some e |};
                   stack := stack w; descend := descend w |})
    | inl entries => step (stack w ++ listed (ipath c) entries)%list
    end
  else step (stack w).

(** [Walker.SkipDir]. *)
Definition SkipDir (w : Walker) : Walker :=
  {| serverConn := serverConn w; root := root w; cur := cur w;
     stack := stack w; descend := false |}.

(** [Walker.Err], [Walker.Stat] and [Walker.Path], which the program calls
    after [Next] only. *)
Definition Err (w : Walker) : option error :=
  match cur w with Some it => err it | None => None end.

Definition Stat (w : Walker) : Entry :=
  match cur w with
  | Some it => entry it
  | None => {| Name := ""; Type' := EntryTypeFolder |}
  end.

Definition Path (w : Walker) : string :=
  match cur w with Some it => ipath it | None => "" end.

End ftp.

(** ** Go integers and formatting *)

(** A Go [int] on a 64-bit platform: the value an [int] holds after an
    arithmetic result [x]. *)
Definition int_wrap (x : Z) : Z := (x + 2 ^ 63) mod 2 ^ 64 - 2 ^ 63.

Module strconv.

Definition dquote : ascii := "034"%char.
Definition backslash : ascii := "092"%char.

Fixpoint escape (s : string) : string :=
  match s with
  | EmptyString => EmptyString
  | String c s' =>
      if Ascii.eqb c dquote || Ascii.eqb c backslash
      then String backslash (String c (escape s'))
      else String c (escape s')
  end.

(** [strconv.Quote(s)], which the verb [%q] prints, for a string of
    printable ASCII bytes: the string between double quotes, with the double
    quotes and backslashes in it escaped. *)
Definition Quote (s : string) : string :=
  String dquote (escape s +:+ String dquote EmptyString).

End strconv.

(** ** The upload acceptance service ([cmd/archive_upload_server/server.go]) *)

Module server.
Section Server.

(** [converter.ProjectMetadataKey], a constant of package [mrt_converter],
    which is not among the sources: a parameter. *)
Variable ProjectMetadataKey : string.

Record rvServer := { bucket : string; sc : storage.Client }.

(** [setProjectMeta] sets the project in the metadata of an object, which
    must exist. *)
Definition setProjectMeta (r : rvServer) (obj : string) (proj : pb.FileRequest_Project)
  : option error * rvServer :=
  let '(res, sc') :=
    storage.Update (sc r) obj {[ ProjectMetadataKey := pb.Project_String proj ]} in
  let r' := {| bucket := bucket r; sc := sc' |} in
  match res with
  | Some e =>
      (Some ("failed to set metadata '" +:+ ProjectMetadataKey +:+ ":"
             +:+ pb.Project_String proj +:+ "': " +:+ storage.Error e), r')
  | None => (None, r')
  end.

(** [fileStore] stores a file to the bucket.  The deferred [wc.Close()] runs
    when the function returns and its result is dropped. *)
Definition fileStore (r : rvServer) (fn : string) (b : list byte)
  : option error * rvServer :=
  let wc := storage.NewWriter fn in
  let '(err, wc) := storage.Copy (sc r) wc b in
  let '(_, sc') := storage.Close (sc r) wc in
  let r' := {| bucket := bucket r; sc := sc' |} in
  match err with
  | Some e =>
      (Some ("failed copying content to destination: " +:+ bucket r +:+ "/" +:+ fn
             +:+ ": " +:+ storage.Error e), r')
  | None => (None, r')
  end.

(** [newRVServer]. *)
Definition newRVServer (bucket : string) (client : storage.Client)
  : rvServer * option error :=
  ({| bucket := bucket; sc := client |}, None).

Definition set_Status (resp : pb.FileResponse) (s : pb.FileResponse_Status)
  : pb.FileResponse :=
  {| pb.Status := Some s |}.

(** [handleDataFile] stores a RARC RPKI or Routeviews file. *)
Definition handleDataFile (r : rvServer) (proj : pb.FileRequest_Project)
    (resp : pb.FileResponse) (fn : string) (c : list byte)
  : (pb.FileResponse * option error) * rvServer :=
  match fileStore r fn c with
  | (Some err, r1) => ((set_Status resp pb.FileResponse_FAIL, Some err), r1)
  | (None, r1) =>
      match setProjectMeta r1 fn proj with
      | (Some err, r2) => ((set_Status resp pb.FileResponse_FAIL, Some err), r2)
      | (None, r2) => ((set_Status resp pb.FileResponse_SUCCESS, None), r2)
      end
  end.

(** [FileUpload]: a [nil] response is [None]. *)
Definition FileUpload (r : rvServer) (req : pb.FileRequest)
  : (option pb.FileResponse * option error) * rvServer :=
  let resp := {| pb.Status := None |} in
  let fn := pb.Filename req in
  let content := pb.Content req in
  let proj := pb.Project req in
  let sum := pb.Md5Sum req in
  if (length content <? 1)%nat || pb.Project_eqb proj pb.FileRequest_UNKNOWN
     || (String.length fn <? 1)%nat
  then ((None, Some "base requirements for FileRequest unmet"), r)
  else
    let ts := md5.Sum content in
    let tsString := hex.EncodeToString ts in
    if negb (String.eqb tsString sum)
    then ((None, Some ("checksum failure req(" +:+ strconv.Quote sum +:+ ") != calc("
                       +:+ strconv.Quote tsString +:+ ")")), r)
    else
      (* the statement after the switch, reached by the cases that do not
         return *)
      let after_switch :=
        ((None, Some ("not Implemented storing: " +:+ pb.Filename req)), r) in
      match proj with
      | pb.FileRequest_ROUTEVIEWS =>
          let '((resp', err), r') :=
            handleDataFile r pb.FileRequest_ROUTEVIEWS resp fn content in
          ((Some resp', err), r')
      | pb.FileRequest_RIPE_RIS => after_switch
      | pb.FileRequest_RPKI_RARC =>
          let '((resp', err), r') :=
            handleDataFile r pb.FileRequest_RPKI_RARC resp fn content in
          ((Some resp', err), r')
      | pb.FileRequest_UNKNOWN => after_switch
      end.

End Server.
End server.

(** ** Credentials and the RPC channel
       (packages [idtoken], [google], [x509] and [grpc])

    External collaborators.  A token source and a connection are described
    by the calls that made them; the environment says which of these calls
    fail. *)

Module grpc.

Inductive TokenSource :=
| IDTokenSource (audience : string) (credentialsFile : option string)
| DefaultTokenSource.

(** A connection, by the target and the options it was dialled with. *)
Record ClientConn := {
  target : string;
  authority : string;
  maxCallSendMsgSize : Z;
  perRPCCredentials : TokenSource }.

(** The errors of [idtoken.NewTokenSource] for an audience and a
    credentials file, of [google.DefaultTokenSource], of
    [x509.SystemCertPool] and of [grpc.Dial]. *)
Record env := {
  NewTokenSource_err : string -> option string -> option error;
  DefaultTokenSource_err : option error;
  SystemCertPool_err : option error;
  Dial_err : ClientConn -> option error }.

End grpc.

(** ** The mirroring client
       ([cmd/archive_upload_mass_upload/mass_upload.go]) *)

Module mass_upload.
Section Client.

Variable ProjectMetadataKey : string.

(** Max ftp errors before exiting the process. *)
Definition maxFTPErrs : Z := 50.

Record evalFile := { name : string; chksum : string }.

(** What the reconciliation did, in order: a retrieval from the archive
    with the error [getMD5ftp] returned, a file left alone because the
    checksums agree, an upload request sent with the error of the call. *)
Inductive event :=
| Retrieved (path : string) (err : option error)
| Skipped (name : string)
| Uploaded (req : pb.FileRequest) (err : option error).

(** The client.  [store] is the bucket, which the handles [bs] and [bh] and
    the service behind [gClient] all denote; [transport_err] is the failure
    of the RPC channel for a request, if any; [ch] is not a field here: the
    channel is described by what the walker does on it (see [channel]). *)
Record client := {
  store : storage.Client;
  transport_err : pb.FileRequest -> option error;
  fc : ftp.ServerConn;
  bucket : string;
  metrics : gmap string Z;
  log : list event }.

Definition set_store (c : client) (st : storage.Client) : client :=
  {| store := st; transport_err := transport_err c; fc := fc c; bucket := bucket c;
     metrics := metrics c; log := log c |}.

Definition add_event (c : client) (e : event) : client :=
  {| store := store c; transport_err := transport_err c; fc := fc c; bucket := bucket c;
     metrics := metrics c; log := (log c ++ [e])%list |}.

(** [c.metrics[k]++]. *)
Definition incr (c : client) (k : string) : client :=
  {| store := store c; transport_err := transport_err c; fc := fc c; bucket := bucket c;
     metrics := <[k := int_wrap (default 0 (metrics c !! k) + 1)]> (metrics c);
     log := log c |}.

(** The metrics of a client made by [new]. *)
Definition new_metrics : gmap string Z :=
  <["sync" := 0]> (<["skip" := 0]> (<["error" := 0]> ∅)).

(** [c.gClient.FileUpload(ctx, &req)]: the call reaches the service unless
    the channel fails; an error of the handler comes back as the error of
    the call, without a response. *)
Definition gClient_FileUpload (c : client) (req : pb.FileRequest)
  : (option pb.FileResponse * option error) * client :=
  match transport_err c req with
  | Some e => ((None, Some e), c)
  | None =>
      let '((resp, err), r') :=
        server.FileUpload ProjectMetadataKey
          {| server.bucket := bucket c; server.sc := store c |} req in
      let c' := set_store c (server.sc r') in
      match err with
      | Some e => ((None, Some ("rpc error: code = Unknown desc = " +:+ e)), c')
      | None => ((resp, None), c')
      end
  end.

(** What the walker does on the channel: the descriptors it sends, in
    order, and whether it closes the channel before it returns.  The channel
    is unbuffered, with this one sender and one receiver. *)
Record channel := { sends : list evalFile; closes : bool }.

(** The body of the loop of [ftpWalk]; [seen] collects the paths logged as
    evaluated, [out] the descriptors sent.  [None]: the walk is longer than
    [fuel] calls of [Next]. *)
Fixpoint ftpWalk_loop (fuel : nat) (w : ftp.Walker) (seen : list string)
    (out : list evalFile) : option (ftp.Walker * list string * list evalFile) :=
  match fuel with
  | O => None
  | S fuel' =>
      let '(more, w) := ftp.Next w in
      if more then
        let seen := (seen ++ [ftp.Path w])%list in
        let e := ftp.Stat w in
        if ftp.EntryType_eqb (ftp.Type' e) ftp.EntryTypeFolder
           && strings.HasSuffix (ftp.Path w) "RIBS"
        then ftpWalk_loop fuel' w seen out
        else if ftp.EntryType_eqb (ftp.Type' e) ftp.EntryTypeFile
                && strings.HasPrefix (ftp.Name e) "updates"
        then ftpWalk_loop fuel' w seen
               (out ++ [{| name := strings.TrimLeft (ftp.Path w) "/"; chksum := "" |}])%list
        else ftpWalk_loop fuel' w seen out
      else Some (w, seen, out)
  end.

(** [ftpWalk]: the paths evaluated and what happens on the channel. *)
Definition ftpWalk (fuel : nat) (c : client) (dir : string)
  : option (list string * channel) :=
  match ftpWalk_loop fuel (ftp.Walk (fc c) dir) [] [] with
  | None => None
  | Some (w, seen, out) =>
      Some (seen,
            {| sends := out;
               closes := match ftp.Err w with Some _ => true | None => false end |})
  end.

(** [getMD5cloud]. *)
Definition getMD5cloud (c : client) (path : string)
  : (string * option error) * client :=
  let '(res, st) := storage.Attrs (store c) path in
  match res with
  | inr e =>
      (("", Some ("failed to get attrs for obj: " +:+ storage.Error e)), set_store c st)
  | inl attrs => ((hex.EncodeToString (storage.MD5 attrs), None), set_store c st)
  end.

(** [getMD5ftp]: the error of [ioutil.ReadAll] is assigned and not read. *)
Definition getMD5ftp (c : client) (path : string)
  : string * list byte * option error :=
  match ftp.Retr (fc c) path with
  | inr e => ("", [], Some ("failed to RETR the path: " +:+ e))
  | inl (buf, _) => (hex.EncodeToString (md5.Sum buf), buf, None)
  end.

(** How [readChannel] ends: it returns after the receive yielded [nil]
    because the channel was closed; it returns after a failed upload;
    [glog.Fatalf] ends the process; or it stays in a receive on a channel
    that nobody will send on or close. *)
Inductive ending :=
| ChannelClosed
| UploadFailed
| Fatal (msg : string)
| Blocked.

Inductive control := Continue | Stop (e : ending).

(** One iteration of the loop of [readChannel] on a descriptor received
    from the channel, with the local variable [errs]. *)
Definition readChannel_body (c : client) (errs : Z) (ef : evalFile)
  : control * client * Z :=
  let fn := strings.TrimLeft (name ef) "/" in
  let '((csSum, err), c) := getMD5cloud c fn in
  let cloud : string + string :=
    match err with
    | Some e =>
        if strings.Contains e "object doesn't exist" then inl ""
        else inr ("failed to get cloud md5 for file(" +:+ fn +:+ "): " +:+ e)
    | None => inl csSum
    end in
  match cloud with
  | inr msg => (Stop (Fatal msg), c, errs)
  | inl csSum =>
      let '(fSum, fc, err) := getMD5ftp c (name ef) in
      let c := add_event c (Retrieved (name ef) err) in
      match err with
      | Some e =>
          if errs <? maxFTPErrs then (Continue, c, int_wrap (errs + 1))
          else (Stop (Fatal ("failed to get ftp md5 for file(" +:+ name ef +:+ "): "
                             +:+ e)), c, errs)
      | None =>
          if String.eqb csSum fSum then
            (Continue, add_event (incr c "skip") (Skipped (name ef)), errs)
          else
            let req := {| pb.Filename := name ef; pb.Content := fc;
                          pb.Md5Sum := fSum; pb.Project := pb.FileRequest_ROUTEVIEWS |} in
            let '((resp, err), c) := gClient_FileUpload c req in
            let c := add_event c (Uploaded req err) in
            match err with
            | Some _ => (Stop UploadFailed, incr c "error", errs)
            | None => (Continue, incr c "sync", errs)
            end
      end
  end.

(** The loop of [readChannel] from a given state. *)
Fixpoint readChannel_loop (c : client) (errs : Z) (rest : list evalFile)
    (closed : bool) : ending * client * Z :=
  match rest with
  | [] => (if closed then ChannelClosed else Blocked, c, errs)
  | ef :: rest' =>
      match readChannel_body c errs ef with
      | (Continue, c', errs') => readChannel_loop c' errs' rest' closed
      | (Stop e, c', errs') => (e, c', errs')
      end
  end.

(** [readChannel]. *)
Definition readChannel (c : client) (ch : channel) : ending * client * Z :=
  readChannel_loop c 0 (sends ch) (closes ch).

(** [main], from the start of the walk: [go c.ftpWalk(dir)] and
    [c.readChannel(ctx)]. *)
Definition pipeline (fuel : nat) (c : client) (dir : string)
  : option (list string * (ending * client * Z)) :=
  match ftpWalk fuel c dir with
  | None => None
  | Some (seen, ch) => Some (seen, readChannel c ch)
  end.

(** Max message size set to 50mb. *)
Definition maxMsgSize : Z := 50 * 1024 * 1024.

(** The one error of [idtoken.NewTokenSource] after which [newGRPC] tries
    the application default credentials. *)
Definition authorized_user_error : string :=
  "idtoken: credential must be service_account, found "
  +:+ strconv.Quote "authorized_user".

(** The audience of [newGRPC]: [None] is the panic of the index
    expression on an empty slice. *)
Definition audience_of (host : string) : option string :=
  match strings.Split host ":" with
  | [] => None
  | h :: _ => Some ("https://" +:+ h)
  end.

(** [newGRPC] makes the connection to the upload service; [None] is a
    panic. *)
Definition newGRPC (e : grpc.env) (host saPath : string)
  : option (grpc.ClientConn + error) :=
  match audience_of host with
  | None => None
  | Some audience =>
      let source : grpc.TokenSource + error :=
        if String.eqb saPath "" then
          match grpc.NewTokenSource_err e audience None with
          | Some err =>
              if negb (String.eqb err authorized_user_error)
              then inr ("idtoken.NewTokenSource: " +:+ err)
              else
                match grpc.DefaultTokenSource_err e with
                | Some err' =>
                    inr ("attempt to use Application Default Credentials failed: "
                         +:+ err')
                | None => inl grpc.DefaultTokenSource
                end
          | None => inl (grpc.IDTokenSource audience None)
          end
        else
          match grpc.NewTokenSource_err e audience (Some saPath) with
          | Some err => inr ("unable to create TokenSource: " +:+ err)
          | None => inl (grpc.IDTokenSource audience (Some saPath))
          end in
      match source with
      | inr err => Some (inr err)
      | inl idTokenSource =>
          match grpc.SystemCertPool_err e with
          | Some err => Some (inr err)
          | None =>
              let conn :=
                {| grpc.target := host; grpc.authority := host;
                   grpc.maxCallSendMsgSize := maxMsgSize;
                   grpc.perRPCCredentials := idTokenSource |} in
              match grpc.Dial_err e conn with
              | Some err => Some (inr err)
              | None => Some (inl conn)
              end
          end
      end
  end.

(** What the outside answers to [new]: the dial and the login of the FTP
    client, the creation of the storage client, the credentials and the
    dial of the RPC channel, and the failures of the channel once made. *)
Record dialer := {
  ftp_Dial : string -> ftp.ServerConn + error;
  ftp_Login : string -> string -> option error;
  storage_NewClient : storage.Client + error;
  grpc_env : grpc.env;
  transport : grpc.ClientConn -> pb.FileRequest -> option error }.

(** [connectFtp]. *)
Definition connectFtp (e : dialer) (site : string) : ftp.ServerConn + error :=
  ftp_Dial e site.

(** [new]; [None] is a panic. *)
Definition new (e : dialer) (aUser aPasswd site bucket grpcService svcAccountKey : string)
  : option (client + error) :=
  match connectFtp e site with
  | inr err =>
      Some (inr ("failed to connect to the ftp site(" +:+ site +:+ "): " +:+ err))
  | inl f =>
      match ftp_Login e aUser aPasswd with
      | Some err =>
          Some (inr ("failed to login to site(" +:+ site +:+ ") as u/p (" +:+ aUser
                     +:+ "/" +:+ aPasswd +:+ "): " +:+ err))
      | None =>
          match storage_NewClient e with
          | inr errS =>
              Some (inr ("failed to create a new storage client: " +:+ errS))
          | inl c =>
              match newGRPC (grpc_env e) grpcService svcAccountKey with
              | None => None
              | Some (inr err) =>
                  Some (inr ("failed to create gRPC client: " +:+ err))
              | Some (inl gc) =>
                  Some (inl {| store := c; transport_err := transport e gc; fc := f;
                               bucket := bucket; metrics := new_metrics; log := [] |})
              end
          end
      end
  end.

(** The lines of [main] that clean up the archive into the site and the
    directory; [None] is the panic of [parts[0]] on an empty slice. *)
Definition main_site_dir (archive : string) : option (string * string) :=
  let site := archive in
  let site :=
    if strings.HasPrefix site "ftp://" then strings.TrimLeft site "ftp://" else site in
  let site :=
    if strings.HasSuffix site "/" then strings.TrimRight site "/" else site in
  match strings.Split site "/" with
  | [] => None
  | p0 :: rest => Some (p0 +:+ ":21", "/" +:+ strings.Join rest "/")
  end.

End Client.
End mass_upload.

(** ** Vocabulary of the properties *)

Module spec.
Import mass_upload.

(** The failures that [getMD5ftp] reported to [readChannel]: the retrievals
    whose command [RETR] failed.  A retrieval whose stream broke after the
    command opened it is not among them: [getMD5ftp] returns no error for
    it. *)
Fixpoint reported_failures (l : list event) : Z :=
  match l with
  | [] => 0
  | Retrieved _ (Some _) :: l' => 1 + reported_failures l'
  | _ :: l' => reported_failures l'
  end.

(** A retrieval that fails at some point: the command [RETR] fails, or the
    stream it opened breaks while it is read. *)
Definition retrieval_fails (f : ftp.ServerConn) (p : string) : bool :=
  match ftp.Retr f p with
  | inr _ => true
  | inl (_, Some _) => true
  | inl (_, None) => false
  end.

(** An event without failure. *)
Definition event_ok (e : event) : Prop :=
  match e with
  | Retrieved _ (Some _) => False
  | Uploaded _ (Some _) => False
  | _ => True
  end.

(** An operation on the store that did what was asked; the answer that an
    object does not exist is not a failure of the query. *)
Definition op_ok (o : storage.op) : Prop :=
  match o with
  | storage.OpAttrs _ (Some (storage.ErrOther _)) => False
  | storage.OpWrite _ _ (Some _) => False
  | storage.OpUpdate _ _ (Some _) => False
  | _ => True
  end.

Definition is_skip (e : event) : bool :=
  match e with Skipped _ => true | _ => false end.

(** The events and the store operations of a run that took the client from
    [c] to [c']. *)
Definition events_of_run (c c' : client) : list event :=
  drop (length (log c)) (log c').

Definition ops_of_run (c c' : client) : list storage.op :=
  drop (length (storage.journal (store c))) (storage.journal (store c')).

(** A descriptor as the walker makes them: the leading separators are
    stripped from its path. *)
Definition normalized (ef : evalFile) : Prop :=
  strings.TrimLeft (name ef) "/" = name ef.

(** The client of a new process started where the client [c] stops, in the
    case where nothing at all differs in the second run: the bucket is as
    [c] left it, and the archive, the channel and the store answer the
    second run as they answered the first, their faults included. *)
Definition restart (c : client) : client :=
  {| store := store c; transport_err := transport_err c; fc := fc c;
     bucket := bucket c; metrics := new_metrics; log := [] |}.

(** The descriptors before the loop stops, processed one after the other:
    the state in which the loop asks for the next descriptor, or the state
    in which it stopped. *)
Fixpoint iterate (key : string) (c : client) (errs : Z) (ds : list evalFile)
  : control * client * Z :=
  match ds with
  | [] => (Continue, c, errs)
  | ef :: ds' =>
      match readChannel_body key c errs ef with
      | (Continue, c', errs') => iterate key c' errs' ds'
      | stopped => stopped
      end
  end.

(** The destination already holds, for a descriptor, an object with the
    fingerprint of what the archive serves, and neither query fails. *)
Definition settled (c : client) (ef : evalFile) : Prop :=
  storage.attrs_err (storage.failing (store c) (name ef)) = None /\
  exists o buf rerr,
    storage.objects (store c) !! name ef = Some o /\
    ftp.Retr (fc c) (name ef) = inl (buf, rerr) /\
    md5hex (storage.content o) = md5hex buf.

(** The entries a walker yields when it is driven by [Next] alone, at most
    [fuel] of them, each with its path. *)
Fixpoint walk_entries (fuel : nat) (w : ftp.Walker) : list (string * ftp.Entry) :=
  match fuel with
  | O => []
  | S fuel' =>
      let '(more, w') := ftp.Next w in
      if more then (ftp.Path w', ftp.Stat w') :: walk_entries fuel' w' else []
  end.

(** The entries the walk is after: regular files whose name begins with
    [updates]. *)
Definition wanted (pe : string * ftp.Entry) : bool :=
  ftp.EntryType_eqb (ftp.Type' (snd pe)) ftp.EntryTypeFile
  && strings.HasPrefix (ftp.Name (snd pe)) "updates".

Definition descriptor_of (pe : string * ftp.Entry) : evalFile :=
  {| name := strings.TrimLeft (fst pe) "/"; chksum := "" |}.

(** The first test of [FileUpload]: a required field is missing. *)
Definition unmet (req : pb.FileRequest) : bool :=
  (length (pb.Content req) <? 1)%nat
  || pb.Project_eqb (pb.Project req) pb.FileRequest_UNKNOWN
  || (String.length (pb.Filename req) <? 1)%nat.

(** The two halves of [readChannel_body]: the destination checksum, or the
    message of the fatal error; then the retrieval, the comparison and the
    upload.  [readChannel_body_eq] shows that the body is made of them. *)
Definition destination_sum (c : client) (fn : string) : (string + string) * client :=
  let '((csSum, err), c) := getMD5cloud c fn in
  (match err with
   | Some e =>
       if strings.Contains e "object doesn't exist" then inl ""
       else inr ("failed to get cloud md5 for file(" +:+ fn +:+ "): " +:+ e)
   | None => inl csSum
   end, c).

Definition reconcile (key : string) (c : client) (errs : Z) (ef : evalFile)
    (csSum : string) : control * client * Z :=
  let '(fSum, fc, err) := getMD5ftp c (name ef) in
  let c := add_event c (Retrieved (name ef) err) in
  match err with
  | Some e =>
      if errs <? maxFTPErrs then (Continue, c, int_wrap (errs + 1))
      else (Stop (Fatal ("failed to get ftp md5 for file(" +:+ name ef +:+ "): "
                         +:+ e)), c, errs)
  | None =>
      if String.eqb csSum fSum then
        (Continue, add_event (incr c "skip") (Skipped (name ef)), errs)
      else
        let req := {| pb.Filename := name ef; pb.Content := fc;
                      pb.Md5Sum := fSum; pb.Project := pb.FileRequest_ROUTEVIEWS |} in
        let '((resp, err), c) := gClient_FileUpload key c req in
        let c := add_event c (Uploaded req err) in
        match err with
        | Some _ => (Stop UploadFailed, incr c "error", errs)
        | None => (Continue, incr c "sync", errs)
        end
  end.

(** The client [c'] is the client [c] later in the same run: the archive,
    the failures of the store and of the channel are the same, and the log
    and the journal have grown. *)
Definition extends (c c' : client) : Prop :=
  fc c' = fc c /\
  storage.failing (store c') = storage.failing (store c) /\
  transport_err c' = transport_err c /\
  bucket c' = bucket c /\
  (exists evs, log c' = (log c ++ evs)%list) /\
  (exists ops, storage.journal (store c') = (storage.journal (store c) ++ ops)%list).

(** The paths retrieved, in the order of the log. *)
Fixpoint retrieved (l : list event) : list string :=
  match l with
  | [] => []
  | Retrieved p _ :: l' => p :: retrieved l'
  | _ :: l' => retrieved l'
  end.

(** An upload request as the engine makes them: for the project
    ROUTEVIEWS, with the checksum of its content. *)
Definition upload_well_formed (e : event) : Prop :=
  match e with
  | Uploaded req _ =>
      pb.Md5Sum req = md5hex (pb.Content req) /\
      pb.Project req = pb.FileRequest_ROUTEVIEWS
  | _ => True
  end.

(** The request [readChannel] makes for a file and its content. *)
Definition request_for (fn : string) (buf : list byte) : pb.FileRequest :=
  {| pb.Filename := fn; pb.Content := buf; pb.Md5Sum := md5hex buf;
     pb.Project := pb.FileRequest_ROUTEVIEWS |}.

(** A counter of the metrics, 0 when the key is missing. *)
Definition counter (c : client) (k : string) : Z := default 0 (metrics c !! k).

(** What an iteration of the loop did to the client: the events it logged,
    the counter it incremented, if any, and the object it may have set, if
    any; no other object changes. *)
Definition effect (c c' : client) (evs : list event) (k : option string)
    (touched : option string) : Prop :=
  log c' = (log c ++ evs)%list /\
  metrics c'
  = match k with
    | Some k => <[k := int_wrap (counter c k + 1)]> (metrics c)
    | None => metrics c
    end /\
  match touched with
  | None => storage.objects (store c') = storage.objects (store c)
  | Some n =>
      storage.objects (store c') = storage.objects (store c) \/
      exists o, storage.objects (store c') = <[n := o]> (storage.objects (store c))
  end.

(** The six ways an iteration of the loop of [readChannel] can go, from the
    client [c] and the count [errs], on the descriptor [ef]. *)
Inductive outcome_of (c : client) (errs : Z) (ef : evalFile)
  : control * client * Z -> Prop :=
| DestinationFatal msg c' :
    effect c c' [] None None ->
    outcome_of c errs ef (Stop (Fatal msg), c', errs)
| RetrievalCounted e c' :
    errs < maxFTPErrs ->
    effect c c' [Retrieved (name ef) (Some e)] None None ->
    outcome_of c errs ef (Continue, c', int_wrap (errs + 1))
| RetrievalFatal e msg c' :
    maxFTPErrs <= errs ->
    effect c c' [Retrieved (name ef) (Some e)] None None ->
    outcome_of c errs ef (Stop (Fatal msg), c', errs)
| FileSkipped c' :
    effect c c' [Retrieved (name ef) None; Skipped (name ef)] (Some "skip") None ->
    outcome_of c errs ef (Continue, c', errs)
| FileSynced buf c' :
    effect c c'
      [Retrieved (name ef) None; Uploaded (request_for (name ef) buf) None]
      (Some "sync") (Some (name ef)) ->
    outcome_of c errs ef (Continue, c', errs)
| FileFailed buf e c' :
    effect c c'
      [Retrieved (name ef) None; Uploaded (request_for (name ef) buf) (Some e)]
      (Some "error") (Some (name ef)) ->
    outcome_of c errs ef (Stop UploadFailed, c', errs).

End spec.

(** ** Sample archive, bucket and clients *)

Module sample.

Definition file (n : string) : ftp.Entry :=
  {| ftp.Name := n; ftp.Type' := ftp.EntryTypeFile |}.

Definition folder (n : string) : ftp.Entry :=
  {| ftp.Name := n; ftp.Type' := ftp.EntryTypeFolder |}.

(** An archive with [/a/updates.1], [/a/other.txt], [/a/RIBS/full.1] and
    [/a/RIBS/updates.2]; every listing succeeds. *)
Definition site : ftp.ServerConn :=
  {| ftp.List := fun p =>
       if String.eqb p "/" then inl [folder "a"]
       else if String.eqb p "/a"
            then inl [folder "RIBS"; file "updates.1"; file "other.txt"]
       else if String.eqb p "/a/RIBS" then inl [file "full.1"; file "updates.2"]
       else inr "550 not a directory";
     ftp.Retr := fun p =>
       if String.eqb p "a/updates.1" then inl (bytes_of "X", None)
       else if String.eqb p "a/RIBS/updates.2" then inl (bytes_of "Y", None)
       else inr "550 no such file" |}.

(** The same archive behind a connection that breaks while [/a] is
    listed. *)
Definition broken_site : ftp.ServerConn :=
  {| ftp.List := fun p =>
       if String.eqb p "/" then inl [folder "a"]
       else inr "421 connection dropped";
     ftp.Retr := ftp.Retr site |}.

(** An archive whose file stream breaks after three bytes. *)
Definition truncating_site : ftp.ServerConn :=
  {| ftp.List := ftp.List site;
     ftp.Retr := fun p =>
       if String.eqb p "a/updates.1" then inl (bytes_of "par", Some "unexpected EOF")
       else inr "550 no such file" |}.

(** An archive from which nothing can be retrieved. *)
Definition unreadable_site : ftp.ServerConn :=
  {| ftp.List := ftp.List site;
     ftp.Retr := fun _ => inr "550 no such file" |}.

Definition bucket_of (objs : gmap string storage.object) (f : string -> storage.faults)
  : storage.Client :=
  {| storage.objects := objs; storage.failing := f; storage.journal := [] |}.

Definition empty_bucket : storage.Client := bucket_of ∅ (fun _ => storage.no_faults).

Definition object_of (s : string) : storage.object :=
  {| storage.content := bytes_of s; storage.metadata := ∅ |}.

(** A bucket that holds [a/updates.1] with an older content and in which
    closing a writer fails. *)
Definition stale_bucket : storage.Client :=
  bucket_of (<["a/updates.1" := object_of "old"]> ∅)
    (fun _ => {| storage.attrs_err := None; storage.write_err := None;
                 storage.close_err := Some "googleapi: Error 403";
                 storage.update_err := None |}).

Definition client_of (st : storage.Client) (conn : ftp.ServerConn) : mass_upload.client :=
  {| mass_upload.store := st; mass_upload.transport_err := fun _ => None;
     mass_upload.fc := conn; mass_upload.bucket := "routeviews-archives";
     mass_upload.metrics := mass_upload.new_metrics; mass_upload.log := [] |}.

Definition descriptor (n : string) : mass_upload.evalFile :=
  {| mass_upload.name := n; mass_upload.chksum := "" |}.

Definition request (fn content sum : string) (p : pb.FileRequest_Project)
  : pb.FileRequest :=
  {| pb.Filename := fn; pb.Content := bytes_of content; pb.Md5Sum := sum;
     pb.Project := p |}.

Definition rv (st : storage.Client) : server.rvServer :=
  {| server.bucket := "routeviews-archives"; server.sc := st |}.

(** A value for the metadata key. *)
Definition key : string := "project".

(** A run over the one descriptor of [a/updates.1], from an empty bucket. *)
Definition updates_1 : mass_upload.channel :=
  {| mass_upload.sends := [descriptor "a/updates.1"]; mass_upload.closes := true |}.

Definition first_client : mass_upload.client := client_of empty_bucket site.

(** The client when that run ends. *)
Definition first_client_after : mass_upload.client :=
  snd (fst (mass_upload.readChannel key first_client updates_1)).

(** A client whose bucket is [stale_bucket]. *)
Definition stale_client : mass_upload.client := client_of stale_bucket site.

Definition stale_client_after : mass_upload.client :=
  snd (fst (mass_upload.readChannel key stale_client updates_1)).

Definition truncated_client : mass_upload.client :=
  client_of empty_bucket truncating_site.

(** Descriptors of files that cannot be retrieved. *)
Definition unreadable (n : nat) : list mass_upload.evalFile :=
  repeat (descriptor "a/updates.1") n.

Definition unreadable_client : mass_upload.client :=
  client_of empty_bucket unreadable_site.

Definition after_unreadable (n : nat) : mass_upload.client :=
  snd (fst (spec.iterate key unreadable_client 0 (unreadable n))).

(** A valid request for [a/updates.1] with the content [X]. *)
Definition upload_request : pb.FileRequest :=
  request "a/updates.1" "X" "02129bb861061d1a052c592e2dc6b383" pb.FileRequest_ROUTEVIEWS.

(** A bucket in which updating the metadata fails, and an empty bucket in
    which closing a writer fails. *)
Definition metadata_failing_bucket : storage.Client :=
  bucket_of ∅
    (fun _ => {| storage.attrs_err := None; storage.write_err := None;
                 storage.close_err := None;
                 storage.update_err := Some "googleapi: Error 503" |}).

Definition close_failing_bucket : storage.Client :=
  bucket_of ∅
    (fun _ => {| storage.attrs_err := None; storage.write_err := None;
                 storage.close_err := Some "googleapi: Error 403";
                 storage.update_err := None |}).

(** A bucket that holds an object the archive does not have. *)
Definition other_bucket : storage.Client :=
  bucket_of (<["b/keep.me" := object_of "kept"]> ∅) (fun _ => storage.no_faults).

(** A client whose queries of the attributes fail. *)
Definition unreachable_bucket_client : mass_upload.client :=
  client_of
    (bucket_of ∅
       (fun _ => {| storage.attrs_err := Some "context deadline exceeded";
                    storage.write_err := None; storage.close_err := None;
                    storage.update_err := None |}))
    site.

(** An archive whose file [a/updates.1] is empty. *)
Definition empty_file_site : ftp.ServerConn :=
  {| ftp.List := ftp.List site;
     ftp.Retr := fun p =>
       if String.eqb p "a/updates.1" then inl ([], None)
       else inr "550 no such file" |}.

Definition empty_file_client : mass_upload.client :=
  client_of empty_bucket empty_file_site.

(** The two descriptors the walk of the sample archive sends, on a channel
    that is closed after them. *)
Definition two_updates : mass_upload.channel :=
  {| mass_upload.sends := [descriptor "a/updates.1"; descriptor "a/RIBS/updates.2"];
     mass_upload.closes := true |}.

(** An environment in which the identity token cannot be made for an
    authorized user, and nothing else fails. *)
Definition authorized_user_env : grpc.env :=
  {| grpc.NewTokenSource_err := fun _ _ => Some mass_upload.authorized_user_error;
     grpc.DefaultTokenSource_err := None;
     grpc.SystemCertPool_err := None;
     grpc.Dial_err := fun _ => None |}.

(** A dialer for which the login to the archive fails. *)
Definition refusing_dialer : mass_upload.dialer :=
  {| mass_upload.ftp_Dial := fun _ => inl site;
     mass_upload.ftp_Login := fun _ _ => Some "530 Login incorrect";
     mass_upload.storage_NewClient := inl empty_bucket;
     mass_upload.grpc_env := authorized_user_env;
     mass_upload.transport := fun _ _ => None |}.

(** Descriptors with numbered names: [a/updates.07] for 7. *)
Definition digit (n : nat) : ascii := ascii_of_nat (48 + n)%nat.

Definition numbered (n : nat) : mass_upload.evalFile :=
  descriptor ("a/updates." +:+ String (digit (n / 10)%nat)
                                 (String (digit (n mod 10)%nat) EmptyString)).

Definition numbered_from (first count : nat) : list mass_upload.evalFile :=
  map numbered (seq first count).

(** An archive of which [a/RIBS/updates.2] is retrieved whole and the
    stream of [a/updates.1] breaks after three bytes; [RETR] fails for every
    other path. *)
Definition flaky_site : ftp.ServerConn :=
  {| ftp.List := ftp.List site;
     ftp.Retr := fun p =>
       if String.eqb p "a/updates.1" then inl (bytes_of "par", Some "unexpected EOF")
       else if String.eqb p "a/RIBS/updates.2" then inl (bytes_of "Y", None)
       else inr "550 no such file" |}.

Definition flaky_client : mass_upload.client := client_of empty_bucket flaky_site.

(** An archive behind a connection on which every stream breaks after
    three bytes. *)
Definition breaking_site : ftp.ServerConn :=
  {| ftp.List := ftp.List site;
     ftp.Retr := fun _ => inl (bytes_of "par", Some "unexpected EOF") |}.

Definition breaking_client : mass_upload.client := client_of empty_bucket breaking_site.

(** A run on [flaky_site]: fifty descriptors whose [RETR] fails, then
    [a/updates.1], whose stream breaks, then [a/RIBS/updates.2]. *)
Definition flaky_run : mass_upload.ending * mass_upload.client * Z :=
  mass_upload.readChannel key flaky_client
    {| mass_upload.sends :=
         numbered_from 10 50 ++ [descriptor "a/updates.1"; descriptor "a/RIBS/updates.2"];
       mass_upload.closes := true |}.

(** A run on [breaking_site] over sixty descriptors. *)
Definition breaking_run : mass_upload.ending * mass_upload.client * Z :=
  mass_upload.readChannel key breaking_client
    {| mass_upload.sends := numbered_from 10 60; mass_upload.closes := true |}.

(** The archive of [truncating_site] when the stream does not break: the
    file [a/updates.1] is retrieved whole. *)
Definition restored_site : ftp.ServerConn :=
  {| ftp.List := ftp.List site;
     ftp.Retr := fun p =>
       if String.eqb p "a/updates.1" then inl (bytes_of "partial", None)
       else inr "550 no such file" |}.

(** The client when the run of [truncated_client] over [a/updates.1]
    ends, and the client of a new process on the bucket as that run left
    it, whose retrieval is not interrupted. *)
Definition truncated_client_after : mass_upload.client :=
  snd (fst (mass_upload.readChannel key truncated_client updates_1)).

Definition restored_client : mass_upload.client :=
  client_of (mass_upload.store truncated_client_after) restored_site.

End sample.

(** * Properties *)

Arguments md5.Sum : simpl never.
Arguments hex.EncodeToString : simpl never.
Arguments strconv.Quote : simpl never.

(** ** The checksum codec *)

Example md5_empty : md5hex [] = "d41d8cd98f00b204e9800998ecf8427e".
Proof. vm_compute. reflexivity. Qed.

Example md5_abc : md5hex (bytes_of "abc") = "900150983cd24fb0d6963f7d28e17f72".
Proof. vm_compute. reflexivity. Qed.

Example md5_two_blocks :
  md5hex (bytes_of
    "aaaaaaaaaaaaaaaaaaaaaaaaaaaaaaaaaaaaaaaaaaaaaaaaaaaaaaaaaaaaaaaaaaaaaaaaaaaaaaaa")
  = "b15af9cdabbaea0516866a33d8fd0f98".
Proof. vm_compute. reflexivity. Qed.

Lemma le_bytes_length n x : length (md5.le_bytes n x) = n.
Proof. unfold md5.le_bytes. rewrite length_map. apply length_seq. Qed.

(** [md5.Sum] returns a [[16]byte]. *)
Lemma Sum_length data : length (md5.Sum data) = 16%nat.
Proof.
  unfold md5.Sum. rewrite length_map, !length_app, !le_bytes_length. reflexivity.
Qed.

Lemma EncodeToString_length src :
  String.length (hex.EncodeToString src) = (2 * length src)%nat.
Proof.
  induction src as [|b src IH]; [reflexivity|].
  change (hex.EncodeToString (b :: src))
    with (String (hex.digit (Byte.to_N b / 16))
            (String (hex.digit (Byte.to_N b mod 16)) (hex.EncodeToString src))).
  cbn [String.length length]. rewrite IH. lia.
Qed.

(** A fingerprint has 32 characters; in particular it is not empty. *)
Lemma md5hex_length b : String.length (md5hex b) = 32%nat.
Proof. unfold md5hex. rewrite EncodeToString_length, Sum_length. reflexivity. Qed.

Lemma md5hex_nonempty b : md5hex b <> "".
Proof. intros H. pose proof (md5hex_length b) as L. rewrite H in L. discriminate. Qed.

Lemma string_eqb_false (s t : string) : s <> t -> String.eqb s t = false.
Proof. intros H. apply String.eqb_neq. exact H. Qed.

(** ** The upload acceptance service *)

Section ServerProperties.

Variable key : string.

Lemma lt1_length {A} (l : list A) : (length l <? 1)%nat = true <-> l = [].
Proof.
  destruct l; simpl; split; intros H; try reflexivity; try discriminate.
Qed.

Lemma lt1_string (s : string) : (String.length s <? 1)%nat = true <-> s = "".
Proof.
  destruct s; simpl; split; intros H; try reflexivity; try discriminate.
Qed.

Lemma Project_eqb_eq p q : pb.Project_eqb p q = true <-> p = q.
Proof. destruct p, q; simpl; split; intros H; congruence. Qed.

Lemma unmet_true req :
  spec.unmet req = true <->
  pb.Content req = [] \/ pb.Project req = pb.FileRequest_UNKNOWN \/ pb.Filename req = "".
Proof.
  unfold spec.unmet. rewrite !orb_true_iff, lt1_length, lt1_string, Project_eqb_eq. tauto.
Qed.

Lemma unmet_false req :
  pb.Content req <> [] -> pb.Project req <> pb.FileRequest_UNKNOWN ->
  pb.Filename req <> "" -> spec.unmet req = false.
Proof.
  intros H1 H2 H3. destruct (spec.unmet req) eqn:E; [|reflexivity].
  apply unmet_true in E. tauto.
Qed.

Lemma FileUpload_unmet r req :
  spec.unmet req = true ->
  server.FileUpload key r req
  = ((None, Some "base requirements for FileRequest unmet"), r).
Proof.
  intros H. unfold server.FileUpload. cbv zeta. fold (spec.unmet req).
  rewrite H. reflexivity.
Qed.

Lemma FileUpload_checksum r req :
  spec.unmet req = false ->
  pb.Md5Sum req <> md5hex (pb.Content req) ->
  server.FileUpload key r req
  = ((None, Some ("checksum failure req(" +:+ strconv.Quote (pb.Md5Sum req)
                  +:+ ") != calc(" +:+ strconv.Quote (md5hex (pb.Content req)) +:+ ")")), r).
Proof.
  intros H Hs. unfold server.FileUpload. cbv zeta. fold (spec.unmet req). rewrite H.
  fold (md5hex (pb.Content req)).
  rewrite string_eqb_false by congruence. reflexivity.
Qed.

(** Past the two checks, [FileUpload] is the switch on the project. *)
Lemma FileUpload_dispatch r req :
  spec.unmet req = false ->
  pb.Md5Sum req = md5hex (pb.Content req) ->
  server.FileUpload key r req =
  match pb.Project req with
  | pb.FileRequest_ROUTEVIEWS =>
      let '((resp, err), r') :=
        server.handleDataFile key r pb.FileRequest_ROUTEVIEWS {| pb.Status := None |}
          (pb.Filename req) (pb.Content req) in
      ((Some resp, err), r')
  | pb.FileRequest_RPKI_RARC =>
      let '((resp, err), r') :=
        server.handleDataFile key r pb.FileRequest_RPKI_RARC {| pb.Status := None |}
          (pb.Filename req) (pb.Content req) in
      ((Some resp, err), r')
  | _ => ((None, Some ("not Implemented storing: " +:+ pb.Filename req)), r)
  end.
Proof.
  intros H Hs. unfold server.FileUpload. cbv zeta. fold (spec.unmet req). rewrite H.
  fold (md5hex (pb.Content req)). rewrite Hs, String.eqb_refl.
  destruct (pb.Project req); reflexivity.
Qed.

(** [fileStore] when the copy succeeds: the result of [Close] is not
    looked at. *)
Lemma fileStore_copied (r : server.rvServer) fn b :
  storage.write_err (storage.failing (server.sc r) fn) = None ->
  server.fileStore r fn b
  = (None,
     {| server.bucket := server.bucket r;
        server.sc := snd (storage.Close (server.sc r)
                            {| storage.wname := fn; storage.wbuf := b;
                               storage.werr := None |}) |}).
Proof.
  intros H. unfold server.fileStore, storage.Copy, storage.NewWriter. simpl.
  rewrite H. reflexivity.
Qed.

Lemma fileStore_not_copied (r : server.rvServer) fn b msg :
  storage.write_err (storage.failing (server.sc r) fn) = Some msg ->
  exists e r',
    server.fileStore r fn b = (Some e, r') /\
    storage.objects (server.sc r') = storage.objects (server.sc r) /\
    storage.failing (server.sc r') = storage.failing (server.sc r) /\
    storage.journal (server.sc r')
    = (storage.journal (server.sc r)
       ++ [storage.OpWrite fn [] (Some (storage.ErrOther msg))])%list.
Proof.
  intros H. unfold server.fileStore, storage.Copy, storage.NewWriter. simpl.
  rewrite H. simpl. eexists _, _. split; [reflexivity|]. simpl. auto.
Qed.

(** C9. A request with an empty content, the project UNKNOWN or an empty
    file name is failed with the error of the unmet base requirements, the
    same whatever its digest is: the call ends before the digest is
    compared; the server is left as it was, so that no object is written and
    no metadata updated. *)
Theorem FileUpload_rejects_malformed (r : server.rvServer) (req : pb.FileRequest) :
  pb.Content req = [] \/ pb.Project req = pb.FileRequest_UNKNOWN \/ pb.Filename req = "" ->
  server.FileUpload key r req
  = ((None, Some "base requirements for FileRequest unmet"), r).
Proof. intros H. apply FileUpload_unmet, unmet_true, H. Qed.

(** C2. A request whose digest is not the fingerprint the server computes
    over its content is failed: the call returns an error and no response,
    and the server is left as it was, so that no object is written and no
    metadata updated. *)
Theorem FileUpload_integrity (r : server.rvServer) (req : pb.FileRequest) :
  pb.Md5Sum req <> md5hex (pb.Content req) ->
  exists e, server.FileUpload key r req = ((None, Some e), r).
Proof.
  intros H. destruct (spec.unmet req) eqn:E.
  - eexists. apply FileUpload_unmet, E.
  - eexists. apply FileUpload_checksum; assumption.
Qed.

(** C8. A request that passes the validation of its fields and the digest
    check and carries the project RIPE_RIS is failed with the error "not
    Implemented", and the server is left as it was: no object is written and
    no metadata updated. *)
Theorem FileUpload_RIPE_RIS (r : server.rvServer) (req : pb.FileRequest) :
  pb.Content req <> [] ->
  pb.Filename req <> "" ->
  pb.Md5Sum req = md5hex (pb.Content req) ->
  pb.Project req = pb.FileRequest_RIPE_RIS ->
  server.FileUpload key r req
  = ((None, Some ("not Implemented storing: " +:+ pb.Filename req)), r).
Proof.
  intros Hc Hf Hs Hp.
  rewrite FileUpload_dispatch; [rewrite Hp; reflexivity | | exact Hs].
  apply unmet_false; [assumption | rewrite Hp; discriminate | assumption].
Qed.

(** C10. When the copy into the writer succeeds, [fileStore] returns no
    error, whatever [Close] reports.  So when [Close] fails on a valid
    request for a name under which an object exists, and the update of the
    metadata succeeds, [FileUpload] answers SUCCESS although the write was
    not committed: the journal has the failed write and the object keeps
    its former content. *)
Theorem fileStore_drops_close_error (r : server.rvServer) (req : pb.FileRequest) :
  storage.write_err (storage.failing (server.sc r) (pb.Filename req)) = None ->
  fst (server.fileStore r (pb.Filename req) (pb.Content req)) = None /\
  forall e o,
    storage.close_err (storage.failing (server.sc r) (pb.Filename req)) = Some e ->
    storage.update_err (storage.failing (server.sc r) (pb.Filename req)) = None ->
    storage.objects (server.sc r) !! pb.Filename req = Some o ->
    spec.unmet req = false ->
    pb.Md5Sum req = md5hex (pb.Content req) ->
    pb.Project req = pb.FileRequest_ROUTEVIEWS \/ pb.Project req = pb.FileRequest_RPKI_RARC ->
    exists r',
      server.FileUpload key r req
      = ((Some {| pb.Status := Some pb.FileResponse_SUCCESS |}, None), r') /\
      In (storage.OpWrite (pb.Filename req) (pb.Content req) (Some (storage.ErrOther e)))
         (storage.journal (server.sc r')) /\
      storage.content <$> (storage.objects (server.sc r') !! pb.Filename req)
      = Some (storage.content o).
Proof.
  intros Hw. split.
  { rewrite fileStore_copied by exact Hw. reflexivity. }
  intros e o Hc Hu Ho Hm Hs Hp.
  rewrite FileUpload_dispatch by assumption.
  assert (forall proj,
    exists r',
      (let '((resp, err), r') :=
         server.handleDataFile key r proj {| pb.Status := None |}
           (pb.Filename req) (pb.Content req) in
       ((Some resp, err), r'))
      = ((Some {| pb.Status := Some pb.FileResponse_SUCCESS |}, None), r') /\
      In (storage.OpWrite (pb.Filename req) (pb.Content req) (Some (storage.ErrOther e)))
         (storage.journal (server.sc r')) /\
      storage.content <$> (storage.objects (server.sc r') !! pb.Filename req)
      = Some (storage.content o)) as Hh.
  { intros proj. unfold server.handleDataFile.
    rewrite fileStore_copied by exact Hw.
    unfold server.setProjectMeta, storage.Update, storage.Close. simpl.
    rewrite Hc, Hu. simpl. rewrite Ho. simpl.
    eexists. split; [reflexivity|]. simpl. split.
    - apply in_or_app. left. apply in_or_app. right. left. reflexivity.
    - rewrite lookup_insert_eq. reflexivity. }
  destruct Hp as [Hp | Hp]; rewrite Hp; apply Hh.
Qed.

End ServerProperties.

(** ** The reconciliation engine *)

Section ClientProperties.
Import mass_upload spec.

Variable key : string.

(** *** The log and the journal only grow *)

Lemma extends_refl c : extends c c.
Proof.
  unfold extends. repeat split; try reflexivity;
    exists []; rewrite app_nil_r; reflexivity.
Qed.

Lemma extends_trans c1 c2 c3 : extends c1 c2 -> extends c2 c3 -> extends c1 c3.
Proof.
  unfold extends.
  intros (A1 & A2 & A3 & A4 & [e1 A5] & [o1 A6]) (B1 & B2 & B3 & B4 & [e2 B5] & [o2 B6]).
  repeat split; try congruence.
  - exists (e1 ++ e2)%list. rewrite B5, A5, app_assoc. reflexivity.
  - exists (o1 ++ o2)%list. rewrite B6, A6, app_assoc. reflexivity.
Qed.

Lemma extends_add_event c e : extends c (add_event c e).
Proof.
  unfold extends. simpl. repeat split; try reflexivity.
  - exists [e]. reflexivity.
  - exists []. rewrite app_nil_r. reflexivity.
Qed.

Lemma extends_incr c k : extends c (incr c k).
Proof.
  unfold extends. simpl. repeat split; try reflexivity;
    exists []; rewrite app_nil_r; reflexivity.
Qed.

Lemma extends_set_store c st ops :
  storage.failing st = storage.failing (store c) ->
  storage.journal st = (storage.journal (store c) ++ ops)%list ->
  extends c (set_store c st).
Proof.
  intros Hf Hj. unfold extends. simpl. repeat split; try assumption; try reflexivity.
  - exists []. rewrite app_nil_r. reflexivity.
  - exists ops. exact Hj.
Qed.

(** *** The destination checksum *)

Lemma Attrs_frame st fn :
  exists res,
    snd (storage.Attrs st fn) = storage.record st (storage.OpAttrs fn res).
Proof. unfold storage.Attrs. eexists. reflexivity. Qed.

Lemma getMD5cloud_present c fn o :
  storage.attrs_err (storage.failing (store c) fn) = None ->
  storage.objects (store c) !! fn = Some o ->
  getMD5cloud c fn
  = ((md5hex (storage.content o), None),
     set_store c (storage.record (store c) (storage.OpAttrs fn None))).
Proof.
  intros Hf Ho. unfold getMD5cloud, storage.Attrs. rewrite Hf. simpl. rewrite Ho.
  reflexivity.
Qed.

Lemma getMD5cloud_absent c fn :
  storage.attrs_err (storage.failing (store c) fn) = None ->
  storage.objects (store c) !! fn = None ->
  getMD5cloud c fn
  = (("", Some ("failed to get attrs for obj: storage: object doesn't exist")),
     set_store c (storage.record (store c)
                    (storage.OpAttrs fn (Some storage.ErrObjectNotExist)))).
Proof.
  intros Hf Ho. unfold getMD5cloud, storage.Attrs. rewrite Hf. simpl. rewrite Ho.
  reflexivity.
Qed.

Lemma getMD5cloud_fault c fn msg :
  storage.attrs_err (storage.failing (store c) fn) = Some msg ->
  getMD5cloud c fn
  = (("", Some ("failed to get attrs for obj: " +:+ msg)),
     set_store c (storage.record (store c)
                    (storage.OpAttrs fn (Some (storage.ErrOther msg))))).
Proof.
  intros Hf. unfold getMD5cloud, storage.Attrs. rewrite Hf. reflexivity.
Qed.

Lemma destination_sum_present c fn o :
  storage.attrs_err (storage.failing (store c) fn) = None ->
  storage.objects (store c) !! fn = Some o ->
  destination_sum c fn
  = (inl (md5hex (storage.content o)),
     set_store c (storage.record (store c) (storage.OpAttrs fn None))).
Proof.
  intros Hf Ho. unfold destination_sum. rewrite (getMD5cloud_present c fn o Hf Ho).
  reflexivity.
Qed.

(** The message of the wrapped sentinel contains the text the loop looks
    for: an absent object gives the empty checksum. *)
Lemma destination_sum_absent c fn :
  storage.attrs_err (storage.failing (store c) fn) = None ->
  storage.objects (store c) !! fn = None ->
  destination_sum c fn
  = (inl "",
     set_store c (storage.record (store c)
                    (storage.OpAttrs fn (Some storage.ErrObjectNotExist)))).
Proof.
  intros Hf Ho. unfold destination_sum. rewrite (getMD5cloud_absent c fn Hf Ho).
  reflexivity.
Qed.

Lemma destination_sum_fault c fn msg :
  storage.attrs_err (storage.failing (store c) fn) = Some msg ->
  exists r,
    destination_sum c fn
    = (r, set_store c (storage.record (store c)
                         (storage.OpAttrs fn (Some (storage.ErrOther msg))))).
Proof.
  intros Hf. unfold destination_sum. rewrite (getMD5cloud_fault c fn msg Hf).
  eexists. reflexivity.
Qed.

(** The query leaves everything but the journal as it was. *)
Lemma destination_sum_frame c fn :
  exists res,
    snd (destination_sum c fn)
    = set_store c (storage.record (store c) (storage.OpAttrs fn res)).
Proof.
  destruct (storage.attrs_err (storage.failing (store c) fn)) as [msg|] eqn:Hf.
  - destruct (destination_sum_fault c fn msg Hf) as [r ->]. eexists. reflexivity.
  - destruct (storage.objects (store c) !! fn) as [o|] eqn:Ho.
    + rewrite (destination_sum_present c fn o Hf Ho). eexists. reflexivity.
    + rewrite (destination_sum_absent c fn Hf Ho). eexists. reflexivity.
Qed.

(** *** The body of the loop is made of its two halves *)

Lemma readChannel_body_eq c errs ef :
  readChannel_body key c errs ef
  = match destination_sum c (strings.TrimLeft (name ef) "/") with
    | (inr msg, c') => (Stop (Fatal msg), c', errs)
    | (inl csSum, c') => reconcile key c' errs ef csSum
    end.
Proof.
  unfold readChannel_body, destination_sum. cbv zeta.
  destruct (getMD5cloud c (strings.TrimLeft (name ef) "/")) as [[csSum [e|]] c'].
  - destruct (strings.Contains e "object doesn't exist"); reflexivity.
  - reflexivity.
Qed.


(** *** The retrieval *)

Lemma getMD5ftp_failed c p e :
  ftp.Retr (fc c) p = inr e ->
  getMD5ftp c p = ("", [], Some ("failed to RETR the path: " +:+ e)).
Proof. intros H. unfold getMD5ftp. rewrite H. reflexivity. Qed.

(** The error that ended the reading, [rerr], has no part in the result. *)
Lemma getMD5ftp_opened c p buf rerr :
  ftp.Retr (fc c) p = inl (buf, rerr) ->
  getMD5ftp c p = (md5hex buf, buf, None).
Proof. intros H. unfold getMD5ftp. rewrite H. reflexivity. Qed.

Lemma reconcile_failed c errs ef csSum e :
  ftp.Retr (fc c) (name ef) = inr e ->
  reconcile key c errs ef csSum
  = let c' := add_event c (Retrieved (name ef)
                             (Some ("failed to RETR the path: " +:+ e))) in
    if errs <? maxFTPErrs then (Continue, c', int_wrap (errs + 1))
    else (Stop (Fatal ("failed to get ftp md5 for file(" +:+ name ef +:+ "): "
                       +:+ ("failed to RETR the path: " +:+ e))), c', errs).
Proof.
  intros H. unfold reconcile. rewrite (getMD5ftp_failed c (name ef) e H). reflexivity.
Qed.

Lemma reconcile_same c errs ef buf rerr :
  ftp.Retr (fc c) (name ef) = inl (buf, rerr) ->
  reconcile key c errs ef (md5hex buf)
  = (Continue,
     add_event (incr (add_event c (Retrieved (name ef) None)) "skip")
               (Skipped (name ef)),
     errs).
Proof.
  intros H. unfold reconcile. rewrite (getMD5ftp_opened c (name ef) buf rerr H).
  cbv zeta. rewrite String.eqb_refl. reflexivity.
Qed.

Lemma reconcile_differ c errs ef buf rerr csSum :
  ftp.Retr (fc c) (name ef) = inl (buf, rerr) ->
  csSum <> md5hex buf ->
  reconcile key c errs ef csSum
  = let req := {| pb.Filename := name ef; pb.Content := buf;
                  pb.Md5Sum := md5hex buf; pb.Project := pb.FileRequest_ROUTEVIEWS |} in
    let '((resp, err), c2) :=
      gClient_FileUpload key (add_event c (Retrieved (name ef) None)) req in
    let c3 := add_event c2 (Uploaded req err) in
    match err with
    | Some _ => (Stop UploadFailed, incr c3 "error", errs)
    | None => (Continue, incr c3 "sync", errs)
    end.
Proof.
  intros H Hne. unfold reconcile. rewrite (getMD5ftp_opened c (name ef) buf rerr H).
  cbv zeta. rewrite string_eqb_false by exact Hne. reflexivity.
Qed.

(** *** The upload *)

Lemma set_store_same c : set_store c (store c) = c.
Proof. destruct c. reflexivity. Qed.

(** What an upload of the client's request does: it fails, and then the
    objects are as they were; or it succeeds, the journal has the write and
    the update, and the object holds the content unless the write was not
    committed. *)
Lemma gClient_FileUpload_spec c fn buf :
  let req := {| pb.Filename := fn; pb.Content := buf; pb.Md5Sum := md5hex buf;
                pb.Project := pb.FileRequest_ROUTEVIEWS |} in
  exists resp err c',
    gClient_FileUpload key c req = ((resp, err), c') /\
    extends c c' /\ log c' = log c /\ metrics c' = metrics c /\
    (err = None ->
     exists wres md,
       storage.journal (store c')
       = (storage.journal (store c)
          ++ [storage.OpWrite fn buf wres; storage.OpUpdate fn md None])%list /\
       (forall n, n <> fn ->
                  storage.objects (store c') !! n = storage.objects (store c) !! n) /\
       (wres = None ->
        exists o, storage.objects (store c') !! fn = Some o /\ storage.content o = buf)).
Proof.
  intros req. unfold gClient_FileUpload.
  destruct (transport_err c req) as [e|] eqn:Ht.
  { eexists _, _, _. split; [reflexivity|]. repeat split; try apply extends_refl.
    discriminate. }
  destruct (unmet req) eqn:Hu.
  { rewrite (FileUpload_unmet key _ req Hu). simpl. rewrite set_store_same.
    eexists _, _, _. split; [reflexivity|]. repeat split; try apply extends_refl.
    discriminate. }
  rewrite (FileUpload_dispatch key _ req Hu eq_refl).
  change (pb.Project req) with pb.FileRequest_ROUTEVIEWS. cbv iota.
  change (pb.Filename req) with fn. change (pb.Content req) with buf.
  unfold server.handleDataFile, server.fileStore, storage.Copy, storage.NewWriter.
  cbn [storage.wname storage.wbuf storage.werr server.sc server.bucket].
  destruct (storage.write_err (storage.failing (store c) fn)) as [w|] eqn:Hw.
  { cbn. eexists _, _, _. split; [reflexivity|].
    split; [|repeat split; discriminate].
    eapply extends_set_store; cbn; reflexivity. }
  unfold storage.fault at 1. cbv iota. 
  unfold server.setProjectMeta, storage.Update, storage.Close.
  cbn [storage.wname storage.wbuf storage.werr server.sc server.bucket
       storage.objects storage.failing storage.journal app].
  destruct (storage.close_err (storage.failing (store c) fn)) as [ce|] eqn:Hc;
    destruct (storage.update_err (storage.failing (store c) fn)) as [ue|] eqn:Hup;
    cbn [storage.fault].
  - cbn. eexists _, _, _. split; [reflexivity|].
    split; [|repeat split; discriminate].
    eapply extends_set_store; cbn; [reflexivity|]. rewrite <- app_assoc. reflexivity.
  - destruct (storage.objects (store c) !! fn) as [o|] eqn:Ho.
    + cbn. eexists _, _, _. split; [reflexivity|].
      split; [eapply extends_set_store; cbn; [reflexivity|]; rewrite <- app_assoc; reflexivity|].
      repeat split. intros _. eexists _, _. cbn. split; [rewrite <- app_assoc; reflexivity|].
      split; [|discriminate].
      intros n Hn. rewrite lookup_insert_ne by congruence. reflexivity.
    + cbn. eexists _, _, _. split; [reflexivity|].
      split; [|repeat split; discriminate].
      eapply extends_set_store; cbn; [reflexivity|]. rewrite <- app_assoc. reflexivity.
  - cbn. eexists _, _, _. split; [reflexivity|].
    split; [|repeat split; discriminate].
    eapply extends_set_store; cbn; [reflexivity|]. rewrite <- app_assoc. reflexivity.
  - rewrite lookup_insert_eq. cbn. eexists _, _, _. split; [reflexivity|].
    split; [eapply extends_set_store; cbn; [reflexivity|]; rewrite <- app_assoc; reflexivity|].
    repeat split. intros _. eexists _, _. cbn. split; [rewrite <- app_assoc; reflexivity|].
    split.
    + intros n Hn. rewrite !lookup_insert_ne by congruence. reflexivity.
    + intros _. rewrite lookup_insert_eq. eexists. split; reflexivity.
Qed.



(** *** Every iteration of the loop extends the run *)

Lemma extends_record c o : extends c (set_store c (storage.record (store c) o)).
Proof. apply (extends_set_store c _ [o]); reflexivity. Qed.

Lemma destination_sum_extends c fn : extends c (snd (destination_sum c fn)).
Proof. destruct (destination_sum_frame c fn) as [res ->]. apply extends_record. Qed.

Lemma reconcile_extends c errs ef csSum :
  extends c (snd (fst (reconcile key c errs ef csSum))).
Proof.
  destruct (ftp.Retr (fc c) (name ef)) as [[buf rerr]|e] eqn:Hr.
  - destruct (string_dec csSum (md5hex buf)) as [->|Hne].
    + rewrite (reconcile_same c errs ef buf rerr Hr). cbn [fst snd].
      eapply extends_trans; [apply extends_add_event|].
      eapply extends_trans; [apply extends_incr|]. apply extends_add_event.
    + rewrite (reconcile_differ c errs ef buf rerr csSum Hr Hne). cbv zeta.
      destruct (gClient_FileUpload_spec (add_event c (Retrieved (name ef) None))
                  (name ef) buf) as (resp & err & c2 & -> & Hx & _).
      assert (extends c (add_event c2 (Uploaded
                 {| pb.Filename := name ef; pb.Content := buf;
                    pb.Md5Sum := md5hex buf;
                    pb.Project := pb.FileRequest_ROUTEVIEWS |} err))) as Hy.
      { eapply extends_trans; [apply extends_add_event|].
        eapply extends_trans; [exact Hx|]. apply extends_add_event. }
      destruct err; cbn [fst snd];
        (eapply extends_trans; [exact Hy | apply extends_incr]).
  - rewrite (reconcile_failed c errs ef csSum e Hr). cbv zeta.
    destruct (errs <? maxFTPErrs); cbn [fst snd]; apply extends_add_event.
Qed.

Lemma readChannel_body_extends c errs ef :
  extends c (snd (fst (readChannel_body key c errs ef))).
Proof.
  rewrite readChannel_body_eq.
  pose proof (destination_sum_extends c (strings.TrimLeft (name ef) "/")) as H.
  destruct (destination_sum c (strings.TrimLeft (name ef) "/")) as [[cs|msg] c1].
  - eapply extends_trans; [exact H|]. apply reconcile_extends.
  - exact H.
Qed.

Lemma iterate_extends ds : forall c errs, extends c (snd (fst (iterate key c errs ds))).
Proof.
  induction ds as [|ef ds IH]; intros c errs; [apply extends_refl|].
  cbn [iterate].
  pose proof (readChannel_body_extends c errs ef) as H.
  destruct (readChannel_body key c errs ef) as [[[|e] c'] errs']; [|exact H].
  eapply extends_trans; [exact H | apply IH].
Qed.

(** The loop over a sequence is the loop over its end, from the state the
    loop is in after its beginning. *)
Lemma readChannel_loop_app pre : forall c errs rest closed,
  readChannel_loop key c errs (pre ++ rest) closed
  = match iterate key c errs pre with
    | (Continue, c', errs') => readChannel_loop key c' errs' rest closed
    | (Stop e, c', errs') => (e, c', errs')
    end.
Proof.
  induction pre as [|ef pre IH]; intros c errs rest closed; [reflexivity|].
  cbn [app readChannel_loop iterate].
  destruct (readChannel_body key c errs ef) as [[[|e] c'] errs']; [apply IH|reflexivity].
Qed.

(** *** The destination-absent path *)

(** C7. When the destination has no object for a descriptor and the query
    says so, the iteration records no skip, neither in the log nor in the
    counter, and whenever the retrieval returns without error it sends an
    upload request for that file, with the content and the checksum the
    retrieval returned. *)
Theorem destination_absent_transfers (c : client) (errs : Z) (ef : evalFile) :
  storage.attrs_err (storage.failing (store c) (strings.TrimLeft (name ef) "/")) = None ->
  storage.objects (store c) !! strings.TrimLeft (name ef) "/" = None ->
  exists ctl c' errs' evs,
    readChannel_body key c errs ef = (ctl, c', errs') /\
    log c' = (log c ++ evs)%list /\
    (forall e, In e evs -> is_skip e = false) /\
    metrics c' !! "skip" = metrics c !! "skip" /\
    (forall fSum buf,
       getMD5ftp c (name ef) = (fSum, buf, None) ->
       exists err,
         In (Uploaded {| pb.Filename := name ef; pb.Content := buf; pb.Md5Sum := fSum;
                         pb.Project := pb.FileRequest_ROUTEVIEWS |} err) evs).
Proof.
  intros Hf Ho. rewrite readChannel_body_eq, (destination_sum_absent c _ Hf Ho).
  set (c1 := set_store c _).
  destruct (ftp.Retr (fc c) (name ef)) as [[buf rerr]|e] eqn:Hr.
  - assert (ftp.Retr (fc c1) (name ef) = inl (buf, rerr)) as Hr1 by exact Hr.
    rewrite (reconcile_differ c1 errs ef buf rerr "" Hr1)
      by (intros H; symmetry in H; exact (md5hex_nonempty _ H)).
    cbv zeta.
    destruct (gClient_FileUpload_spec (add_event c1 (Retrieved (name ef) None))
                (name ef) buf) as (resp & err & c2 & -> & _ & Hl & Hm & _).
    exists (match err with Some _ => Stop UploadFailed | None => Continue end),
      (incr (add_event c2 (Uploaded
         {| pb.Filename := name ef; pb.Content := buf; pb.Md5Sum := md5hex buf;
            pb.Project := pb.FileRequest_ROUTEVIEWS |} err))
         (match err with Some _ => "error" | None => "sync" end)),
      errs,
      [Retrieved (name ef) None;
       Uploaded {| pb.Filename := name ef; pb.Content := buf; pb.Md5Sum := md5hex buf;
                   pb.Project := pb.FileRequest_ROUTEVIEWS |} err].
    split; [destruct err; reflexivity|].
    split; [cbn; rewrite Hl; cbn; rewrite <- app_assoc; reflexivity|].
    split; [intros e [<-|[<-|[]]]; reflexivity|].
    split.
    + cbn. rewrite Hm. cbn. destruct err; rewrite lookup_insert_ne by discriminate;
        reflexivity.
    + intros fSum buf' Hg. rewrite (getMD5ftp_opened c (name ef) buf rerr Hr) in Hg.
      injection Hg as <- <-. exists err. right. left. reflexivity.
  - assert (ftp.Retr (fc c1) (name ef) = inr e) as Hr1 by exact Hr.
    rewrite (reconcile_failed c1 errs ef "" e Hr1). cbv zeta.
    exists (if errs <? maxFTPErrs then Continue
            else Stop (Fatal ("failed to get ftp md5 for file(" +:+ name ef +:+ "): "
                              +:+ ("failed to RETR the path: " +:+ e)))),
      (add_event c1 (Retrieved (name ef) (Some ("failed to RETR the path: " +:+ e)))),
      (if errs <? maxFTPErrs then int_wrap (errs + 1) else errs),
      [Retrieved (name ef) (Some ("failed to RETR the path: " +:+ e))].
    split; [destruct (errs <? maxFTPErrs); reflexivity|].
    split; [reflexivity|].
    split; [intros e' [<-|[]]; reflexivity|].
    split; [reflexivity|].
    intros fSum buf Hg. rewrite (getMD5ftp_failed c (name ef) e Hr) in Hg. discriminate.
Qed.

(** *** The error budget *)

Lemma reported_failures_app l1 l2 :
  reported_failures (l1 ++ l2) = reported_failures l1 + reported_failures l2.
Proof.
  induction l1 as [|[p [e|]|n|r e] l1 IH]; cbn [app reported_failures];
    rewrite ?IH; lia.
Qed.

Lemma int_wrap_small x : - 2 ^ 63 <= x < 2 ^ 63 -> int_wrap x = x.
Proof. intros H. unfold int_wrap. rewrite Z.mod_small; lia. Qed.

Lemma iterate_app pre : forall c errs rest,
  iterate key c errs (pre ++ rest)
  = match iterate key c errs pre with
    | (Continue, c', errs') => iterate key c' errs' rest
    | stopped => stopped
    end.
Proof.
  induction pre as [|ef pre IH]; intros c errs rest.
  - cbn [app iterate]. reflexivity.
  - cbn [app iterate].
    destruct (readChannel_body key c errs ef) as [[[|e] c'] errs']; [apply IH|reflexivity].
Qed.

(** While the loop goes on, [errs] grows by the failures that [getMD5ftp]
    reports, and stays within the budget. *)
Lemma reconcile_counts c errs ef csSum c' errs' :
  reconcile key c errs ef csSum = (Continue, c', errs') ->
  0 <= errs <= maxFTPErrs ->
  errs' - errs = reported_failures (log c') - reported_failures (log c) /\
  0 <= errs' <= maxFTPErrs.
Proof.
  intros H Hb. unfold maxFTPErrs in *.
  destruct (ftp.Retr (fc c) (name ef)) as [[buf rerr]|e] eqn:Hr.
  - destruct (string_dec csSum (md5hex buf)) as [->|Hne].
    + rewrite (reconcile_same c errs ef buf rerr Hr) in H. injection H as <- <-.
      cbn [log add_event incr]. rewrite !reported_failures_app. cbn. lia.
    + rewrite (reconcile_differ c errs ef buf rerr csSum Hr Hne) in H. cbv zeta in H.
      destruct (gClient_FileUpload_spec (add_event c (Retrieved (name ef) None))
                  (name ef) buf) as (resp & err & c2 & Hg & _ & Hl & _).
      rewrite Hg in H. destruct err; [discriminate|]. injection H as <- <-.
      cbn [log add_event incr]. rewrite Hl. cbn [log add_event].
      rewrite !reported_failures_app. cbn. lia.
  - rewrite (reconcile_failed c errs ef csSum e Hr) in H. cbv zeta in H.
    unfold maxFTPErrs in H.
    destruct (errs <? 50) eqn:Hlt; [|discriminate].
    apply Z.ltb_lt in Hlt. injection H as <- <-.
    rewrite int_wrap_small by lia.
    cbn [log add_event]. rewrite reported_failures_app. cbn. lia.
Qed.

Lemma readChannel_body_counts c errs ef c' errs' :
  readChannel_body key c errs ef = (Continue, c', errs') ->
  0 <= errs <= maxFTPErrs ->
  errs' - errs = reported_failures (log c') - reported_failures (log c) /\
  0 <= errs' <= maxFTPErrs.
Proof.
  rewrite readChannel_body_eq. intros H Hb.
  destruct (destination_sum_frame c (strings.TrimLeft (name ef) "/")) as [res Hf].
  destruct (destination_sum c (strings.TrimLeft (name ef) "/")) as [[cs|msg] c1];
    [|discriminate].
  cbn [snd] in Hf. subst c1.
  apply (reconcile_counts _ _ _ _ _ _ H Hb).
Qed.

Lemma iterate_counts pre : forall c errs c' errs',
  iterate key c errs pre = (Continue, c', errs') ->
  0 <= errs <= maxFTPErrs ->
  errs' - errs = reported_failures (log c') - reported_failures (log c) /\
  0 <= errs' <= maxFTPErrs.
Proof.
  induction pre as [|ef pre IH]; intros c errs c' errs' H Hb.
  - cbn [iterate] in H. injection H as <- <-. lia.
  - cbn [iterate] in H.
    destruct (readChannel_body key c errs ef) as [[[|e] c1] errs1] eqn:Hbody;
      [|discriminate].
    destruct (readChannel_body_counts _ _ _ _ _ Hbody Hb) as [H1 Hb1].
    destruct (IH _ _ _ _ H Hb1) as [H2 Hb2]. lia.
Qed.

(** The iteration on a descriptor whose retrieval fails, when the query of
    the destination is not the one that fails. *)
Lemma readChannel_body_failed c errs ef e :
  storage.attrs_err (storage.failing (store c) (strings.TrimLeft (name ef) "/")) = None ->
  ftp.Retr (fc c) (name ef) = inr e ->
  exists c',
    log c' = (log c ++ [Retrieved (name ef) (Some ("failed to RETR the path: " +:+ e))])%list /\
    (exists res,
       storage.journal (store c')
       = (storage.journal (store c)
          ++ [storage.OpAttrs (strings.TrimLeft (name ef) "/") res])%list) /\
    readChannel_body key c errs ef
    = if errs <? maxFTPErrs then (Continue, c', int_wrap (errs + 1))
      else (Stop (Fatal ("failed to get ftp md5 for file(" +:+ name ef +:+ "): "
                         +:+ ("failed to RETR the path: " +:+ e))), c', errs).
Proof.
  intros Hf Hr. rewrite readChannel_body_eq.
  assert (exists cs res,
            destination_sum c (strings.TrimLeft (name ef) "/")
            = (inl cs, set_store c (storage.record (store c)
                 (storage.OpAttrs (strings.TrimLeft (name ef) "/") res)))) as (cs & res & ->).
  { destruct (storage.objects (store c) !! strings.TrimLeft (name ef) "/") as [o|] eqn:Ho.
    - eexists _, _. apply (destination_sum_present c _ o Hf Ho).
    - eexists _, _. apply (destination_sum_absent c _ Hf Ho). }
  set (c1 := set_store c _).
  assert (ftp.Retr (fc c1) (name ef) = inr e) as Hr1 by exact Hr.
  rewrite (reconcile_failed c1 errs ef cs e Hr1). cbv zeta.
  eexists. split; [|split; [|reflexivity]].
  - reflexivity.
  - exists res. reflexivity.
Qed.

(** The budget on the failures that [getMD5ftp] reports, those of the
    command [RETR].  In a run that has reached a descriptor whose [RETR]
    fails: if exactly [maxFTPErrs] failures were reported before, the
    process ends there, and nothing is done for the descriptors that
    follow; if [maxFTPErrs - 1] were, the failure is logged and the loop
    goes on with the next descriptor.  A retrieval whose stream breaks is
    not reported, and this says nothing of it. *)
Theorem budget_enforcement (c : client) (pre : list evalFile) (ef : evalFile)
    (rest : list evalFile) (closed : bool) (c1 : client) (errs1 : Z) (e : error) :
  log c = [] ->
  iterate key c 0 pre = (Continue, c1, errs1) ->
  storage.attrs_err (storage.failing (store c) (strings.TrimLeft (name ef) "/")) = None ->
  ftp.Retr (fc c) (name ef) = inr e ->
  (reported_failures (log c1) = maxFTPErrs ->
   exists msg c2,
     readChannel key c {| sends := pre ++ ef :: rest; closes := closed |}
     = (Fatal msg, c2, maxFTPErrs) /\
     log c2 = (log c1 ++ [Retrieved (name ef)
                            (Some ("failed to RETR the path: " +:+ e))])%list /\
     exists res,
       storage.journal (store c2)
       = (storage.journal (store c1)
          ++ [storage.OpAttrs (strings.TrimLeft (name ef) "/") res])%list)
  /\
  (reported_failures (log c1) = maxFTPErrs - 1 ->
   exists c2,
     log c2 = (log c1 ++ [Retrieved (name ef)
                            (Some ("failed to RETR the path: " +:+ e))])%list /\
     iterate key c 0 (pre ++ [ef]) = (Continue, c2, maxFTPErrs) /\
     readChannel key c {| sends := pre ++ ef :: rest; closes := closed |}
     = readChannel_loop key c2 maxFTPErrs rest closed).
Proof.
  intros Hlog Hpre Hf Hr.
  assert (0 <= 0 <= maxFTPErrs) as Hb0 by (unfold maxFTPErrs; lia).
  destruct (iterate_counts _ _ _ _ _ Hpre Hb0) as [Hcount _].
  rewrite Hlog in Hcount. cbn [reported_failures] in Hcount.
  pose proof (iterate_extends pre c 0) as Hx. rewrite Hpre in Hx. cbn [fst snd] in Hx.
  destruct Hx as (Hfc & Hfail & _).
  rewrite <- Hfail in Hf. rewrite <- Hfc in Hr.
  destruct (readChannel_body_failed c1 errs1 ef e Hf Hr) as (c2 & Hl2 & Hj2 & Hbody).
  unfold readChannel. cbn [sends closes].
  rewrite readChannel_loop_app, Hpre. cbn [readChannel_loop]. rewrite Hbody.
  split; intros Hn.
  - assert (errs1 = maxFTPErrs) as -> by lia.
    unfold maxFTPErrs at 1. cbn [Z.ltb Z.compare Pos.compare Pos.compare_cont].
    rewrite Z.ltb_irrefl.
    eexists _, c2. split; [reflexivity|]. split; [exact Hl2|exact Hj2].
  - assert (errs1 = maxFTPErrs - 1) as -> by lia.
    exists c2. split; [exact Hl2|].
    rewrite iterate_app, Hpre. cbn [iterate]. rewrite Hbody.
    replace (maxFTPErrs - 1 <? maxFTPErrs) with true
      by (unfold maxFTPErrs; reflexivity).
    replace (int_wrap (maxFTPErrs - 1 + 1)) with maxFTPErrs
      by (unfold maxFTPErrs; reflexivity).
    split; reflexivity.
Qed.

(** *** Idempotence *)

Lemma events_of_run_app c c' evs :
  log c' = (log c ++ evs)%list -> events_of_run c c' = evs.
Proof. intros H. unfold events_of_run. rewrite H. apply drop_app_length. Qed.

Lemma ops_of_run_app c c' ops :
  storage.journal (store c') = (storage.journal (store c) ++ ops)%list ->
  ops_of_run c c' = ops.
Proof. intros H. unfold ops_of_run. rewrite H. apply drop_app_length. Qed.

Lemma events_of_run_trans c1 c2 c3 :
  extends c1 c2 -> extends c2 c3 ->
  events_of_run c1 c3 = (events_of_run c1 c2 ++ events_of_run c2 c3)%list.
Proof.
  intros (_ & _ & _ & _ & [e1 A] & _) (_ & _ & _ & _ & [e2 B] & _).
  rewrite (events_of_run_app c1 c2 e1 A), (events_of_run_app c2 c3 e2 B).
  apply events_of_run_app. rewrite B, A, app_assoc. reflexivity.
Qed.

Lemma ops_of_run_trans c1 c2 c3 :
  extends c1 c2 -> extends c2 c3 ->
  ops_of_run c1 c3 = (ops_of_run c1 c2 ++ ops_of_run c2 c3)%list.
Proof.
  intros (_ & _ & _ & _ & _ & [o1 A]) (_ & _ & _ & _ & _ & [o2 B]).
  rewrite (ops_of_run_app c1 c2 o1 A), (ops_of_run_app c2 c3 o2 B).
  apply ops_of_run_app. rewrite B, A, app_assoc. reflexivity.
Qed.

(** [settled] looks at the objects, the failures of the store and the
    archive only. *)
Lemma settled_same c c' ef :
  storage.objects (store c') = storage.objects (store c) ->
  storage.failing (store c') = storage.failing (store c) ->
  fc c' = fc c ->
  settled c ef -> settled c' ef.
Proof.
  intros Ho Hf Hc (Ha & o & buf & rerr & H1 & H2 & H3).
  unfold settled. rewrite Ho, Hf, Hc. split; [exact Ha|]. eauto 10.
Qed.

(** A settled descriptor is skipped, and nothing but the log, the journal
    and the counter of skips changes. *)
Lemma readChannel_body_settled c errs ef :
  normalized ef -> settled c ef ->
  readChannel_body key c errs ef
  = (Continue,
     add_event
       (incr (add_event
                (set_store c (storage.record (store c) (storage.OpAttrs (name ef) None)))
                (Retrieved (name ef) None))
             "skip")
       (Skipped (name ef)),
     errs).
Proof.
  intros Hn (Ha & o & buf & rerr & Ho & Hr & Hm).
  rewrite readChannel_body_eq. unfold normalized in Hn. rewrite Hn.
  rewrite (destination_sum_present c _ o Ha Ho), Hm.
  apply (reconcile_same _ errs ef buf rerr). exact Hr.
Qed.

(** A transfer that the loop survives, and whose store operations did what
    was asked, settles its descriptor and leaves the others settled. *)
Lemma transfer_settles c errs ef buf rerr csSum c' errs' :
  ftp.Retr (fc c) (name ef) = inl (buf, rerr) ->
  csSum <> md5hex buf ->
  storage.attrs_err (storage.failing (store c) (name ef)) = None ->
  reconcile key c errs ef csSum = (Continue, c', errs') ->
  Forall op_ok (ops_of_run c c') ->
  settled c' ef /\ (forall ef0, settled c ef0 -> settled c' ef0).
Proof.
  intros Hr Hne Ha H Hok.
  pose proof (reconcile_extends c errs ef csSum) as Hx. rewrite H in Hx.
  cbn [fst snd] in Hx. destruct Hx as (Hfc & Hfail & _).
  rewrite (reconcile_differ c errs ef buf rerr csSum Hr Hne) in H. cbv zeta in H.
  destruct (gClient_FileUpload_spec (add_event c (Retrieved (name ef) None))
              (name ef) buf) as (resp & err & c2 & Hg & _ & _ & _ & Hs).
  rewrite Hg in H. destruct err; [discriminate|]. injection H as <- <-.
  destruct (Hs eq_refl) as (wres & md & Hj & Hother & Hcommitted).
  unfold ops_of_run in Hok. cbn [store fc add_event incr] in *.
  rewrite Hj, drop_app_length in Hok.
  assert (wres = None) as Hw.
  { apply Forall_cons in Hok as [Hok _]. destruct wres; [destruct Hok|reflexivity]. }
  destruct (Hcommitted Hw) as (o' & Ho' & Hc').
  assert (forall ef0, name ef0 = name ef ->
            ftp.Retr (fc c) (name ef0) = inl (buf, rerr)) as Hsame
    by (intros ef0 ->; exact Hr).
  split.
  - unfold settled. cbn [store fc add_event incr].
    split; [rewrite Hfail; exact Ha|].
    exists o', buf, rerr.
    split; [exact Ho'|]. split; [rewrite Hfc; exact Hr|]. rewrite Hc'. reflexivity.
  - intros ef0 (Ha0 & o & buf0 & rerr0 & Ho & Hr0 & Hm0).
    unfold settled. cbn [store fc add_event incr].
    split; [rewrite Hfail; exact Ha0|]. rewrite Hfc.
    destruct (string_dec (name ef0) (name ef)) as [Heq|Hneq].
    + exists o', buf, rerr. rewrite Heq.
      split; [exact Ho'|]. split; [exact Hr|]. rewrite Hc'. reflexivity.
    + exists o, buf0, rerr0.
      split; [rewrite (Hother _ Hneq); exact Ho|]. split; [exact Hr0|exact Hm0].
Qed.

(** An iteration of a run without failure settles its descriptor. *)
Lemma readChannel_body_settles c errs ef c' errs' :
  normalized ef ->
  readChannel_body key c errs ef = (Continue, c', errs') ->
  Forall event_ok (events_of_run c c') ->
  Forall op_ok (ops_of_run c c') ->
  settled c' ef /\ (forall ef0, settled c ef0 -> settled c' ef0).
Proof.
  intros Hn H Hev Hop.
  pose proof (readChannel_body_extends c errs ef) as Hx. rewrite H in Hx.
  cbn [fst snd] in Hx.
  rewrite readChannel_body_eq in H. unfold normalized in Hn. rewrite Hn in H.
  pose proof (destination_sum_extends c (name ef)) as Hx1.
  pose proof (reconcile_extends (snd (destination_sum c (name ef))) errs ef) as Hx2.
  destruct (storage.attrs_err (storage.failing (store c) (name ef))) as [msg|] eqn:Ha.
  { (* the query of the attributes failed *)
    exfalso.
    destruct (destination_sum_fault c (name ef) msg Ha) as [r Hd].
    rewrite Hd in H, Hx1, Hx2. cbn [snd] in Hx1, Hx2.
    destruct r as [cs|m]; [|discriminate].
    specialize (Hx2 cs). rewrite H in Hx2. cbn [fst snd] in Hx2.
    rewrite (ops_of_run_trans _ _ _ Hx1 Hx2) in Hop.
    apply Forall_app in Hop as [Hop _].
    rewrite (ops_of_run_app c _ [storage.OpAttrs (name ef) (Some (storage.ErrOther msg))])
      in Hop by reflexivity.
    apply Forall_cons in Hop as [Hop _]. exact Hop. }
  assert (exists cs res,
            destination_sum c (name ef)
            = (inl cs, set_store c (storage.record (store c)
                                      (storage.OpAttrs (name ef) res))) /\
            (forall buf, cs = md5hex buf ->
               exists o, storage.objects (store c) !! name ef = Some o /\
                         md5hex (storage.content o) = md5hex buf))
    as (cs & res & Hd & Hcs).
  { destruct (storage.objects (store c) !! name ef) as [o|] eqn:Ho.
    - eexists _, _. split; [apply (destination_sum_present c _ o Ha Ho)|].
      intros buf Hb. exists o. split; [reflexivity|exact Hb].
    - eexists _, _. split; [apply (destination_sum_absent c _ Ha Ho)|].
      intros buf Hb. symmetry in Hb. destruct (md5hex_nonempty _ Hb). }
  rewrite Hd in H, Hx1, Hx2. cbn [snd] in Hx1, Hx2.
  set (c1 := set_store c _) in *.
  specialize (Hx2 cs). rewrite H in Hx2. cbn [fst snd] in Hx2.
  rewrite (ops_of_run_trans _ _ _ Hx1 Hx2) in Hop. apply Forall_app in Hop as [_ Hop].
  rewrite (events_of_run_trans _ _ _ Hx1 Hx2) in Hev. apply Forall_app in Hev as [_ Hev].
  assert (forall ef0, settled c ef0 -> settled c1 ef0) as Hc1
    by (intros ef0; apply settled_same; reflexivity).
  destruct (ftp.Retr (fc c1) (name ef)) as [[buf rerr]|e] eqn:Hr.
  - destruct (string_dec cs (md5hex buf)) as [Heq|Hne].
    + (* the checksums agree *)
      subst cs. rewrite (reconcile_same c1 errs ef buf rerr Hr) in H.
      injection H as <- <-.
      destruct (Hcs buf eq_refl) as (o & Ho & Hm).
      assert (settled c ef) as Hs.
      { split; [exact Ha|]. exists o, buf, rerr. auto. }
      split; [|intros ef0 Hs0]; apply (settled_same c); try reflexivity; assumption.
    + (* the file is transferred *)
      destruct (transfer_settles c1 errs ef buf rerr cs c' errs' Hr Hne Ha H Hop)
        as [Hs Hpres].
      split; [exact Hs|]. intros ef0 Hs0. apply Hpres, Hc1, Hs0.
  - (* the retrieval failed *)
    exfalso. rewrite (reconcile_failed c1 errs ef cs e Hr) in H. cbv zeta in H.
    destruct (errs <? maxFTPErrs); [|discriminate]. injection H as <- <-.
    rewrite (events_of_run_app c1 _
               [Retrieved (name ef) (Some ("failed to RETR the path: " +:+ e))])
      in Hev by reflexivity.
    apply Forall_cons in Hev as [Hev _]. exact Hev.
Qed.

Lemma readChannel_loop_extends ds : forall c errs closed,
  extends c (snd (fst (readChannel_loop key c errs ds closed))).
Proof.
  induction ds as [|ef ds IH]; intros c errs closed; [apply extends_refl|].
  cbn [readChannel_loop].
  pose proof (readChannel_body_extends c errs ef) as H.
  destruct (readChannel_body key c errs ef) as [[[|e] c'] errs']; [|exact H].
  eapply extends_trans; [exact H | apply IH].
Qed.

(** The loop stops early on a fatal error or a failed upload only. *)
Lemma readChannel_body_stop c errs ef e c' errs' :
  readChannel_body key c errs ef = (Stop e, c', errs') ->
  e = UploadFailed \/ exists msg, e = Fatal msg.
Proof.
  rewrite readChannel_body_eq.
  destruct (destination_sum c (strings.TrimLeft (name ef) "/")) as [[cs|msg] c1].
  - destruct (ftp.Retr (fc c1) (name ef)) as [[buf rerr]|e0] eqn:Hr.
    + destruct (string_dec cs (md5hex buf)) as [->|Hne].
      * rewrite (reconcile_same c1 errs ef buf rerr Hr). discriminate.
      * rewrite (reconcile_differ c1 errs ef buf rerr cs Hr Hne). cbv zeta.
        destruct (gClient_FileUpload key _ _) as [[resp [err|]] c2];
          intros H; [|discriminate].
        injection H as <- _ _. left. reflexivity.
    + rewrite (reconcile_failed c1 errs ef cs e0 Hr). cbv zeta.
      destruct (errs <? maxFTPErrs); intros H; [discriminate|].
      injection H as <- _ _. right. eexists. reflexivity.
  - intros H. injection H as <- _ _. right. eexists. reflexivity.
Qed.

(** A first run that ends at the closure of the channel, without a failed
    event or store operation, leaves every descriptor settled. *)
Lemma first_run_settles ds : forall c errs c1 errs1,
  Forall normalized ds ->
  readChannel_loop key c errs ds true = (ChannelClosed, c1, errs1) ->
  Forall event_ok (events_of_run c c1) ->
  Forall op_ok (ops_of_run c c1) ->
  Forall (settled c1) ds /\ (forall ef0, settled c ef0 -> settled c1 ef0).
Proof.
  induction ds as [|ef ds IH]; intros c errs c1 errs1 Hn H Hev Hop.
  - cbn [readChannel_loop] in H. injection H as <- <-. split; [constructor|auto].
  - apply Forall_cons in Hn as [Hn Hns]. cbn [readChannel_loop] in H.
    pose proof (readChannel_body_extends c errs ef) as Hx1.
    pose proof (readChannel_body_stop c errs ef) as Hstop.
    destruct (readChannel_body key c errs ef) as [[[|e] c'] errs'] eqn:Hbody.
    + cbn [fst snd] in Hx1.
      pose proof (readChannel_loop_extends ds c' errs' true) as Hx2.
      rewrite H in Hx2. cbn [fst snd] in Hx2.
      rewrite (events_of_run_trans _ _ _ Hx1 Hx2) in Hev.
      rewrite (ops_of_run_trans _ _ _ Hx1 Hx2) in Hop.
      apply Forall_app in Hev as [Hev1 Hev2]. apply Forall_app in Hop as [Hop1 Hop2].
      destruct (readChannel_body_settles c errs ef c' errs' Hn Hbody Hev1 Hop1)
        as [Hs Hpres].
      destruct (IH c' errs' c1 errs1 Hns H Hev2 Hop2) as [Hall Hpres'].
      split; [|auto]. constructor; [apply Hpres', Hs|exact Hall].
    + injection H as -> _ _.
      destruct (Hstop _ _ _ eq_refl) as [Hu|[msg Hf]]; discriminate.
Qed.

Lemma int_wrap_add a b : int_wrap (int_wrap a + b) = int_wrap (a + b).
Proof.
  unfold int_wrap. f_equal.
  replace ((a + 2 ^ 63) mod 2 ^ 64 - 2 ^ 63 + b + 2 ^ 63)
    with ((a + 2 ^ 63) mod 2 ^ 64 + b) by lia.
  rewrite Z.add_mod_idemp_l by lia. f_equal. lia.
Qed.

Lemma int_wrap_idem a : int_wrap (int_wrap a) = int_wrap a.
Proof.
  pose proof (int_wrap_add a 0) as H. rewrite !Z.add_0_r in H. exact H.
Qed.

(** A run over settled descriptors skips every one of them. *)
Lemma settled_run_skips ds : forall c errs v,
  Forall normalized ds ->
  Forall (settled c) ds ->
  metrics c !! "skip" = Some v ->
  exists c2,
    readChannel_loop key c errs ds true = (ChannelClosed, c2, errs) /\
    log c2 = (log c ++ flat_map (fun ef => [Retrieved (name ef) None; Skipped (name ef)]) ds)%list /\
    storage.objects (store c2) = storage.objects (store c) /\
    ops_of_run c c2 = map (fun ef => storage.OpAttrs (name ef) None) ds /\
    metrics c2 !! "sync" = metrics c !! "sync" /\
    metrics c2 !! "error" = metrics c !! "error" /\
    metrics c2 !! "skip"
    = Some (match ds with [] => v | _ => int_wrap (v + Z.of_nat (length ds)) end).
Proof.
  induction ds as [|ef ds IH]; intros c errs v Hn Hs Hv.
  - exists c. cbn [readChannel_loop flat_map map]. rewrite app_nil_r.
    repeat split; try assumption.
    apply ops_of_run_app. rewrite app_nil_r. reflexivity.
  - apply Forall_cons in Hn as [Hn Hns]. apply Forall_cons in Hs as [Hs Hss].
    cbn [readChannel_loop]. rewrite (readChannel_body_settled c errs ef Hn Hs).
    set (c' := add_event _ _).
    assert (Forall (settled c') ds) as Hss'.
    { eapply Forall_impl; [exact Hss|]. intros ef0. apply settled_same; reflexivity. }
    assert (metrics c' !! "skip" = Some (int_wrap (v + 1))) as Hv'.
    { subst c'. cbn [metrics add_event incr set_store]. rewrite Hv. cbn [default].
      apply lookup_insert_eq. }
    destruct (IH c' errs _ Hns Hss' Hv') as (c2 & Hrun & Hlog & Hobj & Hops & Hsy & Her & Hsk).
    exists c2. split; [exact Hrun|].
    split; [rewrite Hlog; subst c'; cbn; rewrite <- !app_assoc; reflexivity|].
    split; [rewrite Hobj; reflexivity|].
    split.
    { pose proof (readChannel_loop_extends ds c' errs true) as Hx2.
      rewrite Hrun in Hx2. cbn [fst snd] in Hx2.
      assert (extends c c') as Hx1.
      { subst c'. eapply extends_trans; [apply extends_record|].
        eapply extends_trans; [apply extends_add_event|].
        eapply extends_trans; [apply extends_incr|]. apply extends_add_event. }
      rewrite (ops_of_run_trans _ _ _ Hx1 Hx2), Hops.
      rewrite (ops_of_run_app c c' [storage.OpAttrs (name ef) None]) by reflexivity.
      reflexivity. }
    split; [rewrite Hsy; subst c'; cbn; apply lookup_insert_ne; discriminate|].
    split; [rewrite Her; subst c'; cbn; apply lookup_insert_ne; discriminate|].
    rewrite Hsk. f_equal. destruct ds as [|ef' ds'].
    + cbn [length]. f_equal.
    + rewrite int_wrap_add. f_equal. cbn [length]. lia.
Qed.

(** What holds of the idempotence.  After a run that ended at the closure
    of the channel and in which no retrieval, no upload and no operation on
    the store failed (the journal of the store shows it, the program does
    not), a second run over the same descriptors that the archive and the
    store answer as they answered the first ends at the closure of the
    channel too, with the counter of synchronisations at 0; it skips every
    file, and the objects are those the first run left. *)
Theorem reconciliation_idempotent (c : client) (ds : list evalFile)
    (c1 : client) (errs1 : Z) :
  Forall normalized ds ->
  readChannel key c {| sends := ds; closes := true |} = (ChannelClosed, c1, errs1) ->
  Forall event_ok (events_of_run c c1) ->
  Forall op_ok (ops_of_run c c1) ->
  exists c2,
    readChannel key (restart c1) {| sends := ds; closes := true |}
    = (ChannelClosed, c2, 0) /\
    metrics c2 !! "sync" = Some 0 /\
    metrics c2 !! "error" = Some 0 /\
    metrics c2 !! "skip" = Some (int_wrap (Z.of_nat (length ds))) /\
    log c2 = flat_map (fun ef => [Retrieved (name ef) None; Skipped (name ef)]) ds /\
    ops_of_run (restart c1) c2 = map (fun ef => storage.OpAttrs (name ef) None) ds /\
    storage.objects (store c2) = storage.objects (store c1).
Proof.
  intros Hn H Hev Hop. unfold readChannel in *. cbn [sends closes] in *.
  destruct (first_run_settles ds c 0 c1 errs1 Hn H Hev Hop) as [Hall _].
  assert (Forall (settled (restart c1)) ds) as Hall'.
  { eapply Forall_impl; [exact Hall|]. intros ef0. apply settled_same; reflexivity. }
  destruct (settled_run_skips ds (restart c1) 0 0 Hn Hall' eq_refl)
    as (c2 & Hrun & Hlog & Hobj & Hops & Hsy & Her & Hsk).
  exists c2. split; [exact Hrun|].
  split; [rewrite Hsy; reflexivity|]. split; [rewrite Her; reflexivity|].
  split.
  { rewrite Hsk. destruct ds; [reflexivity|]. rewrite Z.add_0_l. reflexivity. }
  split; [exact Hlog|]. split; [exact Hops|exact Hobj].
Qed.

(** *** The end of the walk and the end of the loop *)

(** On a channel that is closed after the last descriptor, the loop does
    not stay in a receive. *)
Lemma readChannel_closed_terminates ds : forall c errs,
  fst (fst (readChannel_loop key c errs ds true)) <> Blocked.
Proof.
  induction ds as [|ef ds IH]; intros c errs; [discriminate|].
  cbn [readChannel_loop].
  pose proof (readChannel_body_stop c errs ef) as Hstop.
  destruct (readChannel_body key c errs ef) as [[[|e] c'] errs']; [apply IH|].
  cbn [fst]. destruct (Hstop _ _ _ eq_refl) as [->|[msg ->]]; discriminate.
Qed.


(** [ftpWalk] closes the channel exactly when the walk ended on an
    error. *)
Lemma ftpWalk_closes fuel c dir seen ch :
  ftpWalk fuel c dir = Some (seen, ch) ->
  exists w out,
    ftpWalk_loop fuel (ftp.Walk (fc c) dir) [] [] = Some (w, seen, out) /\
    sends ch = out /\
    (closes ch = true <-> ftp.Err w <> None).
Proof.
  unfold ftpWalk.
  destruct (ftpWalk_loop fuel (ftp.Walk (fc c) dir) [] []) as [[[w s] out]|];
    [|discriminate].
  intros H. injection H as <- <-. exists w, out. split; [reflexivity|].
  split; [reflexivity|]. cbn [closes].
  destruct (ftp.Err w); split; congruence.
Qed.

(** *** What the walk sends *)

Lemma TrimLeft_idempotent s cutset :
  strings.TrimLeft (strings.TrimLeft s cutset) cutset = strings.TrimLeft s cutset.
Proof.
  induction s as [|ch s IH]; [reflexivity|].
  cbn [strings.TrimLeft]. destruct (strings.mem ch cutset) eqn:E; [exact IH|].
  cbn [strings.TrimLeft]. rewrite E. reflexivity.
Qed.

(** The loop of [ftpWalk] never steers the walker: it evaluates all the
    entries that the walker yields by [Next] alone, and sends those that are
    regular files whose name begins with [updates], whatever directory they
    are in. *)
Lemma ftpWalk_loop_sends fuel : forall w seen out w' seen' out',
  ftpWalk_loop fuel w seen out = Some (w', seen', out') ->
  seen' = (seen ++ map fst (walk_entries fuel w))%list /\
  out' = (out ++ map descriptor_of (List.filter wanted (walk_entries fuel w)))%list.
Proof.
  induction fuel as [|fuel IH]; intros w seen out w' seen' out' H; [discriminate|].
  cbn [ftpWalk_loop walk_entries] in *.
  destruct (ftp.Next w) as [[|] w1].
  - cbn [map List.filter fst]. unfold wanted at 1. cbn [snd].
    destruct (ftp.EntryType_eqb (ftp.Type' (ftp.Stat w1)) ftp.EntryTypeFolder
              && strings.HasSuffix (ftp.Path w1) "RIBS") eqn:Hribs.
    + apply andb_true_iff in Hribs as [Hfolder _].
      assert (ftp.EntryType_eqb (ftp.Type' (ftp.Stat w1)) ftp.EntryTypeFile = false) as ->
        by (destruct (ftp.Type' (ftp.Stat w1)); [discriminate Hfolder|reflexivity..]).
      cbn [andb]. destruct (IH _ _ _ _ _ _ H) as [-> ->].
      rewrite <- app_assoc. split; reflexivity.
    + destruct (ftp.EntryType_eqb (ftp.Type' (ftp.Stat w1)) ftp.EntryTypeFile
                && strings.HasPrefix (ftp.Name (ftp.Stat w1)) "updates").
      * destruct (IH _ _ _ _ _ _ H) as [-> ->]. cbn [map].
        rewrite <- !app_assoc. split; reflexivity.
      * destruct (IH _ _ _ _ _ _ H) as [-> ->].
        rewrite <- app_assoc. split; reflexivity.
  - injection H as <- <- <-. cbn [map List.filter]. rewrite !app_nil_r.
    split; reflexivity.
Qed.

(** The descriptors that [ftpWalk] sends have no leading separator. *)
Lemma ftpWalk_sends_normalized fuel c dir seen ch :
  ftpWalk fuel c dir = Some (seen, ch) -> Forall normalized (sends ch).
Proof.
  intros H. destruct (ftpWalk_closes _ _ _ _ _ H) as (w & out & Hloop & <- & _).
  destruct (ftpWalk_loop_sends _ _ _ _ _ _ _ Hloop) as [_ ->].
  cbn [app]. apply Forall_forall. intros ef Hin.
  apply list_elem_of_In, in_map_iff in Hin as (pe & <- & _).
  unfold normalized, descriptor_of. cbn [name]. apply TrimLeft_idempotent.
Qed.

End ClientProperties.

(** ** The pipeline on the sample archive *)

(** C3. On the sample archive, the walk goes into the directory [/a/RIBS]:
    its entries [/a/RIBS/updates.2] and [/a/RIBS/full.1] are evaluated, and
    the file [a/RIBS/updates.2] is sent for reconciliation. *)
Theorem RIBS_subtree_is_walked :
  mass_upload.ftpWalk 100 sample.first_client "/"
  = Some (["/a"; "/a/other.txt"; "/a/updates.1"; "/a/RIBS"; "/a/RIBS/updates.2";
           "/a/RIBS/full.1"],
          {| mass_upload.sends :=
               [sample.descriptor "a/updates.1"; sample.descriptor "a/RIBS/updates.2"];
             mass_upload.closes := false |}).
Proof. vm_compute. reflexivity. Qed.

(** C1. On the sample archive, every listing of which succeeds, the walk
    ends without error and [ftpWalk] returns without closing the channel;
    [readChannel], once it has reconciled the two descriptors, stays in its
    receive and does not return. *)
Theorem walk_end_leaves_readChannel_blocked :
  exists seen ch,
    mass_upload.ftpWalk 100 sample.first_client "/" = Some (seen, ch) /\
    mass_upload.closes ch = false /\
    forall key,
      fst (fst (mass_upload.readChannel key sample.first_client ch))
      = mass_upload.Blocked.
Proof.
  eexists _, _. split; [vm_compute; reflexivity|]. split; [reflexivity|].
  intros key. vm_compute. reflexivity.
Qed.

(** On an archive whose connection breaks during the walk, the channel is
    closed and [readChannel] returns. *)
Lemma walk_error_closes_channel :
  exists seen ch,
    mass_upload.ftpWalk 100 (sample.client_of sample.empty_bucket sample.broken_site) "/"
    = Some (seen, ch) /\
    mass_upload.closes ch = true /\
    forall key,
      fst (fst (mass_upload.readChannel key
                  (sample.client_of sample.empty_bucket sample.broken_site) ch))
      = mass_upload.ChannelClosed.
Proof.
  eexists _, _. split; [vm_compute; reflexivity|]. split; [reflexivity|].
  intros key. vm_compute. reflexivity.
Qed.

(** C4. On an archive whose stream of [a/updates.1] breaks after the bytes
    [par], the retrieval is logged without error, no failure is counted,
    and an upload request is sent with the partial content and its
    checksum; the service stores it. *)
Theorem partial_content_is_uploaded :
  ftp.Retr (mass_upload.fc sample.truncated_client) "a/updates.1"
  = inl (bytes_of "par", Some "unexpected EOF") /\
  forall key,
    exists c',
      mass_upload.readChannel key sample.truncated_client sample.updates_1
      = (mass_upload.ChannelClosed, c', 0) /\
      mass_upload.log c'
      = [mass_upload.Retrieved "a/updates.1" None;
         mass_upload.Uploaded
           (sample.request "a/updates.1" "par" "d018268506e2868537a478629b59e7c1"
              pb.FileRequest_ROUTEVIEWS) None] /\
      mass_upload.metrics c' !! "sync" = Some 1 /\
      storage.content <$> (storage.objects (mass_upload.store c') !! "a/updates.1")
      = Some (bytes_of "par").
Proof.
  split; [reflexivity|]. intros key. eexists. split; [vm_compute; reflexivity|].
  split; [reflexivity|]. split; vm_compute; reflexivity.
Qed.

(** C5. In a bucket that holds an older [a/updates.1] and in which closing
    a writer fails, the first run completes successfully as far as the
    program can tell: it ends at the closure of the channel, the upload is
    acknowledged, one file is counted as synchronised and no error is
    counted, while the object keeps its older content.  Nothing differs in
    the second run, a new process against the same archive and the bucket
    as the first run left it, and it does not skip the file: it transfers it
    again, and its counter of synchronisations is 1, not 0. *)
Theorem unreported_close_failure_is_retransferred :
  mass_upload.readChannel sample.key sample.stale_client sample.updates_1
  = (mass_upload.ChannelClosed, sample.stale_client_after, 0) /\
  mass_upload.log sample.stale_client_after
  = [mass_upload.Retrieved "a/updates.1" None;
     mass_upload.Uploaded sample.upload_request None] /\
  mass_upload.metrics sample.stale_client_after !! "sync" = Some 1 /\
  mass_upload.metrics sample.stale_client_after !! "error" = Some 0 /\
  storage.content
    <$> (storage.objects (mass_upload.store sample.stale_client_after) !! "a/updates.1")
  = Some (bytes_of "old") /\
  exists c2,
    mass_upload.readChannel sample.key (spec.restart sample.stale_client_after)
      sample.updates_1
    = (mass_upload.ChannelClosed, c2, 0) /\
    mass_upload.log c2
    = [mass_upload.Retrieved "a/updates.1" None;
       mass_upload.Uploaded sample.upload_request None] /\
    mass_upload.metrics c2 !! "sync" = Some 1 /\
    mass_upload.metrics c2 !! "skip" = Some 0.
Proof.
  split; [vm_compute; reflexivity|]. split; [vm_compute; reflexivity|].
  split; [vm_compute; reflexivity|]. split; [vm_compute; reflexivity|].
  split; [vm_compute; reflexivity|].
  eexists. split; [vm_compute; reflexivity|].
  split; [vm_compute; reflexivity|]. split; vm_compute; reflexivity.
Qed.

(** The same after a retrieval that was cut short.  The first run takes
    the three bytes it received of [a/updates.1] for the file, uploads them,
    and ends at the closure of the channel with one file synchronised and no
    error counted.  The file and the bucket do not change; a second run
    whose retrieval is not interrupted finds another checksum and transfers
    the file again. *)
Lemma interrupted_retrieval_is_retransferred :
  mass_upload.readChannel sample.key sample.truncated_client sample.updates_1
  = (mass_upload.ChannelClosed, sample.truncated_client_after, 0) /\
  mass_upload.metrics sample.truncated_client_after !! "sync" = Some 1 /\
  mass_upload.metrics sample.truncated_client_after !! "error" = Some 0 /\
  ftp.Retr sample.truncating_site "a/updates.1"
  = inl (bytes_of "par", Some "unexpected EOF") /\
  ftp.Retr sample.restored_site "a/updates.1" = inl (bytes_of "partial", None) /\
  exists c2,
    mass_upload.readChannel sample.key sample.restored_client sample.updates_1
    = (mass_upload.ChannelClosed, c2, 0) /\
    mass_upload.log c2
    = [mass_upload.Retrieved "a/updates.1" None;
       mass_upload.Uploaded
         (sample.request "a/updates.1" "partial" "0e87c1212a698494dcdb198af3e0eb2f"
            pb.FileRequest_ROUTEVIEWS) None] /\
    mass_upload.metrics c2 !! "sync" = Some 1 /\
    mass_upload.metrics c2 !! "skip" = Some 0.
Proof.
  split; [vm_compute; reflexivity|]. split; [vm_compute; reflexivity|].
  split; [vm_compute; reflexivity|]. split; [reflexivity|]. split; [reflexivity|].
  eexists. split; [vm_compute; reflexivity|].
  split; [vm_compute; reflexivity|]. split; vm_compute; reflexivity.
Qed.

(** C6. Fifty retrievals fail on the command [RETR] and the fifty-first
    fails while its stream is read: the process does not end there; the
    failure is neither logged nor counted, the three bytes received are
    uploaded as the file, and the run goes on to the next file and ends at
    the closure of the channel.  And a run of sixty retrievals whose streams
    all break ends at the closure of the channel, with sixty files counted
    as synchronised and no failure counted. *)
Theorem stream_failure_escapes_the_budget :
  (length (sample.numbered_from 10 50) = 50%nat /\
   forallb (fun ef => spec.retrieval_fails sample.flaky_site (mass_upload.name ef))
     (sample.numbered_from 10 50 ++ [sample.descriptor "a/updates.1"]) = true /\
   fst (fst sample.flaky_run) = mass_upload.ChannelClosed /\
   snd sample.flaky_run = mass_upload.maxFTPErrs /\
   spec.reported_failures (mass_upload.log (snd (fst sample.flaky_run))) = 50 /\
   drop 50 (mass_upload.log (snd (fst sample.flaky_run)))
   = [mass_upload.Retrieved "a/updates.1" None;
      mass_upload.Uploaded
        (sample.request "a/updates.1" "par" "d018268506e2868537a478629b59e7c1"
           pb.FileRequest_ROUTEVIEWS) None;
      mass_upload.Retrieved "a/RIBS/updates.2" None;
      mass_upload.Uploaded
        (sample.request "a/RIBS/updates.2" "Y" "57cec4137b614c87cb4e24a3d003a3e0"
           pb.FileRequest_ROUTEVIEWS) None])
  /\
  (length (sample.numbered_from 10 60) = 60%nat /\
   forallb (fun ef => spec.retrieval_fails sample.breaking_site (mass_upload.name ef))
     (sample.numbered_from 10 60) = true /\
   fst (fst sample.breaking_run) = mass_upload.ChannelClosed /\
   snd sample.breaking_run = 0 /\
   spec.reported_failures (mass_upload.log (snd (fst sample.breaking_run))) = 0 /\
   mass_upload.metrics (snd (fst sample.breaking_run)) !! "sync" = Some 60).
Proof.
  split; (split; [reflexivity|]); (split; [vm_compute; reflexivity|]);
    (split; [vm_compute; reflexivity|]); (split; [vm_compute; reflexivity|]);
    split; vm_compute; reflexivity.
Qed.

(** ** Instances *)

Lemma FileUpload_rejects_malformed_witness :
  server.FileUpload sample.key (sample.rv sample.empty_bucket)
    (sample.request "a/updates.1" "" "d41d8cd98f00b204e9800998ecf8427e"
       pb.FileRequest_ROUTEVIEWS)
  = ((None, Some "base requirements for FileRequest unmet"),
     sample.rv sample.empty_bucket).
Proof. apply FileUpload_rejects_malformed. left. reflexivity. Defined.

Lemma FileUpload_integrity_witness :
  exists e,
    server.FileUpload sample.key (sample.rv sample.empty_bucket)
      (sample.request "a/updates.1" "X" "d41d8cd98f00b204e9800998ecf8427e"
         pb.FileRequest_ROUTEVIEWS)
    = ((None, Some e), sample.rv sample.empty_bucket).
Proof. apply FileUpload_integrity. vm_compute. discriminate. Defined.

Lemma FileUpload_RIPE_RIS_witness :
  server.FileUpload sample.key (sample.rv sample.empty_bucket)
    (sample.request "ris/updates.1" "X" "02129bb861061d1a052c592e2dc6b383"
       pb.FileRequest_RIPE_RIS)
  = ((None, Some "not Implemented storing: ris/updates.1"),
     sample.rv sample.empty_bucket).
Proof.
  apply (FileUpload_RIPE_RIS sample.key (sample.rv sample.empty_bucket)
           (sample.request "ris/updates.1" "X" "02129bb861061d1a052c592e2dc6b383"
              pb.FileRequest_RIPE_RIS)).
  - discriminate.
  - discriminate.
  - vm_compute. reflexivity.
  - reflexivity.
Defined.

Lemma fileStore_drops_close_error_witness :
  fst (server.fileStore (sample.rv sample.stale_bucket) "a/updates.1" (bytes_of "X"))
  = None /\
  exists r',
    server.FileUpload sample.key (sample.rv sample.stale_bucket)
      (sample.request "a/updates.1" "X" "02129bb861061d1a052c592e2dc6b383"
         pb.FileRequest_ROUTEVIEWS)
    = ((Some {| pb.Status := Some pb.FileResponse_SUCCESS |}, None), r') /\
    In (storage.OpWrite "a/updates.1" (bytes_of "X")
          (Some (storage.ErrOther "googleapi: Error 403")))
       (storage.journal (server.sc r')) /\
    storage.content <$> (storage.objects (server.sc r') !! "a/updates.1")
    = Some (bytes_of "old").
Proof.
  destruct (fileStore_drops_close_error sample.key (sample.rv sample.stale_bucket)
              (sample.request "a/updates.1" "X" "02129bb861061d1a052c592e2dc6b383"
                 pb.FileRequest_ROUTEVIEWS) eq_refl) as [H1 H2].
  split; [exact H1|].
  apply (H2 "googleapi: Error 403" (sample.object_of "old")).
  - reflexivity.
  - reflexivity.
  - vm_compute. reflexivity.
  - reflexivity.
  - vm_compute. reflexivity.
  - left. reflexivity.
Defined.

Lemma destination_absent_transfers_witness :
  exists ctl c' errs' evs,
    mass_upload.readChannel_body sample.key sample.first_client 0
      (sample.descriptor "a/updates.1") = (ctl, c', errs') /\
    mass_upload.log c' = (mass_upload.log sample.first_client ++ evs)%list /\
    (forall e, In e evs -> spec.is_skip e = false) /\
    mass_upload.metrics c' !! "skip" = mass_upload.metrics sample.first_client !! "skip" /\
    (forall fSum buf,
       mass_upload.getMD5ftp sample.first_client "a/updates.1" = (fSum, buf, None) ->
       exists err,
         In (mass_upload.Uploaded
               {| pb.Filename := "a/updates.1"; pb.Content := buf; pb.Md5Sum := fSum;
                  pb.Project := pb.FileRequest_ROUTEVIEWS |} err) evs).
Proof.
  apply (destination_absent_transfers sample.key sample.first_client 0
           (sample.descriptor "a/updates.1")).
  - reflexivity.
  - vm_compute. reflexivity.
Defined.

Lemma budget_enforcement_witness :
  (exists msg c2,
     mass_upload.readChannel sample.key sample.unreadable_client
       {| mass_upload.sends :=
            sample.unreadable 50 ++ sample.descriptor "a/updates.1"
              :: [sample.descriptor "a/RIBS/updates.2"];
          mass_upload.closes := true |}
     = (mass_upload.Fatal msg, c2, mass_upload.maxFTPErrs) /\
     mass_upload.log c2
     = (mass_upload.log (sample.after_unreadable 50)
        ++ [mass_upload.Retrieved "a/updates.1"
              (Some "failed to RETR the path: 550 no such file")])%list)
  /\
  (exists c2,
     mass_upload.readChannel sample.key sample.unreadable_client
       {| mass_upload.sends :=
            sample.unreadable 49 ++ sample.descriptor "a/updates.1"
              :: [sample.descriptor "a/RIBS/updates.2"];
          mass_upload.closes := true |}
     = mass_upload.readChannel_loop sample.key c2 mass_upload.maxFTPErrs
         [sample.descriptor "a/RIBS/updates.2"] true).
Proof.
  split.
  - destruct (budget_enforcement sample.key sample.unreadable_client
                (sample.unreadable 50) (sample.descriptor "a/updates.1")
                [sample.descriptor "a/RIBS/updates.2"] true
                (sample.after_unreadable 50) 50 "550 no such file") as [H _].
    + reflexivity.
    + vm_compute. reflexivity.
    + reflexivity.
    + reflexivity.
    + destruct H as (msg & c2 & H1 & H2 & _); [vm_compute; reflexivity|].
      exists msg, c2. split; assumption.
  - destruct (budget_enforcement sample.key sample.unreadable_client
                (sample.unreadable 49) (sample.descriptor "a/updates.1")
                [sample.descriptor "a/RIBS/updates.2"] true
                (sample.after_unreadable 49) 49 "550 no such file") as [_ H].
    + reflexivity.
    + vm_compute. reflexivity.
    + reflexivity.
    + reflexivity.
    + destruct H as (c2 & _ & _ & H3); [vm_compute; reflexivity|].
      exists c2. exact H3.
Defined.

Lemma reconciliation_idempotent_witness :
  mass_upload.readChannel sample.key sample.first_client sample.updates_1
  = (mass_upload.ChannelClosed, sample.first_client_after, 0) /\
  mass_upload.metrics sample.first_client_after !! "sync" = Some 1 /\
  exists c2,
    mass_upload.readChannel sample.key (spec.restart sample.first_client_after)
      sample.updates_1
    = (mass_upload.ChannelClosed, c2, 0) /\
    mass_upload.metrics c2 !! "sync" = Some 0 /\
    mass_upload.metrics c2 !! "skip" = Some 1 /\
    mass_upload.log c2
    = [mass_upload.Retrieved "a/updates.1" None; mass_upload.Skipped "a/updates.1"].
Proof.
  assert (mass_upload.readChannel sample.key sample.first_client sample.updates_1
          = (mass_upload.ChannelClosed, sample.first_client_after, 0)) as Hrun
    by (vm_compute; reflexivity).
  split; [exact Hrun|]. split; [vm_compute; reflexivity|].
  destruct (reconciliation_idempotent sample.key sample.first_client
              [sample.descriptor "a/updates.1"] sample.first_client_after 0)
    as (c2 & H1 & H2 & _ & H4 & H5 & _).
  - repeat constructor.
  - exact Hrun.
  - vm_compute. repeat constructor.
  - vm_compute. repeat constructor.
  - exists c2. split; [exact H1|]. split; [exact H2|]. split; [exact H4|exact H5].
Defined.

(** * Further properties *)

(** ** The upload acceptance service *)

Section ServerFurther.

Variable key : string.

Ltac unfold_handle :=
  unfold server.handleDataFile, server.fileStore, storage.Copy, storage.NewWriter,
    server.setProjectMeta, storage.Update, storage.Close, server.set_Status;
  cbn [storage.wname storage.wbuf storage.werr server.sc server.bucket
       storage.objects storage.failing storage.journal].

Ltac step_store :=
  cbn [storage.write_err storage.close_err storage.update_err storage.no_faults
       storage.fault storage.wname storage.wbuf storage.werr storage.objects
       storage.failing storage.journal server.sc].

(** [handleDataFile] leaves the objects as they are or sets the one object
    it was called for. *)
Lemma handleDataFile_objects r proj resp fn b :
  let r' := snd (server.handleDataFile key r proj resp fn b) in
  storage.failing (server.sc r') = storage.failing (server.sc r) /\
  (storage.objects (server.sc r') = storage.objects (server.sc r) \/
   exists o, storage.objects (server.sc r') = <[fn := o]> (storage.objects (server.sc r))).
Proof.
  unfold_handle.
  destruct (storage.write_err (storage.failing (server.sc r) fn)) as [w|];
    cbn [storage.fault]; [cbn; auto|].
  cbn [storage.wname storage.wbuf storage.werr].
  destruct (storage.close_err (storage.failing (server.sc r) fn)) as [ce|];
    cbn [storage.fault storage.objects storage.failing storage.journal server.sc];
    destruct (storage.update_err (storage.failing (server.sc r) fn)) as [ue|];
    cbn [storage.fault].
  - cbn. auto.
  - destruct (storage.objects (server.sc r) !! fn) as [o|]; cbn;
      (split; [reflexivity|]); [right; eexists; reflexivity | left; reflexivity].
  - cbn. split; [reflexivity|]. right. eexists. reflexivity.
  - rewrite lookup_insert_eq. cbn. rewrite insert_insert_eq.
    split; [reflexivity|]. right. eexists. reflexivity.
Qed.

Lemma FileUpload_objects r req :
  let r' := snd (server.FileUpload key r req) in
  storage.failing (server.sc r') = storage.failing (server.sc r) /\
  (storage.objects (server.sc r') = storage.objects (server.sc r) \/
   exists o, storage.objects (server.sc r')
             = <[pb.Filename req := o]> (storage.objects (server.sc r))).
Proof.
  cbv zeta. destruct (spec.unmet req) eqn:Hu.
  { rewrite (FileUpload_unmet key r req Hu). cbn. auto. }
  destruct (string_dec (pb.Md5Sum req) (md5hex (pb.Content req))) as [Hs|Hs].
  - rewrite (FileUpload_dispatch key r req Hu Hs).
    destruct (pb.Project req); cbn [snd]; auto.
    + pose proof (handleDataFile_objects r pb.FileRequest_ROUTEVIEWS
                    {| pb.Status := None |} (pb.Filename req) (pb.Content req)) as H.
      destruct (server.handleDataFile key r _ _ _ _) as [[resp err] r']. exact H.
    + pose proof (handleDataFile_objects r pb.FileRequest_RPKI_RARC
                    {| pb.Status := None |} (pb.Filename req) (pb.Content req)) as H.
      destruct (server.handleDataFile key r _ _ _ _) as [[resp err] r']. exact H.
  - rewrite (FileUpload_checksum key r req Hu Hs). cbn. auto.
Qed.

(** [handleDataFile] when nothing fails in the store. *)
Lemma handleDataFile_stored r proj resp fn b :
  storage.failing (server.sc r) fn = storage.no_faults ->
  exists r',
    server.handleDataFile key r proj resp fn b
    = (({| pb.Status := Some pb.FileResponse_SUCCESS |}, None), r') /\
    storage.failing (server.sc r') = storage.failing (server.sc r) /\
    storage.objects (server.sc r')
    = <[fn := {| storage.content := b;
                 storage.metadata := {[ key := pb.Project_String proj ]} |}]>
        (storage.objects (server.sc r)).
Proof.
  intros Hf. unfold_handle.
  repeat (rewrite Hf;
          cbn [storage.write_err storage.close_err storage.update_err storage.no_faults
               storage.fault storage.wname storage.wbuf storage.werr storage.objects
               storage.failing storage.journal server.sc]).
  rewrite lookup_insert_eq. cbn. eexists. split; [reflexivity|]. cbn.
  split; [reflexivity|]. rewrite insert_insert_eq, (right_id_L ∅ (∪)). reflexivity.
Qed.

Lemma valid_unmet req :
  pb.Content req <> [] -> pb.Filename req <> "" ->
  pb.Project req = pb.FileRequest_ROUTEVIEWS \/ pb.Project req = pb.FileRequest_RPKI_RARC ->
  spec.unmet req = false.
Proof.
  intros Hc Hn Hp. apply (unmet_false req Hc); [|exact Hn].
  destruct Hp as [-> | ->]; discriminate.
Qed.

Lemma FileUpload_handled r req :
  pb.Content req <> [] -> pb.Filename req <> "" ->
  pb.Md5Sum req = md5hex (pb.Content req) ->
  pb.Project req = pb.FileRequest_ROUTEVIEWS \/ pb.Project req = pb.FileRequest_RPKI_RARC ->
  server.FileUpload key r req
  = let '((resp, err), r') :=
      server.handleDataFile key r (pb.Project req) {| pb.Status := None |}
        (pb.Filename req) (pb.Content req) in
    ((Some resp, err), r').
Proof.
  intros Hc Hn Hs Hp.
  rewrite (FileUpload_dispatch key r req (valid_unmet req Hc Hn Hp) Hs).
  destruct Hp as [-> | ->]; reflexivity.
Qed.

Lemma FileUpload_stored r req :
  pb.Content req <> [] -> pb.Filename req <> "" ->
  pb.Md5Sum req = md5hex (pb.Content req) ->
  pb.Project req = pb.FileRequest_ROUTEVIEWS \/ pb.Project req = pb.FileRequest_RPKI_RARC ->
  storage.failing (server.sc r) (pb.Filename req) = storage.no_faults ->
  exists r',
    server.FileUpload key r req
    = ((Some {| pb.Status := Some pb.FileResponse_SUCCESS |}, None), r') /\
    storage.failing (server.sc r') = storage.failing (server.sc r) /\
    storage.objects (server.sc r')
    = <[pb.Filename req :=
          {| storage.content := pb.Content req;
             storage.metadata := {[ key := pb.Project_String (pb.Project req) ]} |}]>
        (storage.objects (server.sc r)).
Proof.
  intros Hc Hn Hs Hp Hf. rewrite (FileUpload_handled r req Hc Hn Hs Hp).
  destruct (handleDataFile_stored r (pb.Project req) {| pb.Status := None |}
              (pb.Filename req) (pb.Content req) Hf) as (r' & -> & H1 & H2).
  exists r'. auto.
Qed.

(** X1. The response and the error of [FileUpload] agree: either there is
    no error and the response has the status SUCCESS, or there is an error
    and the response is absent or has the status FAIL. *)
Theorem FileUpload_response_agrees_with_error (r : server.rvServer) (req : pb.FileRequest) :
  (snd (fst (server.FileUpload key r req)) = None /\
   fst (fst (server.FileUpload key r req))
   = Some {| pb.Status := Some pb.FileResponse_SUCCESS |})
  \/
  (snd (fst (server.FileUpload key r req)) <> None /\
   (fst (fst (server.FileUpload key r req)) = None \/
    fst (fst (server.FileUpload key r req))
    = Some {| pb.Status := Some pb.FileResponse_FAIL |})).
Proof.
  assert (forall proj,
    let h := server.handleDataFile key r proj {| pb.Status := None |}
               (pb.Filename req) (pb.Content req) in
    (snd (fst h) = None /\ fst (fst h) = {| pb.Status := Some pb.FileResponse_SUCCESS |})
    \/ (snd (fst h) <> None /\ fst (fst h) = {| pb.Status := Some pb.FileResponse_FAIL |}))
    as Hh.
  { intros proj. cbv zeta. unfold server.handleDataFile.
    destruct (server.fileStore r (pb.Filename req) (pb.Content req)) as [[e|] r1].
    - right. cbn. split; [discriminate|reflexivity].
    - destruct (server.setProjectMeta key r1 (pb.Filename req) proj) as [[e|] r2].
      + right. cbn. split; [discriminate|reflexivity].
      + left. cbn. split; reflexivity. }
  destruct (spec.unmet req) eqn:Hu.
  { rewrite (FileUpload_unmet key r req Hu). right. cbn. split; [discriminate|auto]. }
  destruct (string_dec (pb.Md5Sum req) (md5hex (pb.Content req))) as [Hs|Hs].
  - rewrite (FileUpload_dispatch key r req Hu Hs).
    destruct (pb.Project req).
    + right. cbn. split; [discriminate|auto].
    + specialize (Hh pb.FileRequest_ROUTEVIEWS). cbv zeta in Hh.
      destruct (server.handleDataFile key r _ _ _ _) as [[resp err] r'].
      cbn [fst snd] in *. destruct Hh as [[-> ->]|[He ->]]; [left|right]; auto.
    + right. cbn. split; [discriminate|auto].
    + specialize (Hh pb.FileRequest_RPKI_RARC). cbv zeta in Hh.
      destruct (server.handleDataFile key r _ _ _ _) as [[resp err] r'].
      cbn [fst snd] in *. destruct Hh as [[-> ->]|[He ->]]; [left|right]; auto.
  - rewrite (FileUpload_checksum key r req Hu Hs). right. cbn.
    split; [discriminate|auto].
Qed.

(** X2. A valid request for ROUTEVIEWS or RPKI_RARC, on a store in which
    no operation on its file name fails, is answered SUCCESS, and the bucket
    then holds under the file name exactly the content of the request, with
    the project as its only metadata; the other objects are as before. *)
Theorem FileUpload_stores_content_and_project (r : server.rvServer) (req : pb.FileRequest) :
  pb.Content req <> [] -> pb.Filename req <> "" ->
  pb.Md5Sum req = md5hex (pb.Content req) ->
  pb.Project req = pb.FileRequest_ROUTEVIEWS \/ pb.Project req = pb.FileRequest_RPKI_RARC ->
  storage.failing (server.sc r) (pb.Filename req) = storage.no_faults ->
  exists r',
    server.FileUpload key r req
    = ((Some {| pb.Status := Some pb.FileResponse_SUCCESS |}, None), r') /\
    storage.objects (server.sc r') !! pb.Filename req
    = Some {| storage.content := pb.Content req;
              storage.metadata := {[ key := pb.Project_String (pb.Project req) ]} |} /\
    forall n, n <> pb.Filename req ->
              storage.objects (server.sc r') !! n = storage.objects (server.sc r) !! n.
Proof.
  intros Hc Hn Hs Hp Hf.
  destruct (FileUpload_stored r req Hc Hn Hs Hp Hf) as (r' & H & _ & Ho).
  exists r'. split; [exact H|]. rewrite Ho. split.
  - apply lookup_insert_eq.
  - intros n Hne. apply lookup_insert_ne. congruence.
Qed.

(** X3. There is no rollback: when the object is written and the update of
    its metadata then fails, [FileUpload] answers FAIL with an error, and
    the bucket keeps the new content under the file name, without
    metadata. *)
Theorem FileUpload_keeps_object_when_metadata_fails
    (r : server.rvServer) (req : pb.FileRequest) (u : string) :
  pb.Content req <> [] -> pb.Filename req <> "" ->
  pb.Md5Sum req = md5hex (pb.Content req) ->
  pb.Project req = pb.FileRequest_ROUTEVIEWS \/ pb.Project req = pb.FileRequest_RPKI_RARC ->
  storage.write_err (storage.failing (server.sc r) (pb.Filename req)) = None ->
  storage.close_err (storage.failing (server.sc r) (pb.Filename req)) = None ->
  storage.update_err (storage.failing (server.sc r) (pb.Filename req)) = Some u ->
  exists e r',
    server.FileUpload key r req
    = ((Some {| pb.Status := Some pb.FileResponse_FAIL |}, Some e), r') /\
    storage.objects (server.sc r') !! pb.Filename req
    = Some {| storage.content := pb.Content req; storage.metadata := ∅ |}.
Proof.
  intros Hc Hn Hs Hp Hw Hcl Hu. rewrite (FileUpload_handled r req Hc Hn Hs Hp).
  unfold_handle. rewrite Hw. step_store. rewrite Hcl. step_store. rewrite Hu.
  cbn. eexists _, _. split; [reflexivity|]. cbn.
  apply lookup_insert_eq.
Qed.

(** X4. Whatever the request and whatever fails, [FileUpload] changes no
    object but the one named by the request, and removes none: an object
    that was in the bucket is still there afterwards. *)
Theorem FileUpload_touches_only_its_object (r : server.rvServer) (req : pb.FileRequest)
    (n : string) :
  (n <> pb.Filename req ->
   storage.objects (server.sc (snd (server.FileUpload key r req))) !! n
   = storage.objects (server.sc r) !! n) /\
  (is_Some (storage.objects (server.sc r) !! n) ->
   is_Some (storage.objects (server.sc (snd (server.FileUpload key r req))) !! n)).
Proof.
  destruct (FileUpload_objects r req) as [_ [-> | [o ->]]].
  - split; auto.
  - split.
    + intros Hne. apply lookup_insert_ne. congruence.
    + intros Hs. destruct (string_dec (pb.Filename req) n) as [->|Hne].
      * rewrite lookup_insert_eq. eauto.
      * rewrite lookup_insert_ne by exact Hne. exact Hs.
Qed.

(** X5. Uploading again overwrites: after a valid request was stored, the
    same request, when nothing fails, is answered SUCCESS again and leaves
    the objects of the bucket exactly as the first upload left them. *)
Theorem FileUpload_again_changes_nothing (r : server.rvServer) (req : pb.FileRequest) :
  pb.Content req <> [] -> pb.Filename req <> "" ->
  pb.Md5Sum req = md5hex (pb.Content req) ->
  pb.Project req = pb.FileRequest_ROUTEVIEWS \/ pb.Project req = pb.FileRequest_RPKI_RARC ->
  storage.failing (server.sc r) (pb.Filename req) = storage.no_faults ->
  exists r1 r2,
    server.FileUpload key r req
    = ((Some {| pb.Status := Some pb.FileResponse_SUCCESS |}, None), r1) /\
    server.FileUpload key r1 req
    = ((Some {| pb.Status := Some pb.FileResponse_SUCCESS |}, None), r2) /\
    storage.objects (server.sc r2) = storage.objects (server.sc r1).
Proof.
  intros Hc Hn Hs Hp Hf.
  destruct (FileUpload_stored r req Hc Hn Hs Hp Hf) as (r1 & H1 & Hf1 & Ho1).
  assert (storage.failing (server.sc r1) (pb.Filename req) = storage.no_faults) as Hf'
    by (rewrite Hf1; exact Hf).
  destruct (FileUpload_stored r1 req Hc Hn Hs Hp Hf') as (r2 & H2 & _ & Ho2).
  exists r1, r2. split; [exact H1|]. split; [exact H2|].
  rewrite Ho2, Ho1. apply insert_insert_eq.
Qed.

(** X6. A first upload whose commit fails is reported: when closing the
    writer fails and the bucket had no object under the file name, the
    update of the metadata fails in turn, [FileUpload] answers FAIL with an
    error, and the objects are as before. *)
Theorem FileUpload_reports_failed_first_commit
    (r : server.rvServer) (req : pb.FileRequest) (ce : string) :
  pb.Content req <> [] -> pb.Filename req <> "" ->
  pb.Md5Sum req = md5hex (pb.Content req) ->
  pb.Project req = pb.FileRequest_ROUTEVIEWS \/ pb.Project req = pb.FileRequest_RPKI_RARC ->
  storage.write_err (storage.failing (server.sc r) (pb.Filename req)) = None ->
  storage.close_err (storage.failing (server.sc r) (pb.Filename req)) = Some ce ->
  storage.objects (server.sc r) !! pb.Filename req = None ->
  exists e r',
    server.FileUpload key r req
    = ((Some {| pb.Status := Some pb.FileResponse_FAIL |}, Some e), r') /\
    storage.objects (server.sc r') = storage.objects (server.sc r).
Proof.
  intros Hc Hn Hs Hp Hw Hcl Ho. rewrite (FileUpload_handled r req Hc Hn Hs Hp).
  unfold_handle. rewrite Hw. step_store. rewrite Hcl. step_store.
  destruct (storage.update_err (storage.failing (server.sc r) (pb.Filename req))) as [ue|];
    cbn [storage.fault].
  - cbn. eexists _, _. split; reflexivity.
  - rewrite Ho. cbn. eexists _, _. split; reflexivity.
Qed.

End ServerFurther.

(** ** The reconciliation engine *)

Section ClientFurther.
Import mass_upload spec.

Variable key : string.

(** The upload changes the objects as [FileUpload] does, and neither the
    log nor the counters. *)
Lemma gClient_FileUpload_objects c req :
  let c' := snd (gClient_FileUpload key c req) in
  log c' = log c /\ metrics c' = metrics c /\
  (storage.objects (store c') = storage.objects (store c) \/
   exists o, storage.objects (store c')
             = <[pb.Filename req := o]> (storage.objects (store c))).
Proof.
  cbv zeta. unfold gClient_FileUpload.
  destruct (transport_err c req) as [e|]; [cbn; auto|].
  pose proof (FileUpload_objects key
                {| server.bucket := bucket c; server.sc := store c |} req) as H.
  cbv zeta in H.
  destruct (server.FileUpload key _ req) as [[resp err] r']. cbn [snd server.sc] in H.
  destruct H as [_ H]. destruct err; cbn; auto.
Qed.

(** Every iteration of the loop goes one of the six ways of
    [outcome_of]. *)
Lemma readChannel_body_outcome c errs ef :
  outcome_of c errs ef (readChannel_body key c errs ef).
Proof.
  rewrite readChannel_body_eq.
  destruct (destination_sum_frame c (strings.TrimLeft (name ef) "/")) as [res Hf].
  destruct (destination_sum c (strings.TrimLeft (name ef) "/")) as [[cs|msg] c1];
    cbn [snd] in Hf; subst c1.
  2:{ apply DestinationFatal. unfold effect. cbn. rewrite app_nil_r. auto. }
  set (c1 := set_store c _).
  destruct (ftp.Retr (fc c1) (name ef)) as [[buf rerr]|e] eqn:Hr.
  - destruct (string_dec cs (md5hex buf)) as [->|Hne].
    + rewrite (reconcile_same key c1 errs ef buf rerr Hr).
      apply FileSkipped. unfold effect. cbn. rewrite <- app_assoc. auto.
    + rewrite (reconcile_differ key c1 errs ef buf rerr cs Hr Hne). cbv zeta.
      fold (request_for (name ef) buf).
      pose proof (gClient_FileUpload_objects (add_event c1 (Retrieved (name ef) None))
                    (request_for (name ef) buf)) as H.
      cbv zeta in H.
      destruct (gClient_FileUpload key _ _) as [[resp err] c2].
      cbn [snd] in H. destruct H as (Hl & Hm & Ho).
      destruct err as [e|]; [apply (FileFailed _ _ _ buf e)|apply (FileSynced _ _ _ buf)];
        unfold effect; cbn; rewrite Hl, Hm; cbn; rewrite <- app_assoc; auto.
  - rewrite (reconcile_failed key c1 errs ef cs e Hr). cbv zeta.
    destruct (errs <? maxFTPErrs) eqn:Hlt.
    + eapply RetrievalCounted; [apply Z.ltb_lt, Hlt|]. unfold effect. cbn. auto.
    + eapply RetrievalFatal; [apply Z.ltb_ge, Hlt|]. unfold effect. cbn. auto.
Qed.


Lemma retrieved_app l1 l2 : retrieved (l1 ++ l2) = (retrieved l1 ++ retrieved l2)%list.
Proof.
  induction l1 as [|[p e|n|r e] l1 IH]; cbn [app retrieved]; rewrite ?IH; reflexivity.
Qed.

(** What the loop logs: well-formed uploads, and one retrieval for each
    descriptor it went through, in their order. *)
Lemma readChannel_loop_events ds : forall c errs closed,
  exists evs,
    log (snd (fst (readChannel_loop key c errs ds closed))) = (log c ++ evs)%list /\
    Forall upload_well_formed evs /\
    retrieved evs `prefix_of` map name ds /\
    (fst (fst (readChannel_loop key c errs ds closed)) = ChannelClosed ->
     retrieved evs = map name ds).
Proof.
  induction ds as [|ef ds IH]; intros c errs closed.
  - exists []. cbn. rewrite app_nil_r. repeat split; auto; apply prefix_nil.
  - cbn [readChannel_loop map].
    pose proof (readChannel_body_outcome c errs ef) as Ho.
    destruct (readChannel_body key c errs ef) as [[ctl c1] errs1].
    inversion Ho as [msg c' He | e c' Hlt He | e msg c' Hge He | c' He
                     | buf c' He | buf e c' He]; subst;
      destruct He as (Hl & _ & _).
    + exists []. cbn [fst snd]. rewrite Hl. repeat split; auto.
      * apply prefix_nil.
      * discriminate.
    + destruct (IH c1 (int_wrap (errs + 1)) closed) as (evs & H1 & H2 & H3 & H4).
      exists (Retrieved (name ef) (Some e) :: evs).
      rewrite H1, Hl, <- app_assoc. split; [reflexivity|].
      split; [constructor; [exact I|exact H2]|]. cbn [retrieved].
      split; [apply prefix_cons, H3|]. intros Hc. rewrite (H4 Hc). reflexivity.
    + exists [Retrieved (name ef) (Some e)]. cbn [fst snd]. rewrite Hl.
      split; [reflexivity|]. split; [repeat constructor|]. cbn [retrieved].
      split; [apply prefix_cons, prefix_nil|discriminate].
    + destruct (IH c1 errs1 closed) as (evs & H1 & H2 & H3 & H4).
      exists (Retrieved (name ef) None :: Skipped (name ef) :: evs).
      rewrite H1, Hl, <- app_assoc. split; [reflexivity|].
      split; [repeat constructor; exact H2|]. cbn [retrieved].
      split; [apply prefix_cons, H3|]. intros Hc. rewrite (H4 Hc). reflexivity.
    + destruct (IH c1 errs1 closed) as (evs & H1 & H2 & H3 & H4).
      exists (Retrieved (name ef) None :: Uploaded (request_for (name ef) buf) None :: evs).
      rewrite H1, Hl, <- app_assoc. split; [reflexivity|].
      split; [repeat constructor; exact H2|]. cbn [retrieved].
      split; [apply prefix_cons, H3|]. intros Hc. rewrite (H4 Hc). reflexivity.
    + exists [Retrieved (name ef) None; Uploaded (request_for (name ef) buf) (Some e)].
      cbn [fst snd]. rewrite Hl. split; [reflexivity|].
      split; [repeat constructor|]. cbn [retrieved].
      split; [apply prefix_cons, prefix_nil|discriminate].
Qed.

(** X7. Every upload request that a run of [readChannel] sends is for the
    project ROUTEVIEWS and carries the checksum of its own content: the
    service never fails it on the comparison of the checksums. *)
Theorem readChannel_uploads_carry_their_checksum (c : client) (ch : channel) :
  Forall upload_well_formed (events_of_run c (snd (fst (readChannel key c ch)))).
Proof.
  unfold readChannel.
  destruct (readChannel_loop_events (sends ch) c 0 (closes ch)) as (evs & Hl & Hw & _).
  rewrite (events_of_run_app _ _ _ Hl). exact Hw.
Qed.

(** X8. A run retrieves the files in the order of the descriptors, one
    retrieval for each: the paths retrieved are the names of the first
    descriptors, and of all of them when the run ends at the closure of the
    channel. *)
Theorem readChannel_retrieves_in_order (c : client) (ch : channel) :
  retrieved (events_of_run c (snd (fst (readChannel key c ch))))
    `prefix_of` map name (sends ch) /\
  (fst (fst (readChannel key c ch)) = ChannelClosed ->
   retrieved (events_of_run c (snd (fst (readChannel key c ch)))) = map name (sends ch)).
Proof.
  unfold readChannel.
  destruct (readChannel_loop_events (sends ch) c 0 (closes ch))
    as (evs & Hl & _ & Hp & Hc).
  rewrite (events_of_run_app _ _ _ Hl). split; assumption.
Qed.

Lemma counter_insert_eq c c' k v :
  metrics c' = <[k := v]> (metrics c) -> counter c' k = v.
Proof. intros H. unfold counter. rewrite H, lookup_insert_eq. reflexivity. Qed.

Lemma counter_insert_ne c c' k k' v :
  metrics c' = <[k' := v]> (metrics c) -> k' <> k -> counter c' k = counter c k.
Proof. intros H Hne. unfold counter. rewrite H, lookup_insert_ne by exact Hne. reflexivity. Qed.

Lemma counter_same c c' k : metrics c' = metrics c -> counter c' k = counter c k.
Proof. intros H. unfold counter. rewrite H. reflexivity. Qed.

(** The counter of errors is touched by a failed upload only, which stops
    the loop. *)
Lemma readChannel_loop_error ds : forall c errs closed,
  counter c "error" = 0 ->
  counter (snd (fst (readChannel_loop key c errs ds closed))) "error"
  = match fst (fst (readChannel_loop key c errs ds closed)) with
    | UploadFailed => 1
    | _ => 0
    end.
Proof.
  induction ds as [|ef ds IH]; intros c errs closed H0.
  - cbn. destruct closed; exact H0.
  - cbn [readChannel_loop].
    pose proof (readChannel_body_outcome c errs ef) as Ho.
    destruct (readChannel_body key c errs ef) as [[ctl c1] errs1].
    inversion Ho as [msg c' He | e c' Hlt He | e msg c' Hge He | c' He
                     | buf c' He | buf e c' He]; subst;
      destruct He as (_ & Hm & _); cbn [fst snd].
    + rewrite (counter_same _ _ _ Hm). exact H0.
    + apply IH. rewrite (counter_same _ _ _ Hm). exact H0.
    + rewrite (counter_same _ _ _ Hm). exact H0.
    + apply IH. rewrite (counter_insert_ne _ _ _ _ _ Hm) by discriminate. exact H0.
    + apply IH. rewrite (counter_insert_ne _ _ _ _ _ Hm) by discriminate. exact H0.
    + rewrite (counter_insert_eq _ _ _ _ Hm), H0. reflexivity.
Qed.

(** X9. Stop the line: in a run that starts with the counter of errors at
    0, the counter ends at 1 when the run ended on a failed upload, and at 0
    otherwise; a failed upload is never followed by another transfer. *)
Theorem readChannel_error_counter (c : client) (ch : channel) :
  counter c "error" = 0 ->
  counter (snd (fst (readChannel key c ch))) "error"
  = match fst (fst (readChannel key c ch)) with
    | UploadFailed => 1
    | _ => 0
    end.
Proof. intros H. apply readChannel_loop_error, H. Qed.



(** The objects of the bucket that a run does not name stay as they are,
    and no object disappears. *)
Lemma readChannel_loop_objects ds : forall c errs closed n,
  ((forall ef, In ef ds -> name ef <> n) ->
   storage.objects (store (snd (fst (readChannel_loop key c errs ds closed)))) !! n
   = storage.objects (store c) !! n) /\
  (is_Some (storage.objects (store c) !! n) ->
   is_Some (storage.objects
              (store (snd (fst (readChannel_loop key c errs ds closed)))) !! n)).
Proof.
  induction ds as [|ef ds IH]; intros c errs closed n.
  - cbn. auto.
  - cbn [readChannel_loop].
    pose proof (readChannel_body_outcome c errs ef) as Ho.
    destruct (readChannel_body key c errs ef) as [[ctl c1] errs1].
    assert (((name ef <> n ->
              storage.objects (store c1) !! n = storage.objects (store c) !! n) /\
             (is_Some (storage.objects (store c) !! n) ->
              is_Some (storage.objects (store c1) !! n)))) as [Hother Hkeep].
    { assert (forall t, match t with
                        | None => storage.objects (store c1) = storage.objects (store c)
                        | Some m =>
                            storage.objects (store c1) = storage.objects (store c) \/
                            exists o, storage.objects (store c1)
                                      = <[m := o]> (storage.objects (store c))
                        end ->
                        t = None \/ t = Some (name ef) ->
                        (name ef <> n ->
                         storage.objects (store c1) !! n = storage.objects (store c) !! n) /\
                        (is_Some (storage.objects (store c) !! n) ->
                         is_Some (storage.objects (store c1) !! n))) as Hgen.
      { intros t Ht [-> | ->].
        - rewrite Ht. auto.
        - destruct Ht as [-> | [o ->]]; [auto|]. split.
          + intros Hne. apply lookup_insert_ne. exact Hne.
          + intros Hs. destruct (string_dec (name ef) n) as [->|Hne].
            * rewrite lookup_insert_eq. eauto.
            * rewrite lookup_insert_ne by exact Hne. exact Hs. }
      inversion Ho as [msg c0 Hf | e c0 Hlt Hf | e msg c0 Hge Hf | c0 Hf
                       | buf c0 Hf | buf e c0 Hf]; subst;
        destruct Hf as (_ & _ & Hobj);
        first [ apply (Hgen None Hobj); left; reflexivity
              | apply (Hgen (Some (name ef)) Hobj); right; reflexivity ]. }
    destruct ctl as [|e]; cbn [fst snd].
    + destruct (IH c1 errs1 closed n) as [IH1 IH2]. split.
      * intros Hn. rewrite IH1 by (intros ef' Hin; apply Hn; right; exact Hin).
        apply Hother, Hn. left. reflexivity.
      * intros Hs. apply IH2, Hkeep, Hs.
    + split; [|exact Hkeep]. intros Hn. apply Hother, Hn. left. reflexivity.
Qed.

(** X11. A run of [readChannel] changes no object of the bucket but those
    named by its descriptors, and removes none. *)
Theorem readChannel_touches_only_its_files (c : client) (ch : channel) (n : string) :
  ((forall ef, In ef (sends ch) -> name ef <> n) ->
   storage.objects (store (snd (fst (readChannel key c ch)))) !! n
   = storage.objects (store c) !! n) /\
  (is_Some (storage.objects (store c) !! n) ->
   is_Some (storage.objects (store (snd (fst (readChannel key c ch)))) !! n)).
Proof. apply readChannel_loop_objects. Qed.


(** X12. Fail fast on the destination: when the query of the attributes
    fails and the message of the error does not contain "object doesn't
    exist", the iteration ends the process before anything is retrieved or
    uploaded: the log, the counters and the objects are as they were. *)
Theorem destination_failure_is_fatal (c : client) (errs : Z) (ef : evalFile)
    (msg : string) :
  storage.attrs_err (storage.failing (store c) (strings.TrimLeft (name ef) "/"))
  = Some msg ->
  strings.Contains ("failed to get attrs for obj: " +:+ msg) "object doesn't exist"
  = false ->
  exists m c',
    readChannel_body key c errs ef = (Stop (Fatal m), c', errs) /\
    log c' = log c /\ metrics c' = metrics c /\
    storage.objects (store c') = storage.objects (store c).
Proof.
  intros Hf Hc. rewrite readChannel_body_eq. unfold destination_sum.
  rewrite (getMD5cloud_fault c _ msg Hf). cbv iota beta. rewrite Hc.
  eexists _, _. split; [reflexivity|]. cbn. auto.
Qed.

(** X13. An empty file of the archive stops the run: unless the
    destination already holds an object with the checksum of the empty
    content, the upload of the empty content is sent and fails, the error
    is counted, and the loop ends; the objects are as they were. *)
Theorem empty_file_stops_the_run (c : client) (errs : Z) (ef : evalFile)
    (rerr : option error) :
  storage.attrs_err (storage.failing (store c) (strings.TrimLeft (name ef) "/")) = None ->
  (forall o, storage.objects (store c) !! strings.TrimLeft (name ef) "/" = Some o ->
             md5hex (storage.content o) <> md5hex []) ->
  ftp.Retr (fc c) (name ef) = inl ([], rerr) ->
  exists e c',
    readChannel_body key c errs ef = (Stop UploadFailed, c', errs) /\
    log c' = (log c ++ [Retrieved (name ef) None;
                        Uploaded (request_for (name ef) []) (Some e)])%list /\
    counter c' "error" = int_wrap (counter c "error" + 1) /\
    storage.objects (store c') = storage.objects (store c).
Proof.
  intros Ha Ho Hr. rewrite readChannel_body_eq.
  assert (exists cs res,
            destination_sum c (strings.TrimLeft (name ef) "/")
            = (inl cs, set_store c (storage.record (store c)
                 (storage.OpAttrs (strings.TrimLeft (name ef) "/") res))) /\
            cs <> md5hex []) as (cs & res & -> & Hne).
  { destruct (storage.objects (store c) !! strings.TrimLeft (name ef) "/")
      as [o|] eqn:Hl.
    - eexists _, _. split; [apply (destination_sum_present c _ o Ha Hl)|].
      apply Ho. reflexivity.
    - eexists _, _. split; [apply (destination_sum_absent c _ Ha Hl)|].
      intros H. symmetry in H. exact (md5hex_nonempty _ H). }
  set (c1 := set_store c _).
  assert (ftp.Retr (fc c1) (name ef) = inl ([], rerr)) as Hr1 by exact Hr.
  rewrite (reconcile_differ key c1 errs ef [] rerr cs Hr1 Hne). cbv zeta.
  fold (request_for (name ef) []).
  unfold gClient_FileUpload.
  destruct (transport_err _ _) as [e|].
  - eexists _, _. split; [reflexivity|]. cbn. rewrite <- app_assoc.
    split; [reflexivity|]. split; [|reflexivity].
    unfold counter. cbn. rewrite lookup_insert_eq. reflexivity.
  - rewrite (FileUpload_unmet key _ (request_for (name ef) []))
      by (apply unmet_true; left; reflexivity).
    eexists _, _. split; [reflexivity|]. cbn. rewrite <- app_assoc.
    split; [reflexivity|]. split; [|reflexivity].
    unfold counter. cbn. rewrite lookup_insert_eq. reflexivity.
Qed.

(** A retrieval whose stream breaks is taken for the retrieval of the
    bytes received, whatever the count of errors is: it is logged without
    error, the count does not change, and the iteration skips the file or
    uploads these bytes; the budget never ends the process there. *)
Lemma stream_failure_is_not_counted (c : client) (errs : Z) (ef : evalFile)
    (buf : list byte) (rerr : error) :
  storage.attrs_err (storage.failing (store c) (strings.TrimLeft (name ef) "/")) = None ->
  ftp.Retr (fc c) (name ef) = inl (buf, Some rerr) ->
  exists ctl c' evs,
    readChannel_body key c errs ef = (ctl, c', errs) /\
    (ctl = Continue \/ ctl = Stop UploadFailed) /\
    log c' = (log c ++ Retrieved (name ef) None :: evs)%list /\
    (evs = [Skipped (name ef)] \/
     exists err, evs = [Uploaded (request_for (name ef) buf) err]).
Proof.
  intros Ha Hr. rewrite readChannel_body_eq.
  assert (exists cs res,
            destination_sum c (strings.TrimLeft (name ef) "/")
            = (inl cs, set_store c (storage.record (store c)
                 (storage.OpAttrs (strings.TrimLeft (name ef) "/") res))))
    as (cs & res & ->).
  { destruct (storage.objects (store c) !! strings.TrimLeft (name ef) "/")
      as [o|] eqn:Hl.
    - eexists _, _. apply (destination_sum_present c _ o Ha Hl).
    - eexists _, _. apply (destination_sum_absent c _ Ha Hl). }
  set (c1 := set_store c _).
  assert (ftp.Retr (fc c1) (name ef) = inl (buf, Some rerr)) as Hr1 by exact Hr.
  destruct (string_dec cs (md5hex buf)) as [->|Hne].
  - rewrite (reconcile_same key c1 errs ef buf (Some rerr) Hr1).
    eexists _, _, _. split; [reflexivity|]. split; [left; reflexivity|].
    split; [cbn; rewrite <- app_assoc; reflexivity|]. left. reflexivity.
  - rewrite (reconcile_differ key c1 errs ef buf (Some rerr) cs Hr1 Hne). cbv zeta.
    fold (request_for (name ef) buf).
    pose proof (gClient_FileUpload_objects (add_event c1 (Retrieved (name ef) None))
                  (request_for (name ef) buf)) as H.
    cbv zeta in H.
    destruct (gClient_FileUpload key _ _) as [[resp err] c2].
    cbn [snd] in H. destruct H as (Hl & _ & _).
    destruct err as [e|]; eexists _, _, _; (split; [reflexivity|]).
    + split; [right; reflexivity|]. cbn. rewrite Hl. cbn. rewrite <- app_assoc.
      split; [reflexivity|]. right. eexists. reflexivity.
    + split; [left; reflexivity|]. cbn. rewrite Hl. cbn. rewrite <- app_assoc.
      split; [reflexivity|]. right. eexists. reflexivity.
Qed.

(** X14. What is uploaded is what the destination then reports: after the
    client uploaded a file, with no failure of the channel nor of the store
    on that name, the checksum [getMD5cloud] returns for the name is the
    checksum that was sent. *)
Theorem upload_then_getMD5cloud (c : client) (fn : string) (buf : list byte) :
  buf <> [] -> fn <> "" ->
  transport_err c (request_for fn buf) = None ->
  storage.failing (store c) fn = storage.no_faults ->
  exists c',
    gClient_FileUpload key c (request_for fn buf)
    = ((Some {| pb.Status := Some pb.FileResponse_SUCCESS |}, None), c') /\
    fst (getMD5cloud c' fn) = (md5hex buf, None).
Proof.
  intros Hb Hn Ht Hf. unfold gClient_FileUpload. rewrite Ht.
  pose proof (FileUpload_stored key {| server.bucket := bucket c; server.sc := store c |}
                (request_for fn buf) Hb Hn eq_refl (or_introl eq_refl) Hf)
    as (r' & Hup & Hf' & Ho').
  rewrite Hup. eexists. split; [reflexivity|].
  change (pb.Filename (request_for fn buf)) with fn in Ho'.
  change (pb.Content (request_for fn buf)) with buf in Ho'.
  change (server.sc {| server.bucket := bucket c; server.sc := store c |})
    with (store c) in Hf', Ho'.
  assert (storage.attrs_err (storage.failing (store (set_store c (server.sc r'))) fn)
          = None) as Ha.
  { change (store (set_store c (server.sc r'))) with (server.sc r').
    rewrite Hf', Hf. reflexivity. }
  assert (storage.objects (store (set_store c (server.sc r'))) !! fn
          = Some {| storage.content := buf;
                    storage.metadata :=
                      {[ key := pb.Project_String pb.FileRequest_ROUTEVIEWS ]} |}) as Hl.
  { change (store (set_store c (server.sc r'))) with (server.sc r').
    rewrite Ho'. apply lookup_insert_eq. }
  rewrite (getMD5cloud_present _ fn _ Ha Hl). reflexivity.
Qed.

(** The count of errors stays within the budget, and the failures that
    [getMD5ftp] reports in the loop are at most one more than what the
    count grew by. *)
Lemma readChannel_loop_failures ds : forall c errs closed,
  0 <= errs <= maxFTPErrs ->
  exists evs,
    log (snd (fst (readChannel_loop key c errs ds closed))) = (log c ++ evs)%list /\
    errs <= snd (readChannel_loop key c errs ds closed) <= maxFTPErrs /\
    reported_failures evs <= snd (readChannel_loop key c errs ds closed) - errs + 1.
Proof.
  unfold maxFTPErrs.
  induction ds as [|ef ds IH]; intros c errs closed Hb.
  - exists []. cbn. rewrite app_nil_r. split; [reflexivity|]. lia.
  - cbn [readChannel_loop].
    pose proof (readChannel_body_outcome c errs ef) as Ho.
    destruct (readChannel_body key c errs ef) as [[ctl c1] errs1].
    inversion Ho as [msg c' He | e c' Hlt He | e msg c' Hge He | c' He
                     | buf c' He | buf e c' He]; subst;
      destruct He as (Hl & _ & _); unfold maxFTPErrs in *.
    + exists []. cbn [fst snd]. rewrite Hl. split; [reflexivity|]. cbn. lia.
    + rewrite int_wrap_small by lia.
      destruct (IH c1 (errs + 1) closed) as (evs & H1 & H2 & H3); [lia|].
      exists (Retrieved (name ef) (Some e) :: evs).
      rewrite H1, Hl, <- app_assoc. split; [reflexivity|].
      cbn [reported_failures]. lia.
    + exists [Retrieved (name ef) (Some e)]. cbn [fst snd]. rewrite Hl.
      split; [reflexivity|]. cbn. lia.
    + destruct (IH c1 errs1 closed Hb) as (evs & H1 & H2 & H3).
      exists (Retrieved (name ef) None :: Skipped (name ef) :: evs).
      rewrite H1, Hl, <- app_assoc. split; [reflexivity|].
      cbn [reported_failures]. lia.
    + destruct (IH c1 errs1 closed Hb) as (evs & H1 & H2 & H3).
      exists (Retrieved (name ef) None :: Uploaded (request_for (name ef) buf) None :: evs).
      rewrite H1, Hl, <- app_assoc. split; [reflexivity|].
      cbn [reported_failures]. lia.
    + exists [Retrieved (name ef) None; Uploaded (request_for (name ef) buf) (Some e)].
      cbn [fst snd]. rewrite Hl. split; [reflexivity|]. cbn. lia.
Qed.

(** X22. The budget bounds the failures that [getMD5ftp] reports: the
    count of errors of [readChannel] never exceeds [maxFTPErrs], and in a
    run at most [maxFTPErrs + 1] retrievals fail on the command [RETR],
    however many descriptors the run is given.  The retrievals whose stream
    breaks are no part of the count. *)
Theorem readChannel_reported_failures_bounded (c : client) (ch : channel) :
  0 <= snd (readChannel key c ch) <= maxFTPErrs /\
  reported_failures (events_of_run c (snd (fst (readChannel key c ch))))
  <= maxFTPErrs + 1.
Proof.
  unfold readChannel.
  destruct (readChannel_loop_failures (sends ch) c 0 (closes ch)) as (evs & Hl & Hb & Hf).
  { unfold maxFTPErrs. lia. }
  rewrite (events_of_run_app _ _ _ Hl). lia.
Qed.

(** *** The walk *)

Lemma TrimLeft_no_prefix s :
  strings.HasPrefix (strings.TrimLeft s "/") "/" = false.
Proof.
  induction s as [|ch s IH]; [reflexivity|].
  cbn [strings.TrimLeft strings.mem].
  destruct (Ascii.eqb ch "/") eqn:E; [exact IH|].
  cbn [strings.HasPrefix]. rewrite Ascii.eqb_sym, E. reflexivity.
Qed.

(** X15. [ftpWalk] evaluates every entry the walker yields and sends, in
    the walker's order, exactly the regular files whose name begins with
    [updates], each under its path without the leading separators; nothing
    else is sent. *)
Theorem ftpWalk_sends_the_updates_files (fuel : nat) (c : client) (dir : string)
    (seen : list string) (ch : channel) :
  ftpWalk fuel c dir = Some (seen, ch) ->
  seen = map fst (walk_entries fuel (ftp.Walk (fc c) dir)) /\
  sends ch
  = map descriptor_of (List.filter wanted (walk_entries fuel (ftp.Walk (fc c) dir))).
Proof.
  intros H. destruct (ftpWalk_closes _ _ _ _ _ H) as (w & out & Hloop & <- & _).
  destruct (ftpWalk_loop_sends _ _ _ _ _ _ _ Hloop) as [-> ->]. split; reflexivity.
Qed.

(** X16. The names of the descriptors that [ftpWalk] sends do not begin
    with a separator, so that stripping it again in [readChannel] changes
    nothing: the destination is queried under the very name the file is
    uploaded under. *)
Theorem ftpWalk_names_are_object_names (fuel : nat) (c : client) (dir : string)
    (seen : list string) (ch : channel) :
  ftpWalk fuel c dir = Some (seen, ch) ->
  Forall (fun ef => strings.HasPrefix (name ef) "/" = false /\
                    strings.TrimLeft (name ef) "/" = name ef) (sends ch).
Proof.
  intros H. destruct (ftpWalk_closes _ _ _ _ _ H) as (w & out & Hloop & <- & _).
  destruct (ftpWalk_loop_sends _ _ _ _ _ _ _ Hloop) as [_ ->].
  cbn [app]. apply Forall_forall. intros ef Hin.
  apply list_elem_of_In, in_map_iff in Hin as (pe & <- & _).
  unfold descriptor_of. cbn [name]. split.
  - apply TrimLeft_no_prefix.
  - apply TrimLeft_idempotent.
Qed.

End ClientFurther.

(** ** Strings *)

Lemma append_cons c (a b : string) : String c a +:+ b = String c (a +:+ b).
Proof. reflexivity. Qed.

Lemma append_nil_l (s : string) : "" +:+ s = s.
Proof. reflexivity. Qed.

Lemma append_nil_r (s : string) : s +:+ "" = s.
Proof.
  induction s as [|c s IH]; [reflexivity|]. rewrite append_cons, IH. reflexivity.
Qed.

Lemma append_assoc (a b c : string) : (a +:+ b) +:+ c = a +:+ (b +:+ c).
Proof.
  induction a as [|x a IH]; [reflexivity|]. rewrite !append_cons, IH. reflexivity.
Qed.

Lemma rev_acc_append s : forall acc, strings.rev_acc s acc = strings.rev s +:+ acc.
Proof.
  unfold strings.rev. induction s as [|c s IH]; intros acc; [reflexivity|].
  cbn [strings.rev_acc]. rewrite (IH (String c acc)), (IH (String c "")), append_assoc.
  reflexivity.
Qed.

Lemma rev_cons c s : strings.rev (String c s) = strings.rev s +:+ String c "".
Proof. unfold strings.rev at 1. cbn [strings.rev_acc]. apply rev_acc_append. Qed.

Lemma rev_append a : forall b, strings.rev (a +:+ b) = strings.rev b +:+ strings.rev a.
Proof.
  induction a as [|c a IH]; intros b.
  - rewrite append_nil_l. change (strings.rev "") with "". rewrite append_nil_r.
    reflexivity.
  - rewrite append_cons, !rev_cons, IH, append_assoc. reflexivity.
Qed.

Lemma rev_involutive s : strings.rev (strings.rev s) = s.
Proof.
  induction s as [|c s IH]; [reflexivity|].
  rewrite rev_cons, rev_append, IH. reflexivity.
Qed.

Lemma length_append a b : String.length (a +:+ b) = (String.length a + String.length b)%nat.
Proof.
  induction a as [|c a IH]; [reflexivity|]. rewrite append_cons.
  cbn [String.length]. rewrite IH. reflexivity.
Qed.

Lemma substring_last a c : String.substring (String.length a) 1 (a +:+ String c "") = String c "".
Proof. induction a as [|x a IH]; [reflexivity|]. rewrite append_cons. exact IH. Qed.

Lemma HasPrefix_nil s : strings.HasPrefix s "" = true.
Proof. destruct s; reflexivity. Qed.

(** A string ends with a byte when its reverse begins with it. *)
Lemma HasSuffix_byte s d :
  strings.HasSuffix s (String d "") = strings.HasPrefix (strings.rev s) (String d "").
Proof.
  rewrite <- (rev_involutive s) at 1. destruct (strings.rev s) as [|c t].
  - reflexivity.
  - rewrite rev_cons. unfold strings.HasSuffix.
    rewrite length_append. cbn [String.length].
    replace (String.length (strings.rev t) + 1 - 1)%nat
      with (String.length (strings.rev t)) by lia.
    rewrite substring_last.
    replace (1 <=? String.length (strings.rev t) + 1)%nat with true
      by (symmetry; apply Nat.leb_le; lia).
    cbn. rewrite HasPrefix_nil, Ascii.eqb_sym. destruct (Ascii.eqb d c); reflexivity.
Qed.

Lemma TrimLeft_unchanged s cutset :
  strings.HasPrefix s cutset = false -> String.length cutset = 1%nat ->
  strings.TrimLeft s cutset = s.
Proof.
  destruct cutset as [|d [|? ?]]; try discriminate. intros H _.
  destruct s as [|c s]; [reflexivity|]. cbn in *. rewrite HasPrefix_nil in H.
  rewrite Ascii.eqb_sym. destruct (Ascii.eqb d c); [discriminate|reflexivity].
Qed.

(** The test of [main] before [strings.TrimRight] changes nothing. *)
Lemma TrimRight_guarded s :
  (if strings.HasSuffix s "/" then strings.TrimRight s "/" else s)
  = strings.TrimRight s "/".
Proof.
  destruct (strings.HasSuffix s "/") eqn:E; [reflexivity|].
  rewrite HasSuffix_byte in E. unfold strings.TrimRight.
  rewrite (TrimLeft_unchanged _ "/" E eq_refl), rev_involutive. reflexivity.
Qed.

Lemma TrimRight_separator s : strings.TrimRight (s +:+ "/") "/" = strings.TrimRight s "/".
Proof. unfold strings.TrimRight. rewrite rev_append. reflexivity. Qed.

Lemma TrimRight_unchanged s :
  strings.HasSuffix s "/" = false -> strings.TrimRight s "/" = s.
Proof. intros H. rewrite <- TrimRight_guarded, H. reflexivity. Qed.

Lemma HasSuffix_append p d c :
  strings.HasSuffix (p +:+ String c d) "/" = strings.HasSuffix (String c d) "/".
Proof.
  rewrite !HasSuffix_byte, rev_append.
  destruct (strings.rev (String c d)) as [|x t] eqn:E.
  - exfalso. apply (f_equal strings.rev) in E. rewrite rev_involutive in E. discriminate.
  - rewrite append_cons. cbn [strings.HasPrefix]. rewrite !HasPrefix_nil. reflexivity.
Qed.

Lemma mem_rev d s : strings.mem d (strings.rev s) = strings.mem d s.
Proof.
  assert (forall a b, strings.mem d (a +:+ b) = strings.mem d a || strings.mem d b) as Happ.
  { induction a as [|x a IH]; intros b; [reflexivity|].
    rewrite append_cons. cbn [strings.mem].
    destruct (Ascii.eqb d x); [reflexivity|apply IH]. }
  induction s as [|c s IH]; [reflexivity|].
  rewrite rev_cons, Happ, IH. cbn. destruct (Ascii.eqb d c); [|rewrite orb_false_r; reflexivity].
  apply orb_true_r.
Qed.

Lemma HasSuffix_absent s d :
  strings.mem d s = false -> strings.HasSuffix s (String d "") = false.
Proof.
  intros H. rewrite HasSuffix_byte. rewrite <- mem_rev in H.
  destruct (strings.rev s) as [|c t]; [reflexivity|]. cbn in *.
  destruct (Ascii.eqb d c); [discriminate|reflexivity].
Qed.

(** *** [strings.Split] and [strings.Join] on a one-byte separator *)

Lemma split_from_byte d c s cur :
  strings.split_from (String d "") (String c s) cur 0
  = if Ascii.eqb d c then cur :: strings.split_from (String d "") s "" 0
    else strings.split_from (String d "") s (cur +:+ String c "") 0.
Proof. cbn. rewrite HasPrefix_nil. destruct (Ascii.eqb d c); reflexivity. Qed.

Lemma split_from_absent d h : forall rest cur,
  strings.mem d h = false ->
  strings.split_from (String d "") (h +:+ rest) cur 0
  = strings.split_from (String d "") rest (cur +:+ h) 0.
Proof.
  induction h as [|c h IH]; intros rest cur H.
  - rewrite append_nil_l, append_nil_r. reflexivity.
  - rewrite append_cons. cbn [strings.mem] in H. rewrite split_from_byte.
    destruct (Ascii.eqb d c); [discriminate|].
    rewrite (IH _ _ H), append_assoc. reflexivity.
Qed.

Lemma split_from_first d s : forall cur,
  exists x l, strings.split_from (String d "") s cur 0 = (cur +:+ x) :: l.
Proof.
  induction s as [|c s IH]; intros cur.
  - exists "", []. cbn. rewrite append_nil_r. reflexivity.
  - rewrite split_from_byte. destruct (Ascii.eqb d c).
    + exists "". eexists. rewrite append_nil_r. reflexivity.
    + destruct (IH (cur +:+ String c "")) as (x & l & ->).
      exists (String c x), l. rewrite append_assoc. reflexivity.
Qed.

Lemma Join_cons e x l sep :
  strings.Join (e :: x :: l) sep = e +:+ (sep +:+ strings.Join (x :: l) sep).
Proof. reflexivity. Qed.

Lemma Join_split_from d s : forall cur,
  strings.Join (strings.split_from (String d "") s cur 0) (String d "") = cur +:+ s.
Proof.
  induction s as [|c s IH]; intros cur.
  - cbn. rewrite append_nil_r. reflexivity.
  - rewrite split_from_byte. destruct (Ascii.eqb d c) eqn:E.
    + apply Ascii.eqb_eq in E. subst c.
      destruct (split_from_first d s "") as (x & l & Hx).
      rewrite Hx, Join_cons, <- Hx, (IH ""), append_nil_l. reflexivity.
    + rewrite IH, append_assoc. reflexivity.
Qed.

(** Joining the pieces of a split gives the string back. *)
Lemma Join_Split s d : strings.Join (strings.Split s (String d "")) (String d "") = s.
Proof. unfold strings.Split. apply Join_split_from. Qed.

Lemma Split_absent d h :
  strings.mem d h = false -> strings.Split h (String d "") = [h].
Proof.
  intros H. unfold strings.Split.
  rewrite <- (append_nil_r h) at 1. rewrite (split_from_absent d h "" "" H). reflexivity.
Qed.

Lemma Split_first d h rest :
  strings.mem d h = false ->
  strings.Split (h +:+ String d rest) (String d "")
  = h :: strings.Split rest (String d "").
Proof.
  intros H. unfold strings.Split.
  rewrite (split_from_absent d h _ "" H), split_from_byte, Ascii.eqb_refl. reflexivity.
Qed.

Lemma HasPrefix_append p : forall s, strings.HasPrefix (p +:+ s) p = true.
Proof.
  induction p as [|x p IH]; intros s; [apply HasPrefix_nil|].
  rewrite append_cons. cbn [strings.HasPrefix]. rewrite Ascii.eqb_refl. apply IH.
Qed.

Lemma Contains_prefix s sub : strings.HasPrefix s sub = true -> strings.Contains s sub = true.
Proof. intros H. destruct s; cbn [strings.Contains]; rewrite H; reflexivity. Qed.

Lemma Contains_append a : forall s sub,
  strings.Contains s sub = true -> strings.Contains (a +:+ s) sub = true.
Proof.
  induction a as [|x a IH]; intros s sub H; [exact H|].
  rewrite append_cons. cbn [strings.Contains].
  destruct (strings.HasPrefix (String x (a +:+ s)) sub); [reflexivity|]. apply IH, H.
Qed.

Lemma TrimLeft_head s cutset : forall c r,
  strings.TrimLeft s cutset = String c r -> strings.mem c cutset = false.
Proof.
  induction s as [|x s IH]; intros c r H; [discriminate|].
  cbn [strings.TrimLeft] in H. destruct (strings.mem x cutset) eqn:E.
  - apply (IH _ _ H).
  - injection H as <- _. exact E.
Qed.

Lemma TrimLeft_keeps_last c : forall y,
  Ascii.eqb c "/" = false ->
  exists y', strings.TrimLeft (y +:+ String c "") "/" = y' +:+ String c "".
Proof.
  intros y Hc. induction y as [|x y IH].
  - exists "". rewrite append_nil_l. cbn. rewrite Hc. reflexivity.
  - rewrite append_cons. cbn [strings.TrimLeft].
    destruct (strings.mem x "/"); [exact IH|].
    exists (String x y). reflexivity.
Qed.

Lemma TrimRight_head c s :
  Ascii.eqb c "/" = false ->
  exists s', strings.TrimRight (String c s) "/" = String c s'.
Proof.
  intros Hc. unfold strings.TrimRight. rewrite rev_cons.
  destruct (TrimLeft_keeps_last c (strings.rev s) Hc) as [y' ->].
  exists (strings.rev y'). rewrite rev_append. reflexivity.
Qed.

Lemma scheme_byte_separator c :
  strings.mem c "ftp://" = false -> Ascii.eqb c "/" = false.
Proof.
  cbn. destruct (Ascii.eqb c "f"), (Ascii.eqb c "t"), (Ascii.eqb c "p"),
    (Ascii.eqb c ":"), (Ascii.eqb c "/"); congruence.
Qed.

(** ** The start of the client *)

Section StartFurther.
Import mass_upload.

(** X17. For an archive [ftp://host/dir], with or without a separator at
    its end, where the host does not begin with one of the bytes of
    [ftp://] and has no separator in it, [main] dials the host on port 21
    and walks from [/dir]. *)
Theorem main_site_dir_of_url (c : ascii) (h d : string) (trail : bool) :
  strings.mem c "ftp://" = false ->
  strings.mem "/" h = false ->
  strings.HasSuffix d "/" = false ->
  main_site_dir ("ftp://" +:+ String c h +:+ "/" +:+ d +:+ (if trail then "/" else ""))
  = Some (String c h +:+ ":21", "/" +:+ d).
Proof.
  intros Hc Hh Hd. unfold main_site_dir. cbv zeta.
  rewrite HasPrefix_append.
  assert (strings.TrimLeft
            ("ftp://" +:+ String c h +:+ "/" +:+ d +:+ (if trail then "/" else ""))
            "ftp://"
          = String c h +:+ "/" +:+ d +:+ (if trail then "/" else "")) as ->.
  { rewrite !append_cons, append_nil_l. cbn [strings.TrimLeft strings.mem Ascii.eqb
      Bool.eqb]. fold (strings.mem c "ftp://"). rewrite Hc. reflexivity. }
  rewrite TrimRight_guarded.
  pose proof (scheme_byte_separator c Hc) as Hsep.
  assert (strings.mem "/" (String c h) = false) as Hhost.
  { cbn [strings.mem]. rewrite Ascii.eqb_sym, Hsep. exact Hh. }
  assert (strings.TrimRight
            (String c h +:+ "/" +:+ d +:+ (if trail then "/" else "")) "/"
          = strings.TrimRight (String c h +:+ "/" +:+ d) "/") as ->.
  { destruct trail.
    - rewrite <- (append_assoc "/" d "/"), <- (append_assoc (String c h) ("/" +:+ d) "/").
      apply TrimRight_separator.
    - rewrite append_nil_r. reflexivity. }
  destruct d as [|x d].
  - rewrite (append_nil_r "/"), (TrimRight_separator (String c h)).
    rewrite (TrimRight_unchanged _ (HasSuffix_absent _ _ Hhost)).
    rewrite (Split_absent _ _ Hhost). reflexivity.
  - rewrite <- (append_assoc (String c h) "/" (String x d)).
    rewrite TrimRight_unchanged by (rewrite HasSuffix_append; exact Hd).
    rewrite (append_assoc (String c h) "/" (String x d)).
    change ("/" +:+ String x d) with (String "/" (String x d)).
    rewrite (Split_first _ _ _ Hhost).
    destruct (split_from_first "/" (String x d) "") as (y & l & Hy).
    unfold strings.Split at 1. rewrite Hy.
    change (strings.Join (("" +:+ y) :: l) "/")
      with (strings.Join (("" +:+ y) :: l) (String "/" "")).
    rewrite <- Hy, Join_split_from. reflexivity.
Qed.

(** X18. [main] strips more than the scheme: for an archive that begins
    with [ftp://], every leading byte among [f], [t], [p], [:] and [/] is
    removed, so that the host that is dialled never begins with one of
    them, whatever the host of the archive was; the computation never
    panics. *)
Theorem main_site_dir_strips_leading_bytes (archive : string) :
  strings.HasPrefix archive "ftp://" = true ->
  exists host dir,
    main_site_dir archive = Some (host +:+ ":21", dir) /\
    forall c h, host = String c h -> strings.mem c "ftp://" = false.
Proof.
  intros Hp. unfold main_site_dir. cbv zeta. rewrite Hp, TrimRight_guarded.
  destruct (strings.TrimLeft archive "ftp://") as [|c s] eqn:Ht.
  - exists "". eexists. split; [reflexivity|]. discriminate.
  - pose proof (TrimLeft_head _ _ _ _ Ht) as Hc.
    pose proof (scheme_byte_separator c Hc) as Hsep.
    destruct (TrimRight_head c s Hsep) as [s' ->].
    unfold strings.Split. change "/" with (String "/" "") at 1.
    rewrite split_from_byte, Ascii.eqb_sym, Hsep.
    destruct (split_from_first "/" s' ("" +:+ String c "")) as (x & l & ->).
    eexists _, _. split; [reflexivity|].
    intros c0 h0 H. rewrite append_nil_l, append_cons in H. injection H as <- _.
    exact Hc.
Qed.

(** X19. The audience of the identity token is the address of the upload
    service without its port: what precedes the first colon of the host, or
    the whole host when it has no colon; the index expression never
    panics. *)
Theorem audience_is_host_without_port (h : string) :
  strings.mem ":" h = false ->
  audience_of h = Some ("https://" +:+ h) /\
  forall port, audience_of (h +:+ ":" +:+ port) = Some ("https://" +:+ h).
Proof.
  intros H. unfold audience_of. split.
  - change ":" with (String ":" ""). rewrite (Split_absent _ _ H). reflexivity.
  - intros port. change (":" +:+ port) with (String ":" port).
    change ":" with (String ":" ""). rewrite (Split_first _ _ _ H). reflexivity.
Qed.

Lemma audience_of_total host : exists a, audience_of host = Some a.
Proof.
  unfold audience_of, strings.Split. change ":" with (String ":" "").
  destruct (split_from_first ":" host "") as (x & l & ->). eauto.
Qed.

(** X20. [newGRPC] never panics, and a connection it returns is dialled to
    the host, with the host as authority, a limit of 50 MiB on the messages
    sent, and per-call credentials that are: the identity token of the key
    file when a key file is given; otherwise the identity token of the
    environment, or, only when making it failed with the error of an
    authorized user, the application default credentials. *)
Theorem newGRPC_credentials (e : grpc.env) (host saPath : string) :
  newGRPC e host saPath <> None /\
  forall conn,
    newGRPC e host saPath = Some (inl conn) ->
    grpc.target conn = host /\ grpc.authority conn = host /\
    grpc.maxCallSendMsgSize conn = 52428800 /\
    exists audience,
      audience_of host = Some audience /\
      ((saPath <> "" /\
        grpc.perRPCCredentials conn = grpc.IDTokenSource audience (Some saPath)) \/
       (saPath = "" /\ grpc.NewTokenSource_err e audience None = None /\
        grpc.perRPCCredentials conn = grpc.IDTokenSource audience None) \/
       (saPath = "" /\
        grpc.NewTokenSource_err e audience None = Some authorized_user_error /\
        grpc.DefaultTokenSource_err e = None /\
        grpc.perRPCCredentials conn = grpc.DefaultTokenSource)).
Proof.
  unfold newGRPC. destruct (audience_of_total host) as [a ->].
  destruct (String.eqb saPath "") eqn:Hsa.
  - apply String.eqb_eq in Hsa.
    destruct (grpc.NewTokenSource_err e a None) as [err|] eqn:Hn.
    + destruct (String.eqb err authorized_user_error) eqn:He; cbn [negb].
      * apply String.eqb_eq in He. subst err.
        destruct (grpc.DefaultTokenSource_err e) eqn:Hdts.
        { split; [discriminate|]. intros conn H. discriminate. }
        destruct (grpc.SystemCertPool_err e); [split; [discriminate|]; discriminate|].
        destruct (grpc.Dial_err e _); [split; [discriminate|]; discriminate|].
        split; [discriminate|]. intros conn H. injection H as <-. cbn.
        repeat split. exists a. split; [reflexivity|]. right. right. auto.
      * split; [discriminate|]. intros conn H. discriminate.
    + destruct (grpc.SystemCertPool_err e); [split; [discriminate|]; discriminate|].
      destruct (grpc.Dial_err e _); [split; [discriminate|]; discriminate|].
      split; [discriminate|]. intros conn H. injection H as <-. cbn.
      repeat split. exists a. split; [reflexivity|]. right. left. auto.
  - apply String.eqb_neq in Hsa.
    destruct (grpc.NewTokenSource_err e a (Some saPath)) as [err|].
    + split; [discriminate|]. intros conn H. discriminate.
    + destruct (grpc.SystemCertPool_err e); [split; [discriminate|]; discriminate|].
      destruct (grpc.Dial_err e _); [split; [discriminate|]; discriminate|].
      split; [discriminate|]. intros conn H. injection H as <-. cbn.
      repeat split. exists a. split; [reflexivity|]. left. auto.
Qed.

(** X21. When the login to the archive fails, [new] returns an error whose
    message contains the password. *)
Theorem new_login_error_shows_password
    (e : dialer) (aUser aPasswd site bucket grpcService svcAccountKey : string)
    (f : ftp.ServerConn) (err : error) :
  ftp_Dial e site = inl f ->
  ftp_Login e aUser aPasswd = Some err ->
  exists msg,
    new e aUser aPasswd site bucket grpcService svcAccountKey = Some (inr msg) /\
    strings.Contains msg aPasswd = true.
Proof.
  intros Hd Hl. unfold new, connectFtp. rewrite Hd, Hl.
  eexists. split; [reflexivity|].
  do 5 apply Contains_append. apply Contains_prefix, HasPrefix_append.
Qed.

End StartFurther.

(** ** Instances of the further properties *)

Example main_site_dir_of_ftp_host :
  mass_upload.main_site_dir "ftp://ftp.ripe.net/ris" = Some (".ripe.net:21", "/ris").
Proof. vm_compute. reflexivity. Qed.

Lemma FileUpload_stores_content_and_project_witness :
  exists r',
    server.FileUpload sample.key (sample.rv sample.empty_bucket) sample.upload_request
    = ((Some {| pb.Status := Some pb.FileResponse_SUCCESS |}, None), r') /\
    storage.objects (server.sc r') !! "a/updates.1"
    = Some {| storage.content := bytes_of "X";
              storage.metadata := {[ sample.key := "ROUTEVIEWS" ]} |}.
Proof.
  destruct (FileUpload_stores_content_and_project sample.key
              (sample.rv sample.empty_bucket) sample.upload_request)
    as (r' & H1 & H2 & _).
  - vm_compute. discriminate.
  - discriminate.
  - vm_compute. reflexivity.
  - left. reflexivity.
  - reflexivity.
  - exists r'. split; [exact H1|exact H2].
Defined.

Lemma FileUpload_keeps_object_when_metadata_fails_witness :
  exists e r',
    server.FileUpload sample.key (sample.rv sample.metadata_failing_bucket)
      sample.upload_request
    = ((Some {| pb.Status := Some pb.FileResponse_FAIL |}, Some e), r') /\
    storage.objects (server.sc r') !! "a/updates.1"
    = Some {| storage.content := bytes_of "X"; storage.metadata := ∅ |}.
Proof.
  apply (FileUpload_keeps_object_when_metadata_fails sample.key
           (sample.rv sample.metadata_failing_bucket) sample.upload_request
           "googleapi: Error 503").
  - vm_compute. discriminate.
  - discriminate.
  - vm_compute. reflexivity.
  - left. reflexivity.
  - reflexivity.
  - reflexivity.
  - reflexivity.
Defined.

Lemma FileUpload_touches_only_its_object_witness :
  storage.objects
    (server.sc (snd (server.FileUpload sample.key (sample.rv sample.other_bucket)
                       sample.upload_request))) !! "b/keep.me"
  = Some (sample.object_of "kept").
Proof.
  destruct (FileUpload_touches_only_its_object sample.key
              (sample.rv sample.other_bucket) sample.upload_request "b/keep.me")
    as [H _].
  rewrite H by discriminate. vm_compute. reflexivity.
Defined.

Lemma FileUpload_again_changes_nothing_witness :
  exists r1 r2,
    server.FileUpload sample.key (sample.rv sample.empty_bucket) sample.upload_request
    = ((Some {| pb.Status := Some pb.FileResponse_SUCCESS |}, None), r1) /\
    server.FileUpload sample.key r1 sample.upload_request
    = ((Some {| pb.Status := Some pb.FileResponse_SUCCESS |}, None), r2) /\
    storage.objects (server.sc r2) = storage.objects (server.sc r1).
Proof.
  apply (FileUpload_again_changes_nothing sample.key (sample.rv sample.empty_bucket)
           sample.upload_request).
  - vm_compute. discriminate.
  - discriminate.
  - vm_compute. reflexivity.
  - left. reflexivity.
  - reflexivity.
Defined.

Lemma FileUpload_reports_failed_first_commit_witness :
  exists e r',
    server.FileUpload sample.key (sample.rv sample.close_failing_bucket)
      sample.upload_request
    = ((Some {| pb.Status := Some pb.FileResponse_FAIL |}, Some e), r') /\
    storage.objects (server.sc r')
    = storage.objects (server.sc (sample.rv sample.close_failing_bucket)).
Proof.
  apply (FileUpload_reports_failed_first_commit sample.key
           (sample.rv sample.close_failing_bucket) sample.upload_request
           "googleapi: Error 403").
  - vm_compute. discriminate.
  - discriminate.
  - vm_compute. reflexivity.
  - left. reflexivity.
  - reflexivity.
  - reflexivity.
  - vm_compute. reflexivity.
Defined.

Lemma readChannel_retrieves_in_order_witness :
  spec.retrieved
    (spec.events_of_run sample.first_client
       (snd (fst (mass_upload.readChannel sample.key sample.first_client
                    sample.two_updates))))
  = ["a/updates.1"; "a/RIBS/updates.2"].
Proof.
  destruct (readChannel_retrieves_in_order sample.key sample.first_client
              sample.two_updates) as [_ H].
  apply H. vm_compute. reflexivity.
Defined.

Lemma readChannel_error_counter_witness :
  fst (fst (mass_upload.readChannel sample.key sample.empty_file_client
              sample.updates_1)) = mass_upload.UploadFailed /\
  spec.counter
    (snd (fst (mass_upload.readChannel sample.key sample.empty_file_client
                 sample.updates_1))) "error" = 1.
Proof.
  split; [vm_compute; reflexivity|].
  rewrite (readChannel_error_counter sample.key sample.empty_file_client
             sample.updates_1 eq_refl).
  vm_compute. reflexivity.
Defined.


Lemma readChannel_touches_only_its_files_witness :
  storage.objects
    (mass_upload.store
       (snd (fst (mass_upload.readChannel sample.key
                    (sample.client_of sample.other_bucket sample.site)
                    sample.two_updates)))) !! "b/keep.me"
  = Some (sample.object_of "kept").
Proof.
  destruct (readChannel_touches_only_its_files sample.key
              (sample.client_of sample.other_bucket sample.site)
              sample.two_updates "b/keep.me") as [H _].
  rewrite H.
  - vm_compute. reflexivity.
  - intros ef [<-|[<-|[]]]; discriminate.
Defined.

Lemma destination_failure_is_fatal_witness :
  exists m c',
    mass_upload.readChannel_body sample.key sample.unreachable_bucket_client 0
      (sample.descriptor "a/updates.1")
    = (mass_upload.Stop (mass_upload.Fatal m), c', 0) /\
    mass_upload.log c' = mass_upload.log sample.unreachable_bucket_client /\
    mass_upload.metrics c' = mass_upload.metrics sample.unreachable_bucket_client /\
    storage.objects (mass_upload.store c')
    = storage.objects (mass_upload.store sample.unreachable_bucket_client).
Proof.
  apply (destination_failure_is_fatal sample.key sample.unreachable_bucket_client 0
           (sample.descriptor "a/updates.1") "context deadline exceeded").
  - reflexivity.
  - vm_compute. reflexivity.
Defined.

Lemma empty_file_stops_the_run_witness :
  exists e c',
    mass_upload.readChannel_body sample.key sample.empty_file_client 0
      (sample.descriptor "a/updates.1")
    = (mass_upload.Stop mass_upload.UploadFailed, c', 0) /\
    mass_upload.log c'
    = (mass_upload.log sample.empty_file_client
       ++ [mass_upload.Retrieved "a/updates.1" None;
           mass_upload.Uploaded (spec.request_for "a/updates.1" []) (Some e)])%list /\
    spec.counter c' "error" = int_wrap (spec.counter sample.empty_file_client "error" + 1) /\
    storage.objects (mass_upload.store c')
    = storage.objects (mass_upload.store sample.empty_file_client).
Proof.
  apply (empty_file_stops_the_run sample.key sample.empty_file_client 0
           (sample.descriptor "a/updates.1") None).
  - reflexivity.
  - intros o H. vm_compute in H. discriminate H.
  - reflexivity.
Defined.

Lemma upload_then_getMD5cloud_witness :
  exists c',
    mass_upload.gClient_FileUpload sample.key sample.first_client
      (spec.request_for "a/updates.1" (bytes_of "X"))
    = ((Some {| pb.Status := Some pb.FileResponse_SUCCESS |}, None), c') /\
    fst (mass_upload.getMD5cloud c' "a/updates.1")
    = (md5hex (bytes_of "X"), None).
Proof.
  apply (upload_then_getMD5cloud sample.key sample.first_client "a/updates.1"
           (bytes_of "X")).
  - vm_compute. discriminate.
  - discriminate.
  - reflexivity.
  - reflexivity.
Defined.

Lemma ftpWalk_sends_the_updates_files_witness :
  map mass_upload.name
    (map spec.descriptor_of
       (List.filter spec.wanted
          (spec.walk_entries 100 (ftp.Walk (mass_upload.fc sample.first_client) "/"))))
  = ["a/updates.1"; "a/RIBS/updates.2"].
Proof.
  destruct (ftpWalk_sends_the_updates_files 100 sample.first_client "/"
              ["/a"; "/a/other.txt"; "/a/updates.1"; "/a/RIBS"; "/a/RIBS/updates.2";
               "/a/RIBS/full.1"]
              {| mass_upload.sends :=
                   [sample.descriptor "a/updates.1"; sample.descriptor "a/RIBS/updates.2"];
                 mass_upload.closes := false |}) as [_ H].
  - vm_compute. reflexivity.
  - rewrite <- H. reflexivity.
Defined.

Lemma ftpWalk_names_are_object_names_witness :
  Forall (fun ef => strings.HasPrefix (mass_upload.name ef) "/" = false /\
                    strings.TrimLeft (mass_upload.name ef) "/" = mass_upload.name ef)
    [sample.descriptor "a/updates.1"; sample.descriptor "a/RIBS/updates.2"].
Proof.
  apply (ftpWalk_names_are_object_names 100 sample.first_client "/"
           ["/a"; "/a/other.txt"; "/a/updates.1"; "/a/RIBS"; "/a/RIBS/updates.2";
            "/a/RIBS/full.1"]
           {| mass_upload.sends :=
                [sample.descriptor "a/updates.1"; sample.descriptor "a/RIBS/updates.2"];
              mass_upload.closes := false |}).
  vm_compute. reflexivity.
Defined.

Lemma main_site_dir_of_url_witness :
  mass_upload.main_site_dir "ftp://archive.routeviews.org/bgpdata/"
  = Some ("archive.routeviews.org:21", "/bgpdata").
Proof.
  apply (main_site_dir_of_url "a" "rchive.routeviews.org" "bgpdata" true).
  - reflexivity.
  - reflexivity.
  - reflexivity.
Defined.

Lemma main_site_dir_strips_leading_bytes_witness :
  exists host dir,
    mass_upload.main_site_dir "ftp://ftp.ripe.net/ris" = Some (host +:+ ":21", dir) /\
    forall c h, host = String c h -> strings.mem c "ftp://" = false.
Proof.
  apply (main_site_dir_strips_leading_bytes "ftp://ftp.ripe.net/ris"). reflexivity.
Defined.

Lemma audience_is_host_without_port_witness :
  mass_upload.audience_of "rv-server-cgfq4yjmfa-uc.a.run.app:443"
  = Some "https://rv-server-cgfq4yjmfa-uc.a.run.app".
Proof.
  destruct (audience_is_host_without_port "rv-server-cgfq4yjmfa-uc.a.run.app")
    as [_ H]; [reflexivity|].
  apply (H "443").
Defined.

Lemma newGRPC_credentials_witness :
  exists conn,
    mass_upload.newGRPC sample.authorized_user_env
      "rv-server-cgfq4yjmfa-uc.a.run.app:443" "" = Some (inl conn) /\
    grpc.authority conn = "rv-server-cgfq4yjmfa-uc.a.run.app:443" /\
    grpc.perRPCCredentials conn = grpc.DefaultTokenSource.
Proof.
  eexists. split; [vm_compute; reflexivity|].
  destruct (newGRPC_credentials sample.authorized_user_env
              "rv-server-cgfq4yjmfa-uc.a.run.app:443" "") as [_ H].
  destruct (H _ eq_refl) as (_ & Ha & _). split; [exact Ha|]. reflexivity.
Defined.

Lemma new_login_error_shows_password_witness :
  exists msg,
    mass_upload.new sample.refusing_dialer "ftp" "mirror@" "archive.routeviews.org:21"
      "routeviews-archives" "rv-server-cgfq4yjmfa-uc.a.run.app:443" ""
    = Some (inr msg) /\
    strings.Contains msg "mirror@" = true.
Proof.
  apply (new_login_error_shows_password sample.refusing_dialer "ftp" "mirror@"
           "archive.routeviews.org:21" "routeviews-archives"
           "rv-server-cgfq4yjmfa-uc.a.run.app:443" "" sample.site "530 Login incorrect").
  - reflexivity.
  - reflexivity.
Defined.
